(** * nossocrm: optimistic cache reconciliation, realtime batching and the
    decision queue

  A shallow embedding of the client-side state logic of the CRM:
  - the board mutation hooks ([useCreateBoard], [useUpdateBoard],
    [useDeleteBoard]) and the deal reconciliation of [addDeal];
  - the realtime change-event handler of [useRealtimeSync];
  - the locally persisted decision queue ([decisionQueueService]).

  JavaScript values are modelled as the code uses them: an optional field
  is an [option], an array is a [list], a [Set] is a duplicate-free list in
  insertion order, a plain object used as a map is a [gmap], a number that
  may be [NaN] is an [option Z].  Reads of the clock and of the random
  generator are explicit arguments. *)

From Stdlib Require Import ZArith String List Lia Sorted Permutation.
From stdpp Require Import base decidable option list strings pretty gmap.

Local Open Scope Z_scope.

(** ** JavaScript primitives used by the sources *)

Module Js.

(** Truthiness of a possibly undefined string: [undefined] and [""] are
    falsy. *)
Definition truthy (o : option string) : bool :=
  match o with
  | Some s => negb (String.eqb s "")
  | None => false
  end.

(** [a || b] on possibly undefined strings. *)
Definition or_else (a b : option string) : option string :=
  if truthy a then a else b.

(** [a === b] on possibly undefined strings. *)
Definition strict_eq (a b : option string) : bool :=
  match a, b with
  | Some x, Some y => String.eqb x y
  | None, None => true
  | _, _ => false
  end.

(** A possibly undefined string inside a template literal. *)
Definition interpolate (o : option string) : string :=
  match o with
  | Some s => s
  | None => "undefined"
  end.

(** [arr.slice(-n)]: the last [n] elements (all of them when the array is
    shorter). *)
Definition slice_last {A} (n : nat) (l : list A) : list A :=
  drop (length l - n)%nat l.

(** [set.has(k)] and [set.add(k)] on a [Set] kept in insertion order;
    adding a member again leaves its position unchanged. *)
Definition set_has `{EqDecision A} (k : A) (s : list A) : bool :=
  bool_decide (k ∈ s).

Definition set_add `{EqDecision A} (k : A) (s : list A) : list A :=
  if set_has k s then s else s ++ [k].

(** [keys.forEach(k => set.add(k))]. *)
Definition set_add_all `{EqDecision A} (ks : list A) (s : list A) : list A :=
  fold_left (fun acc k => set_add k acc) ks s.

(** [new Set(arr)]: the elements of [arr] in order of first occurrence. *)
Definition set_of_array `{EqDecision A} (arr : list A) : list A :=
  set_add_all arr [].

(** The verdict of a comparator: a number, or [NaN] ([None]).
    [Array.prototype.sort] reads [NaN] as [+0]. *)
Definition sort_verdict (v : option Z) : Z :=
  match v with
  | Some z => z
  | None => 0
  end.

(** [Array.prototype.sort(cmp)]: a stable sort (ECMAScript 2019); [a] is
    placed before [b] when [cmp a b < 0], and elements that compare equal
    keep their relative order.  Written as a stable insertion sort, with
    which every stable sort agrees on a consistent comparator. *)
Fixpoint sort_insert {A} (cmp : A -> A -> option Z) (x : A) (l : list A)
  : list A :=
  match l with
  | [] => [x]
  | y :: l' =>
      if sort_verdict (cmp x y) <=? 0 then x :: y :: l'
      else y :: sort_insert cmp x l'
  end.

Fixpoint sort {A} (cmp : A -> A -> option Z) (l : list A) : list A :=
  match l with
  | [] => []
  | x :: l' => sort_insert cmp x (sort cmp l')
  end.

(** Subtraction and comparison of numbers that may be [NaN]. *)
Definition num_sub (a b : option Z) : option Z :=
  match a, b with
  | Some x, Some y => Some (x - y)
  | _, _ => None
  end.

Definition num_lt (a b : option Z) : bool :=
  match a, b with
  | Some x, Some y => x <? y
  | _, _ => false
  end.

(** [Date.parse] on the strings that [toISOString] produces,
    [YYYY-MM-DDTHH:mm:ss.sssZ]: the time value in milliseconds since the
    epoch.  Every other string is read as [NaN]; the parser of an engine
    accepts more formats, on this one they agree. *)
Definition digit_value (c : Ascii.ascii) : option Z :=
  let n := Z.of_nat (Ascii.nat_of_ascii c) in
  if (48 <=? n) && (n <=? 57) then Some (n - 48) else None.

Fixpoint decimal (acc : Z) (s : string) : option Z :=
  match s with
  | EmptyString => Some acc
  | String c s' =>
      match digit_value c with
      | Some d => decimal (10 * acc + d) s'
      | None => None
      end
  end.

(** The day number of a civil date, counted from 1970-01-01. *)
Definition days_from_civil (y m d : Z) : Z :=
  let y' := if m <=? 2 then y - 1 else y in
  let era := y' / 400 in
  let yoe := y' - era * 400 in
  let doy := (153 * (if 2 <? m then m - 3 else m + 9) + 2) / 5 + d - 1 in
  let doe := yoe * 365 + yoe / 4 - yoe / 100 + doy in
  era * 146097 + doe - 719468.

Definition iso_parse (s : string) : option Z :=
  let at_ i c := String.eqb (substring i 1 s) c in
  let field i n := decimal 0 (substring i n s) in
  if negb (String.length s =? 24)%nat then None
  else if negb (at_ 4%nat "-" && at_ 7%nat "-" && at_ 10%nat "T"
                && at_ 13%nat ":" && at_ 16%nat ":" && at_ 19%nat "."
                && at_ 23%nat "Z") then None
  else
    match field 0%nat 4%nat, field 5%nat 2%nat, field 8%nat 2%nat,
          field 11%nat 2%nat, field 14%nat 2%nat, field 17%nat 2%nat,
          field 20%nat 3%nat with
    | Some y, Some mo, Some d, Some h, Some mi, Some se, Some ms =>
        if (1 <=? mo) && (mo <=? 12) && (1 <=? d) && (d <=? 31)
           && (h <=? 23) && (mi <=? 59) && (se <=? 59)
        then Some ((((days_from_civil y mo d * 24 + h) * 60 + mi) * 60 + se)
                   * 1000 + ms)
        else None
    | _, _, _, _, _, _, _ => None
    end.

End Js.

(** ** The query cache (TanStack Query client)

  The client is an external library; only the part the hooks touch is
  modelled: the data stored under [queryKeys.boards.lists()] and the
  history of [invalidateQueries] calls. *)

Module Query.

(** The query-key prefixes of [getTableQueryKeys] and of the hooks.  Each
    is a constant array of [queryKeys], so a [Set] of keys compares them
    by identity. *)
Inductive QueryKey :=
| deals_all | dashboard_stats | contacts_all | activities_all
| boards_all | companies_all.

#[global] Instance QueryKey_eq_dec : EqDecision QueryKey.
Proof. solve_decision. Defined.

(** [refetchType] of [invalidateQueries]; the library's default is
    ['active']. *)
Inductive RefetchType := refetch_active | refetch_all | refetch_none.

#[global] Instance RefetchType_eq_dec : EqDecision RefetchType.
Proof. solve_decision. Defined.

Record InvalidateCall := {
  queryKey : QueryKey;
  refetchType : RefetchType;
}.

(** Whether the call makes the client refetch the matching queries. *)
Definition refetches (c : InvalidateCall) : bool :=
  match refetchType c with
  | refetch_none => false
  | _ => true
  end.

(** [queryClient.setQueryData(key, (old = []) => f(old))]. *)
Definition update_with_default {A} (f : list A -> list A)
  (cached : option (list A)) : option (list A) :=
  Some (f (default [] cached)).

(** How many records of a cached list carry the id [i]; [key] reads the id
    of a record. *)
Definition count_key {A} (key : A -> string) (i : string) (l : list A) : nat :=
  length (List.filter (fun x => String.eqb (key x) i) l).

(** The settled result of the remote write of a mutation. *)
Inductive Outcome (D : Type) :=
| Resolved (data : D)
| Rejected.
Arguments Resolved {D} data.
Arguments Rejected {D}.

End Query.

(** ** Board mutation hooks (src/unnamed/part_000) *)

Module Boards.
Import Query.

Record BoardStage := {
  stage_id : string;
  stage_label : string;
}.

(** A board as the hooks see it.  The type [Board] of [@/types] is not
    among the sources; the record has the fields the hooks read or write. *)
Record Board := {
  id : string;
  name : string;
  stages : list BoardStage;
  isDefault : bool;
  createdAt : string;
}.

(** The argument of a create: [Omit<Board, 'id' | 'createdAt'>], read
    through [as any], so [stages] and [isDefault] may be missing. *)
Record BoardInput := {
  in_name : string;
  in_stages : option (list BoardStage);
  in_isDefault : option bool;
}.

(** [Partial<Board>]. *)
Record BoardUpdates := {
  up_id : option string;
  up_name : option string;
  up_stages : option (list BoardStage);
  up_isDefault : option bool;
  up_createdAt : option string;
}.

(** [{ ...board, ...updates }]. *)
Definition apply_updates (b : Board) (u : BoardUpdates) : Board :=
  {| id := default (id b) (up_id u);
     name := default (name b) (up_name u);
     stages := default (stages b) (up_stages u);
     isDefault := default (isDefault b) (up_isDefault u);
     createdAt := default (createdAt b) (up_createdAt u) |}.

(** The part of the query client the board hooks act on. *)
Record QueryClient := {
  boardsLists : option (list Board);
  invalidations : list InvalidateCall;
}.

Definition getQueryData (qc : QueryClient) : option (list Board) :=
  boardsLists qc.

(** [setQueryData(key, value)] with a defined value. *)
Definition setQueryData (v : list Board) (qc : QueryClient) : QueryClient :=
  {| boardsLists := Some v; invalidations := invalidations qc |}.

(** [setQueryData(key, (old = []) => f(old))]. *)
Definition setQueryData_fn (f : list Board -> list Board) (qc : QueryClient)
  : QueryClient :=
  {| boardsLists := update_with_default f (boardsLists qc);
     invalidations := invalidations qc |}.

(** [invalidateQueries({ queryKey })], with the default refetch type. *)
Definition invalidateQueries (k : QueryKey) (qc : QueryClient) : QueryClient :=
  {| boardsLists := boardsLists qc;
     invalidations :=
       invalidations qc
       ++ [{| queryKey := k; refetchType := refetch_active |}] |}.

(** The variables of [useCreateBoard]. *)
Record CreateVars := {
  board : BoardInput;
  order : option Z;
  clientTempId : option string;
}.

(** What [onMutate] of [useCreateBoard] returns. *)
Record CreateContext := {
  previousBoards : option (list Board);
  tempId : string;
}.

(** The clock and random readings of one [onMutate]: [Date.now()] and the
    base-36 digits of [Math.random()] as they are printed into the id, and
    [new Date().toISOString()]. *)
Record Readings := {
  now_ms : string;
  random_digits : string;
  now_iso : string;
}.

(** [`temp-${Date.now()}-${Math.random().toString(36).slice(2, 9)}`]. *)
Definition generated_tempId (r : Readings) : string :=
  ("temp-" ++ now_ms r ++ "-" ++ random_digits r)%string.

(** [clientTempId || generated]. *)
Definition make_tempId (v : CreateVars) (r : Readings) : string :=
  match clientTempId v with
  | Some s => if String.eqb s "" then generated_tempId r else s
  | None => generated_tempId r
  end.

Definition make_tempBoard (v : CreateVars) (r : Readings) : Board :=
  {| id := make_tempId v r;
     name := in_name (board v);
     stages := default [] (in_stages (board v));
     isDefault := default false (in_isDefault (board v));
     createdAt := now_iso r |}.

(** [useCreateBoard.onMutate]: snapshot the list, then prepend the temporary
    board. *)
Definition create_onMutate (r : Readings) (v : CreateVars) (qc : QueryClient)
  : CreateContext * QueryClient :=
  let previous := getQueryData qc in
  let temp := make_tempBoard v r in
  ({| previousBoards := previous; tempId := id temp |},
 setQueryData_fn (fun old => temp :: old) qc).

(** [useCreateBoard.onError]: [if (context?.previousBoards) setQueryData(...)].
    An array is truthy even when empty. *)
Definition create_onError (ctx : option CreateContext) (qc : QueryClient)
  : QueryClient :=
  match ctx with
  | Some c =>
      match previousBoards c with
      | Some prev => setQueryData prev qc
      | None => qc
      end
  | None => qc
  end.

(** The updater of [useCreateBoard.onSuccess]. *)
Definition splice_created (tmp : string) (data : Board) (old : list Board)
  : list Board :=
  let withoutTemp := List.filter (fun b => negb (String.eqb (id b) tmp)) old in
  let already := existsb (fun b => String.eqb (id b) (id data)) withoutTemp in
  if already then withoutTemp else data :: withoutTemp.

(** [useCreateBoard.onSuccess]: nothing happens without a temporary id. *)
Definition create_onSuccess (data : Board) (ctx : option CreateContext)
  (qc : QueryClient) : QueryClient :=
  match ctx with
  | Some c =>
      if String.eqb (tempId c) "" then qc
      else setQueryData_fn (splice_created (tempId c) data) qc
  | None => qc
  end.

Definition create_onSettled (qc : QueryClient) : QueryClient :=
  invalidateQueries boards_all qc.

(** [useUpdateBoard]. *)
Record UpdateContext := { update_previousBoards : option (list Board) }.

Definition update_onMutate (bid : string) (u : BoardUpdates) (qc : QueryClient)
  : UpdateContext * QueryClient :=
  let previous := getQueryData qc in
  ({| update_previousBoards := previous |},
 setQueryData_fn
     (List.map (fun b => if String.eqb (id b) bid then apply_updates b u else b))
     qc).

Definition update_onError (ctx : option UpdateContext) (qc : QueryClient)
  : QueryClient :=
  match ctx with
  | Some c =>
      match update_previousBoards c with
      | Some prev => setQueryData prev qc
      | None => qc
      end
  | None => qc
  end.

Definition update_onSettled (qc : QueryClient) : QueryClient :=
  invalidateQueries boards_all qc.

(** [useDeleteBoard]. *)
Record DeleteContext := { delete_previousBoards : option (list Board) }.

Definition delete_onMutate (bid : string) (qc : QueryClient)
  : DeleteContext * QueryClient :=
  let previous := getQueryData qc in
  ({| delete_previousBoards := previous |},
 setQueryData_fn (List.filter (fun b => negb (String.eqb (id b) bid))) qc).

Definition delete_onError (ctx : option DeleteContext) (qc : QueryClient)
  : QueryClient :=
  match ctx with
  | Some c =>
      match delete_previousBoards c with
      | Some prev => setQueryData prev qc
      | None => qc
      end
  | None => qc
  end.

Definition delete_onSettled (qc : QueryClient) : QueryClient :=
  invalidateQueries deals_all (invalidateQueries boards_all qc).

(** One run of a mutation, in the order the library calls the hooks:
    [onMutate], the remote write, then [onSuccess] or [onError], then
    [onSettled].  [inflight] is whatever other handlers do to the client
    while the remote write is awaited. *)
Definition useCreateBoard (r : Readings) (v : CreateVars)
  (inflight : QueryClient -> QueryClient) (result : Outcome Board)
  (qc : QueryClient) : QueryClient :=
  let '(ctx, qc1) := create_onMutate r v qc in
  let qc2 := inflight qc1 in
  let qc3 := match result with
             | Resolved data => create_onSuccess data (Some ctx) qc2
             | Rejected => create_onError (Some ctx) qc2
             end in
  create_onSettled qc3.

Definition useUpdateBoard (bid : string) (u : BoardUpdates)
  (inflight : QueryClient -> QueryClient) (result : Outcome unit)
  (qc : QueryClient) : QueryClient :=
  let '(ctx, qc1) := update_onMutate bid u qc in
  let qc2 := inflight qc1 in
  let qc3 := match result with
             | Resolved _ => qc2
             | Rejected => update_onError (Some ctx) qc2
             end in
  update_onSettled qc3.

Definition useDeleteBoard (bid : string)
  (inflight : QueryClient -> QueryClient) (result : Outcome unit)
  (qc : QueryClient) : QueryClient :=
  let '(ctx, qc1) := delete_onMutate bid qc in
  let qc2 := inflight qc1 in
  let qc3 := match result with
             | Resolved _ => qc2
             | Rejected => delete_onError (Some ctx) qc2
             end in
  delete_onSettled qc3.

(** *** The query functions

    What [boardsService.getAll()] resolves to. *)
Record Fetched := {
  data : option (list Board);
  error : option string;
}.

(** [useBoards.queryFn]: the error is thrown ([inl]), a missing list reads
    as empty. *)
Definition useBoards_queryFn (r : Fetched) : string + list Board :=
  match error r with
  | Some e => inl e
  | None => inr (default [] (data r))
  end.

(** [useBoard.queryFn]: [(data || []).find(b => b.id === id) || null]; the
    id of the hook may be undefined. *)
Definition useBoard_queryFn (i : option string) (r : Fetched)
  : string + option Board :=
  match error r with
  | Some e => inl e
  | None =>
      inr (List.find
             (fun b => match i with
                       | Some i' => String.eqb (id b) i'
                       | None => false
                       end)
             (default [] (data r)))
  end.

(** [useDefaultBoard.queryFn]:
    [(data || []).find(b => b.isDefault) || (data || [])[0] || null]. *)
Definition useDefaultBoard_queryFn (r : Fetched) : string + option Board :=
  match error r with
  | Some e => inl e
  | None =>
      let boards := default [] (data r) in
      inr (match List.find isDefault boards with
           | Some b => Some b
           | None => head boards
           end)
  end.

(** The hooks that only invalidate: [useDeleteBoardWithMove] and the stage
    mutations have no [onMutate]. *)
Definition deleteWithMove_onSettled (qc : QueryClient) : QueryClient :=
  invalidateQueries deals_all (invalidateQueries boards_all qc).

Definition stage_onSettled (qc : QueryClient) : QueryClient :=
  invalidateQueries boards_all qc.

(** How many records of a cached list carry the id [i]. *)
Definition count_id (i : string) (l : list Board) : nat :=
  count_key id i l.

(** A cached list is reconciled with a created record when no record carries
    the temporary id and exactly one carries the id the server gave. *)
Definition reconciled (tmp : string) (data : Board) (l : list Board) : Prop :=
  count_id tmp l = 0%nat /\ count_id (id data) l = 1%nat.

End Boards.

(** ** Deal creation in the CRM context (src/unnamed/part_001, [addDeal]) *)

Module Deals.
Import Query.

(** A deal row as the remote store returns it.  The types [Deal] and
    [DealView] of [@/types] are not among the sources; the records have the
    fields [addDeal] reads or writes. *)
Record Deal := {
  id : string;
  title : string;
  boardId : option string;
  status : option string;
  contactId : option string;
  companyId : option string;
  createdAt : string;
  updatedAt : string;
}.

(** The labels [addDeal] computes once for the optimistic row and reuses for
    the created one. *)
Record Labels := {
  optimisticContactName : string;
  optimisticContactEmail : string;
  optimisticStageLabel : string;
  optimisticCompanyName : string;
}.

Record DealView := {
  deal : Deal;
  contactName : string;
  contactEmail : string;
  stageLabel : string;
  clientCompanyName : string;
  companyName : string;
}.

Definition view_id (d : DealView) : string := id (deal d).

(** [{ ...deal, <labels> }]. *)
Definition with_labels (d : Deal) (l : Labels) : DealView :=
  {| deal := d;
     contactName := optimisticContactName l;
     contactEmail := optimisticContactEmail l;
     stageLabel := optimisticStageLabel l;
     clientCompanyName := optimisticCompanyName l;
     companyName := optimisticCompanyName l |}.

(** [setQueryData(deals.list({ boardId }), (old = []) => f(old))] on the
    cached lists [queryKeys.deals.list({ boardId })], kept by board id. *)
Definition setDealsList (bid : string) (f : list DealView -> list DealView)
  (cache : gmap string (list DealView)) : gmap string (list DealView) :=
  <[bid := f (default [] (cache !! bid))]> cache.

(** [`temp-${Date.now()}`]. *)
Definition optimisticTempId (now_ms : string) : string :=
  ("temp-" ++ now_ms)%string.

(** [deal.boardId || '']. *)
Definition optimisticBoardId (d : Deal) : string :=
  default "" (boardId d).

(** The optimistic insert at the start of [addDeal]; [d] carries the fields of
    the new deal, its [id] and dates are overwritten. *)
Definition addDeal_insert (now_ms now_iso : string) (d : Deal) (l : Labels)
  (cache : gmap string (list DealView)) : gmap string (list DealView) :=
  let bid := optimisticBoardId d in
  if String.eqb bid "" then cache
  else
    let row :=
      with_labels
        {| id := optimisticTempId now_ms;
           title := title d;
           boardId := boardId d;
           status := status d;
           contactId := Js.or_else (contactId d) (Some "");
           companyId := companyId d;
           createdAt := now_iso;
           updatedAt := now_iso |} l in
    setDealsList bid (fun old => row :: old) cache.

(** The updater that replaces the optimistic row by the created one. *)
Definition splice_created (tmp : string) (created : DealView)
  (old : list DealView) : list DealView :=
  let withoutTemp :=
    List.filter (fun d => negb (String.eqb (view_id d) tmp)) old in
  let already :=
    existsb (fun d => String.eqb (view_id d) (view_id created)) withoutTemp in
  if already then withoutTemp else created :: withoutTemp.

(** The reconciliation after [addDealState] has settled: [createdDeal] is
    the created row, or undefined when the create failed. *)
Definition addDeal_reconcile (now_ms : string) (d : Deal) (l : Labels)
  (createdDeal : option Deal)
  (cache : gmap string (list DealView)) : gmap string (list DealView) :=
  let bid := optimisticBoardId d in
  let tmp := optimisticTempId now_ms in
  if String.eqb bid "" then cache
  else
    match createdDeal with
    | Some created =>
        setDealsList bid (splice_created tmp (with_labels created l)) cache
    | None =>
        setDealsList bid
          (List.filter (fun x => negb (String.eqb (view_id x) tmp))) cache
    end.

(** How many rows of a cached list carry the id [i]. *)
Definition count_id (i : string) (l : list DealView) : nat :=
  count_key view_id i l.

Definition reconciled (tmp : string) (created : Deal) (l : list DealView)
  : Prop :=
  count_id tmp l = 0%nat /\ count_id (id created) l = 1%nat.

End Deals.

(** ** Realtime change events (src/lib/realtime/useRealtimeSync.ts) *)

Module Realtime.
Import Query.

Inductive RealtimeTable :=
| deals | contacts | activities | boards | board_stages | crm_companies.

#[global] Instance RealtimeTable_eq_dec : EqDecision RealtimeTable.
Proof. solve_decision. Defined.

Inductive EventType := INSERT | UPDATE | DELETE.

#[global] Instance EventType_eq_dec : EqDecision EventType.
Proof. solve_decision. Defined.

Record Payload := {
  table : RealtimeTable;
  eventType : EventType;
}.

Definition getTableQueryKeys (t : RealtimeTable) : list QueryKey :=
  match t with
  | deals => [deals_all; dashboard_stats]
  | contacts => [contacts_all]
  | activities => [activities_all]
  | boards => [boards_all]
  | board_stages => [boards_all]
  | crm_companies => [companies_all]
  end.

(** The refs of one [useRealtimeSync] subscription.  [debounceArmed] says
    that a debounce timer is pending. *)
Record Refs := {
  pendingInvalidations : list QueryKey;
  pendingInvalidateOnly : list QueryKey;
  pendingBoardStagesInsertCount : nat;
  flushScheduled : bool;
  debounceArmed : bool;
}.

Definition initial : Refs :=
  {| pendingInvalidations := [];
     pendingInvalidateOnly := [];
     pendingBoardStagesInsertCount := 0;
     flushScheduled := false;
     debounceArmed := false |}.

(** The [postgres_changes] callback.  An INSERT schedules the microtask
    flush unless one is scheduled; any other event re-arms the debounce
    timer. *)
Definition on_change (p : Payload) (r : Refs) : Refs :=
  let keys := getTableQueryKeys (table p) in
  let is_insert := bool_decide (eventType p = INSERT) in
  let stage_insert := is_insert && bool_decide (table p = board_stages) in
  let inv :=
    if stage_insert then pendingInvalidations r
    else Js.set_add_all keys (pendingInvalidations r) in
  let only :=
    if stage_insert then Js.set_add_all keys (pendingInvalidateOnly r)
    else pendingInvalidateOnly r in
  let count :=
    if stage_insert then S (pendingBoardStagesInsertCount r)
    else pendingBoardStagesInsertCount r in
  {| pendingInvalidations := inv;
     pendingInvalidateOnly := only;
     pendingBoardStagesInsertCount := count;
     flushScheduled := if is_insert then true else flushScheduled r;
     debounceArmed := if is_insert then debounceArmed r else true |}.

(** The callback of [queueMicrotask]: the [invalidateQueries] calls it
    makes, in order, and the refs it leaves. *)
Definition flush (r : Refs) : list InvalidateCall * Refs :=
  let keysToFlush := pendingInvalidations r in
  let keysInvalidateOnly := pendingInvalidateOnly r in
  let boardStagesInsertCount := pendingBoardStagesInsertCount r in
  (List.map (fun k => {| queryKey := k; refetchType := refetch_all |})
     keysToFlush
   ++ List.map
        (fun k =>
           {| queryKey := k;
              refetchType :=
                if (boardStagesInsertCount <=? 1)%nat then refetch_all
                else refetch_none |})
        keysInvalidateOnly,
   {| pendingInvalidations := [];
      pendingInvalidateOnly := [];
      pendingBoardStagesInsertCount := 0;
      flushScheduled := false;
      debounceArmed := debounceArmed r |}).

(** The callback of the debounce timer. *)
Definition debounce_fire (r : Refs) : list InvalidateCall * Refs :=
  (List.map (fun k => {| queryKey := k; refetchType := refetch_active |})
     (pendingInvalidations r),
   {| pendingInvalidations := [];
      pendingInvalidateOnly := pendingInvalidateOnly r;
      pendingBoardStagesInsertCount := pendingBoardStagesInsertCount r;
      flushScheduled := flushScheduled r;
      debounceArmed := false |}).

(** One task of the event loop: the change events delivered in it, handled
    one after the other, then the microtask flush if one was scheduled. *)
Definition receive (batch : list Payload) (r : Refs) : Refs :=
  fold_left (fun acc p => on_change p acc) batch r.

Definition run_task (batch : list Payload) (r : Refs)
  : list InvalidateCall * Refs :=
  let r' := receive batch r in
  if flushScheduled r' then flush r' else ([], r').

(** What happens to a subscription: a task delivering events, or the
    debounce timer firing. *)
Inductive Step :=
| Task (batch : list Payload)
| Timer.

Definition step (r : Refs) (s : Step) : Refs :=
  match s with
  | Task batch => snd (run_task batch r)
  | Timer => if debounceArmed r then snd (debounce_fire r) else r
  end.

Definition run (steps : list Step) : Refs := fold_left step steps initial.

End Realtime.

(** ** The decision queue
    (src/features/settings/hooks/useSettingsController.ts, second document:
    [decisionQueueService]) *)

Module DecisionQueue.

Inductive DecisionPriority := critical | high | medium | low.

#[global] Instance DecisionPriority_eq_dec : EqDecision DecisionPriority.
Proof. solve_decision. Defined.

Inductive DecisionStatus := pending | approved | rejected | snoozed.

#[global] Instance DecisionStatus_eq_dec : EqDecision DecisionStatus.
Proof. solve_decision. Defined.

Inductive DecisionCategory :=
| follow_up | deadline | opportunity | risk | routine.

(** A value of an action payload. *)
Inductive PayloadValue :=
| PString (s : string)
| PNumber (n : Z)
| PBool (b : bool).

#[global] Instance PayloadValue_eq_dec : EqDecision PayloadValue.
Proof. solve_decision. Defined.

(** [suggestedAction: { type, payload }]; the payload is a plain object,
    read as a finite map from field names. *)
Record SuggestedAction := {
  action_type : string;
  payload : gmap string PayloadValue;
}.

(** Modelled from the spec: the [Decision] type of [../types], which is not
    among the sources; the fields are those of the data model, which are also
    the ones the service reads and writes. *)
Record Decision := {
  id : string;
  type : string;
  category : DecisionCategory;
  priority : DecisionPriority;
  status : DecisionStatus;
  dealId : option string;
  contactId : option string;
  activityId : option string;
  createdAt : string;
  expiresAt : option string;
  snoozeUntil : option string;
  decidedAt : option string;
  suggestedAction : SuggestedAction;
}.

(** Modelled from the spec: the table [PRIORITY_ORDER] of [../types], which
    is not among the sources; it orders critical > high > medium > low, the
    most urgent first. *)
Definition PRIORITY_ORDER (p : DecisionPriority) : Z :=
  match p with
  | critical => 0
  | high => 1
  | medium => 2
  | low => 3
  end.

(** [DecisionQueueState]; the analyzer results are carried along unread by
    the operations below and are kept as opaque tokens. *)
Record DecisionQueueState := {
  decisions : list Decision;
  analyzerResults : list string;
  lastAnalyzedAt : option string;
}.

(** The two [localStorage] items of the service; [None] is an item that is
    missing or does not parse. *)
Record Storage := {
  queue_item : option DecisionQueueState;
  processed_item : option (list string);
}.

Definition empty_state : DecisionQueueState :=
  {| decisions := []; analyzerResults := []; lastAnalyzedAt := None |}.

Definition loadState (st : Storage) : DecisionQueueState :=
  default empty_state (queue_item st).

Definition saveState (state : DecisionQueueState) (st : Storage) : Storage :=
  {| queue_item := Some state; processed_item := processed_item st |}.

Definition getProcessedDecisions (st : Storage) : list string :=
  match processed_item st with
  | Some arr => Js.set_of_array arr
  | None => []
  end.

Definition addProcessedDecision (key : string) (st : Storage) : Storage :=
  let processed := Js.set_add key (getProcessedDecisions st) in
  let arr := Js.slice_last 500 processed in
  {| queue_item := queue_item st; processed_item := Some arr |}.

Definition getQueue (st : Storage) : list Decision := decisions (loadState st).

Definition getDecisionById (i : string) (st : Storage) : option Decision :=
  List.find (fun d => String.eqb (id d) i) (decisions (loadState st)).

(** [`${decision.type}:${decision.dealId || decision.contactId ||
    decision.activityId}`]. *)
Definition dedupeKey (d : Decision) : string :=
  (type d ++ ":"
   ++ Js.interpolate
        (Js.or_else (Js.or_else (dealId d) (contactId d))
           (activityId d)))%string.

(** The predicate of the [find] in [addDecision] and [addDecisions]. *)
Definition similar_pending (decision d : Decision) : bool :=
  bool_decide (status d = pending)
  && String.eqb (type d) (type decision)
  && Js.strict_eq (dealId d) (dealId decision)
  && Js.strict_eq (contactId d) (contactId decision).

Definition with_decisions (state : DecisionQueueState) (ds : list Decision)
  : DecisionQueueState :=
  {| decisions := ds;
     analyzerResults := analyzerResults state;
     lastAnalyzedAt := lastAnalyzedAt state |}.

Definition addDecision (decision : Decision) (st : Storage) : Storage :=
  let state := loadState st in
  let processed := getProcessedDecisions st in
  if Js.set_has (dedupeKey decision) processed then st
  else
    match List.find (similar_pending decision) (decisions state) with
    | Some _ => st
    | None =>
        saveState (with_decisions state (decisions state ++ [decision])) st
    end.

(** The body of the loop of [addDecisions]: the array being filled and the
    counter. *)
Definition addDecisions_step (processed : list string)
  (acc : list Decision * Z) (decision : Decision) : list Decision * Z :=
  let '(queue, added) := acc in
  if Js.set_has (dedupeKey decision) processed then acc
  else
    match List.find (similar_pending decision) queue with
    | Some _ => acc
    | None => (queue ++ [decision], added + 1)
    end.

Definition addDecisions (ds : list Decision) (st : Storage) : Z * Storage :=
  let state := loadState st in
  let processed := getProcessedDecisions st in
  let '(queue, added) :=
    fold_left (addDecisions_step processed) ds (decisions state, 0) in
  (added, if 0 <? added then saveState (with_decisions state queue) st else st).

(** Assignment to the fields of the first element that satisfies [p], the
    object [find] returned. *)
Fixpoint update_first {A} (p : A -> bool) (f : A -> A) (l : list A) : list A :=
  match l with
  | [] => []
  | x :: l' => if p x then f x :: l' else x :: update_first p f l'
  end.

Definition set_status (s : DecisionStatus) (now_iso : string) (d : Decision)
  : Decision :=
  {| id := id d; type := type d; category := category d;
     priority := priority d; status := s;
     dealId := dealId d; contactId := contactId d; activityId := activityId d;
     createdAt := createdAt d; expiresAt := expiresAt d;
     snoozeUntil := snoozeUntil d; decidedAt := Some now_iso;
     suggestedAction := suggestedAction d |}.

(** [now_iso] is [new Date().toISOString()]. *)
Definition updateDecisionStatus (i : string) (s : DecisionStatus)
  (now_iso : string) (st : Storage) : Storage :=
  let state := loadState st in
  let is_it := fun d => String.eqb (id d) i in
  match List.find is_it (decisions state) with
  | Some decision =>
      let decision' := set_status s now_iso decision in
      let st1 :=
        if bool_decide (s = approved) || bool_decide (s = rejected)
        then addProcessedDecision (dedupeKey decision') st
        else st in
      saveState
        (with_decisions state
           (update_first is_it (set_status s now_iso) (decisions state)))
        st1
  | None => st
  end.

(** The result of [executeAction]. *)
Record Executed := {
  actionType : string;
  executed_payload : gmap string PayloadValue;
  needsExternalExecution : bool;
}.

Record ActionResult := {
  success : bool;
  error : option string;
  result : option Executed;
}.

(** [executeAction]: for now a placeholder that reports success. *)
Definition executeAction (ty : string) (p : gmap string PayloadValue)
  : ActionResult :=
  {| success := true;
     error := None;
     result := Some {| actionType := ty; executed_payload := p;
                       needsExternalExecution := true |} |}.

(** [{ ...payload, ...modifiedPayload }]: the fields of the override win. *)
Definition merge_payload (p : gmap string PayloadValue)
  (modifiedPayload : option (gmap string PayloadValue))
  : gmap string PayloadValue :=
  match modifiedPayload with
  | Some m => m ∪ p
  | None => p
  end.

(** What a call of [approveDecision] leaves behind: its result, the calls of
    [this.executeAction] it made, and the storage. *)
Record Approval := {
  returned : ActionResult;
  executed : list (string * gmap string PayloadValue);
  storage : Storage;
}.

(** [approveDecision] with the method [this.executeAction] as an argument.
    The await of the action resumes on the storage as it was left. *)
Definition approveDecision_via
  (exec : string -> gmap string PayloadValue -> ActionResult)
  (i : string) (modifiedPayload : option (gmap string PayloadValue))
  (now_iso : string) (st : Storage) : Approval :=
  match getDecisionById i st with
  | None =>
      {| returned := {| success := false;
                        error := Some "Decisão não encontrada";
                        result := None |};
         executed := [];
         storage := st |}
  | Some decision =>
      if negb (bool_decide (status decision = pending)) then
        {| returned := {| success := false;
                          error := Some "Decisão já foi processada";
                          result := None |};
           executed := [];
           storage := st |}
      else
        let finalPayload :=
          merge_payload (payload (suggestedAction decision)) modifiedPayload in
        let ty := action_type (suggestedAction decision) in
        let res := exec ty finalPayload in
        {| returned := res;
           executed := [(ty, finalPayload)];
           storage :=
             if success res then updateDecisionStatus i approved now_iso st
             else st |}
  end.

Definition approveDecision := approveDecision_via executeAction.

Definition rejectDecision (i : string) (now_iso : string) (st : Storage)
  : Storage :=
  updateDecisionStatus i rejected now_iso st.

Definition set_snoozed (until_iso : string) (d : Decision) : Decision :=
  {| id := id d; type := type d; category := category d;
     priority := priority d; status := snoozed;
     dealId := dealId d; contactId := contactId d; activityId := activityId d;
     createdAt := createdAt d; expiresAt := expiresAt d;
     snoozeUntil := Some until_iso; decidedAt := decidedAt d;
     suggestedAction := suggestedAction d |}.

Definition snoozeDecision (i : string) (until_iso : string) (st : Storage)
  : Storage :=
  let state := loadState st in
  let is_it := fun d => String.eqb (id d) i in
  match List.find is_it (decisions state) with
  | Some _ =>
      saveState
        (with_decisions state
           (update_first is_it (set_snoozed until_iso) (decisions state)))
        st
  | None => st
  end.

Definition clearAll (st : Storage) : Storage := saveState empty_state st.

(** [saveAnalyzerResult]: the last ten results are kept. *)
Definition saveAnalyzerResult (result now_iso : string) (st : Storage)
  : Storage :=
  let state := loadState st in
  let results := analyzerResults state ++ [result] in
  saveState
    {| decisions := decisions state;
       analyzerResults :=
         if (10 <? length results)%nat then Js.slice_last 10 results
         else results;
       lastAnalyzedAt := Some now_iso |}
    st.

Section Dates.

(** [Date.parse] (and [new Date(string)]): the time value of a date string in
    milliseconds, or [NaN]. *)
Variable Date_parse : string -> option Z.

(** [LocalTZA(t, isUTC)] of ECMAScript: the offset of local time, in
    milliseconds. *)
Variable LocalTZA : Z -> bool -> Z.

(** [d.<field> && Date.parse(d.<field>) < bound]. *)
Definition parses_before (field : option string) (bound : Z) : bool :=
  Js.truthy field
  && Js.num_lt (from_option Date_parse None field) (Some bound).

(** [d.<field> && Date.parse(d.<field>) > bound]. *)
Definition parses_after (field : option string) (bound : Z) : bool :=
  Js.truthy field
  && Js.num_lt (Some bound) (from_option Date_parse None field).

(** The callback of the [filter] of [getPendingDecisions]. *)
Definition is_due (nowTs : Z) (d : Decision) : bool :=
  if negb (bool_decide (status d = pending)) then false
  else if parses_before (expiresAt d) nowTs then false
  else if parses_after (snoozeUntil d) nowTs then false
  else true.

(** The comparator of the [sort] of [getPendingDecisions]. *)
Definition by_priority_then_recency (a b : Decision) : option Z :=
  let priorityDiff :=
    PRIORITY_ORDER (priority a) - PRIORITY_ORDER (priority b) in
  if negb (priorityDiff =? 0) then Some priorityDiff
  else Js.num_sub (Date_parse (createdAt b)) (Date_parse (createdAt a)).

(** [nowTs] is [Date.now()]. *)
Definition getPendingDecisions (nowTs : Z) (st : Storage) : list Decision :=
  Js.sort by_priority_then_recency
    (List.filter (is_due nowTs) (decisions (loadState st))).

(** [now] is the time value of [new Date()]. *)
Definition clearExpired (now : Z) (st : Storage) : Z * Storage :=
  let state := loadState st in
  let before := length (decisions state) in
  let kept :=
    List.filter
      (fun d =>
         if negb (bool_decide (status d = pending)) then true
         else if parses_before (expiresAt d) now then false
         else true)
      (decisions state) in
  (Z.of_nat before - Z.of_nat (length kept),
   saveState (with_decisions state kept) st).

Definition msPerDay : Z := 86400000.

(** [cutoff.setDate(cutoff.getDate() - n)] on a date with time value [now]:
    by the ECMAScript definitions, the local time [now + LocalTZA(now, true)]
    is moved back by [n] days ([MakeDay] is linear in the day of the month)
    and converted back with [UTC]. *)
Definition days_before (n : Z) (now : Z) : Z :=
  let t := now + LocalTZA now true in
  let newDate := t - n * msPerDay in
  newDate - LocalTZA newDate false.

(** [olderThanDays] is [None] when the argument is left out. *)
Definition clearCompleted (olderThanDays : option Z) (now : Z) (st : Storage)
  : Z * Storage :=
  let days := default 7 olderThanDays in
  let state := loadState st in
  let cutoff := days_before days now in
  let before := length (decisions state) in
  let kept :=
    List.filter
      (fun d =>
         if bool_decide (status d = pending) then true
         else if parses_before (decidedAt d) cutoff then false
         else true)
      (decisions state) in
  (Z.of_nat before - Z.of_nat (length kept),
   saveState (with_decisions state kept) st).

(** *** The vocabulary of the properties *)

(** A date string lies before, or after, the instant [t0]. *)
Definition is_before (t0 : Z) (date : string) : Prop :=
  exists t, Date_parse date = Some t /\ t < t0.





(** A pending decision whose expiry is before [now]. *)
Definition expired_pending (now : Z) (d : Decision) : Prop :=
  status d = pending /\ exists e, expiresAt d = Some e /\ is_before now e.

(** A decision that is no longer pending and was decided before [cutoff]. *)
Definition completed_before (cutoff : Z) (d : Decision) : Prop :=
  status d <> pending /\ exists e, decidedAt d = Some e /\ is_before cutoff e.

End Dates.



(** *** The life of the storage

    The two storage items belong to the service: they start out missing and
    change only through its write operations. *)
Inductive Call :=
| AddDecision (decision : Decision)
| AddDecisions (ds : list Decision)
| ApproveDecision (i : string)
    (modifiedPayload : option (gmap string PayloadValue)) (now_iso : string)
| RejectDecision (i now_iso : string)
| SnoozeDecision (i until_iso : string)
| UpdateDecisionStatus (i : string) (s : DecisionStatus) (now_iso : string)
| ClearExpired (now : Z)
| ClearCompleted (olderThanDays : option Z) (now : Z)
| ClearAll
| SaveAnalyzerResult (result now_iso : string).

Definition initial_storage : Storage :=
  {| queue_item := None; processed_item := None |}.

Section History.

Variable Date_parse : string -> option Z.
Variable LocalTZA : Z -> bool -> Z.
Variable exec : string -> gmap string PayloadValue -> ActionResult.

Definition perform (st : Storage) (c : Call) : Storage :=
  match c with
  | AddDecision d => addDecision d st
  | AddDecisions ds => snd (addDecisions ds st)
  | ApproveDecision i m now_iso =>
      storage (approveDecision_via exec i m now_iso st)
  | RejectDecision i now_iso => rejectDecision i now_iso st
  | SnoozeDecision i until_iso => snoozeDecision i until_iso st
  | UpdateDecisionStatus i s now_iso => updateDecisionStatus i s now_iso st
  | ClearExpired now => snd (clearExpired Date_parse now st)
  | ClearCompleted days now =>
      snd (clearCompleted Date_parse LocalTZA days now st)
  | ClearAll => clearAll st
  | SaveAnalyzerResult r now_iso => saveAnalyzerResult r now_iso st
  end.

Definition history (calls : list Call) : Storage :=
  fold_left perform calls initial_storage.

End History.

(** A call that puts a decision back to pending: [updateDecisionStatus] is
    a public method and takes any status. *)
Definition reopens (c : Call) : bool :=
  match c with
  | UpdateDecisionStatus _ pending _ => true
  | _ => false
  end.

(** A call that may record a dedupe key: an approval, a rejection, or a
    status set to approved or rejected. *)
Definition records (c : Call) : bool :=
  match c with
  | ApproveDecision _ _ _ => true
  | RejectDecision _ _ => true
  | UpdateDecisionStatus _ (approved | rejected) _ => true
  | _ => false
  end.

(** The key is in the processed set, with at most [m] keys recorded after
    it. *)
Definition recorded_within (key : string) (m : nat) (st : Storage) : Prop :=
  exists older newer,
    getProcessedDecisions st = older ++ key :: newer
    /\ (length newer <= m)%nat.

(** A local time zone with the fixed offset [off]. *)
Definition fixed_zone (off : Z) : Z -> bool -> Z := fun _ _ => off.

(** A local time zone whose offset is [before] up to the instant [switch]
    and [after] from then on, as at the start or the end of daylight saving
    time.  [LocalTZA(t, true)] takes a time value; [LocalTZA(t, false)] takes
    a local time, read with the offset before the switch. *)
Definition switching_zone (switch before after : Z) : Z -> bool -> Z :=
  fun t isUTC =>
    let instant := if isUTC then t else t - before in
    if instant <? switch then before else after.

(** The primary related entity of a decision, in the words of the spec: the
    deal when the decision names one, else the contact, else the activity.
    An id that is missing or empty names nothing. *)
Definition names_entity (o : option string) : option string :=
  match o with
  | Some (String c rest) => Some (String c rest)
  | _ => None
  end.

Definition primary_entity_id (d : Decision) : option string :=
  match names_entity (dealId d) with
  | Some e => Some e
  | None =>
      match names_entity (contactId d) with
      | Some e => Some e
      | None => names_entity (activityId d)
      end
  end.

(** *** Reads and statistics *)

Definition getState (st : Storage) : DecisionQueueState := loadState st.

Definition getLastAnalyzedAt (st : Storage) : option string :=
  lastAnalyzedAt (loadState st).

(** [stats.byCategory]. *)
Record CategoryCounts := {
  n_follow_up : Z;
  n_deadline : Z;
  n_opportunity : Z;
  n_risk : Z;
  n_routine : Z;
}.

(** A value of [stats.byType]: a count, or a value that is not a number.
    [byType] starts as the plain object [{}], which inherits the properties
    of [Object.prototype] ([constructor], [toString], ...): read under such a
    name it gives a function or an object, and [+ 1] makes a string of
    that, as it does of a string. *)
Inductive TypeEntry :=
| Counted (n : Z)
| NotANumber.

(** [DecisionStats]; [byType] gives, for the types the loop has assigned
    under, what is then read under them. *)
Record DecisionStats := {
  stats_total : Z;
  stats_pending : Z;
  stats_critical : Z;
  stats_high : Z;
  stats_medium : Z;
  stats_low : Z;
  byCategory : CategoryCounts;
  byType : gmap string TypeEntry;
}.

(** [stats.byCategory[decision.category]++]. *)
Definition bump_category (c : DecisionCategory) (n : CategoryCounts)
  : CategoryCounts :=
  match c with
  | follow_up =>
      {| n_follow_up := n_follow_up n + 1; n_deadline := n_deadline n;
         n_opportunity := n_opportunity n; n_risk := n_risk n;
         n_routine := n_routine n |}
  | deadline =>
      {| n_follow_up := n_follow_up n; n_deadline := n_deadline n + 1;
         n_opportunity := n_opportunity n; n_risk := n_risk n;
         n_routine := n_routine n |}
  | opportunity =>
      {| n_follow_up := n_follow_up n; n_deadline := n_deadline n;
         n_opportunity := n_opportunity n + 1; n_risk := n_risk n;
         n_routine := n_routine n |}
  | risk =>
      {| n_follow_up := n_follow_up n; n_deadline := n_deadline n;
         n_opportunity := n_opportunity n; n_risk := n_risk n + 1;
         n_routine := n_routine n |}
  | routine =>
      {| n_follow_up := n_follow_up n; n_deadline := n_deadline n;
         n_opportunity := n_opportunity n; n_risk := n_risk n;
         n_routine := n_routine n + 1 |}
  end.

Definition empty_stats (n : Z) : DecisionStats :=
  {| stats_total := n;
     stats_pending := n;
     stats_critical := 0; stats_high := 0; stats_medium := 0;
     stats_low := 0;
     byCategory := {| n_follow_up := 0; n_deadline := 0;
                      n_opportunity := 0; n_risk := 0; n_routine := 0 |};
     byType := ∅ |}.

Section Stats.

(** [inherited t]: [Object.prototype] has a property named [t]. *)
Variable inherited : string -> bool.

(** [(stats.byType[t] || 0) + 1], where [assigned] is what the loop has
    assigned under [t] so far.  A count is a number, also when it is 0; an
    inherited value and a string are truthy and [+ 1] concatenates. *)
Definition next_entry (t : string) (assigned : option TypeEntry)
  : TypeEntry :=
  match assigned with
  | Some (Counted n) => Counted (n + 1)
  | Some NotANumber => NotANumber
  | None => if inherited t then NotANumber else Counted 1
  end.

(** The body of the loop of [getStats]. *)
Definition count_decision (stats : DecisionStats) (decision : Decision)
  : DecisionStats :=
  let p := priority decision in
  let t := type decision in
  {| stats_total := stats_total stats;
     stats_pending := stats_pending stats;
     stats_critical :=
       stats_critical stats + (if bool_decide (p = critical) then 1 else 0);
     stats_high :=
       stats_high stats + (if bool_decide (p = high) then 1 else 0);
     stats_medium :=
       stats_medium stats + (if bool_decide (p = medium) then 1 else 0);
     stats_low :=
       stats_low stats + (if bool_decide (p = low) then 1 else 0);
     byCategory := bump_category (category decision) (byCategory stats);
     byType := <[t := next_entry t (byType stats !! t)]> (byType stats) |}.

Definition stats_for (pending_list : list Decision) : DecisionStats :=
  fold_left count_decision pending_list
    (empty_stats (Z.of_nat (length pending_list))).

Definition getStats (Date_parse : string -> option Z) (nowTs : Z)
  (st : Storage) : DecisionStats :=
  stats_for (getPendingDecisions Date_parse nowTs st).

End Stats.

(** The number an entry of [byType] counts; a value that is not a number
    counts nothing. *)
Definition entry_count (e : TypeEntry) : Z :=
  match e with
  | Counted n => n
  | NotANumber => 0
  end.

(** The sum of the counts of [byType]. *)
Definition sum_counts (m : gmap string TypeEntry) : Z :=
  map_fold (fun _ e acc => entry_count e + acc) 0 m.

(** How many decisions of a list satisfy [p]. *)
Definition count_where (p : Decision -> bool) (l : list Decision) : Z :=
  Z.of_nat (length (List.filter p l)).

(** What the duplicate test of [addDecision] compares. *)
Definition similarity (d : Decision)
  : string * option string * option string :=
  (type d, dealId d, contactId d).

(** The similarities of the pending decisions of a queue, in order. *)
Definition pending_similarities (queue : list Decision)
  : list (string * option string * option string) :=
  List.map similarity
    (List.filter (fun d => bool_decide (status d = pending)) queue).

(** A decision to run the service on: a stagnant-deal suggestion for the
    deal [deal]. *)
Definition sample (i deal : string) (p : DecisionPriority)
  (s : DecisionStatus) : Decision :=
  {| id := i; type := "stagnant_deal"; category := risk;
     priority := p; status := s;
     dealId := Some deal; contactId := None; activityId := None;
     createdAt := "2025-01-01T00:00:00.000Z"; expiresAt := None;
     snoozeUntil := None; decidedAt := None;
     suggestedAction :=
       {| action_type := "create_activity";
          payload := {[ "dealId"%string := PString deal ]} |} |}.

End DecisionQueue.

(** ** The analyzers and conversions of the CRM context
    (src/unnamed/part_001) *)

Module Crm.

(** [haystack.includes(needle)]. *)
Fixpoint includes (haystack needle : string) : bool :=
  String.prefix needle haystack
  || match haystack with
     | EmptyString => false
     | String _ rest => includes rest needle
     end.

(** [Math.max] on two numbers that may be [NaN]. *)
Definition num_max (a b : option Z) : option Z :=
  match a, b with
  | Some x, Some y => Some (Z.max x y)
  | _, _ => None
  end.

(** An activity as [addActivity] receives it; of the stored activities the
    analyzers read the same fields.  The entity types of [@/types] are not
    among the sources; the records have the fields the context reads or
    writes. *)
Record Activity := {
  dealId : string;
  dealTitle : string;
  type : string;
  title : string;
  description : option string;
  date : string;
  user : string * string;
  completed : bool;
}.

Record RawDeal := {
  deal_id : string;
  deal_title : string;
  deal_boardId : string;
  deal_status : string;
  deal_isWon : bool;
  deal_isLost : bool;
  deal_lastStageChangeDate : option string;
}.

Record Company := {
  company_id : string;
  company_name : string;
}.

Record Contact := {
  contact_id : string;
  contact_name : string;
  contact_email : string;
  contact_role : string;
  contact_status : string;
  contact_stage : string;
  contact_createdAt : string;
  contact_lastPurchaseDate : option string;
  contact_lastInteraction : option string;
  contact_companyId : option string;
  contact_clientCompanyId : option string;
}.

Record Lead := {
  lead_id : string;
  lead_name : string;
  lead_email : string;
  lead_companyName : string;
  lead_role : option string;
  lead_source : string;
}.

(** The deal handed to [addDealState] by the conversions; its constant
    [items], [customFields] and [owner] are left out. *)
Record NewDeal := {
  new_title : string;
  new_companyId : option string;
  new_contactId : string;
  new_boardId : option string;
  new_value : Z;
  new_status : string;
  new_updatedAt : string;
  new_probability : Z;
  new_priority : string;
  new_tags : list string;
  new_isWon : bool;
  new_isLost : bool;
}.

(** The contact handed to [addContact] by [convertLead]. *)
Record NewContact := {
  nc_companyId : string;
  nc_name : string;
  nc_email : string;
  nc_phone : string;
  nc_role : string;
  nc_status : string;
  nc_stage : string;
  nc_lastPurchaseDate : string;
  nc_totalValue : Z;
}.

(** The calls a conversion makes on the other contexts, in order. *)
Inductive Effect :=
| AddCompany (name : string)
| AddContact (c : NewContact)
| AddDealState (d : NewDeal)
| DiscardLead (leadId : string)
| AddActivity (a : Activity).

Section Analyzers.

Variable Date_parse : string -> option Z.
Variable LocalTZA : Z -> bool -> Z.

(** [getBoardById] of the boards context. *)
Variable getBoardById : string -> option Boards.Board.

(** [new Date().toISOString()] when the [k]-th activity of a run is
    created. *)
Variable clock : nat -> string.

(** The predicate of the [filter] of [checkStagnantDeals]. *)
Definition is_stagnant (tenDaysAgo : Z) (d : RawDeal) : bool :=
  negb (deal_isWon d)
  && negb (deal_isLost d)
  && (negb (Js.truthy (deal_lastStageChangeDate d))
      || Js.num_lt
           (from_option Date_parse None (deal_lastStageChangeDate d))
           (Some tenDaysAgo)).

(** The predicate of the [find] of an open alert for a deal. *)
Definition open_alert_for (deal : RawDeal) (a : Activity) : bool :=
  String.eqb (dealId a) (deal_id deal)
  && String.eqb (title a) "Alerta de Estagnação"
  && negb (completed a).

(** [board?.stages.find(s => s.id === deal.status)?.label || deal.status]. *)
Definition stage_label_of (deal : RawDeal) : string :=
  match getBoardById (deal_boardId deal) with
  | Some board =>
      match List.find
              (fun s => String.eqb (Boards.stage_id s) (deal_status deal))
              (Boards.stages board) with
      | Some s =>
          if String.eqb (Boards.stage_label s) "" then deal_status deal
          else Boards.stage_label s
      | None => deal_status deal
      end
  | None => deal_status deal
  end.

Definition stagnation_alert (deal : RawDeal) (k : nat) : Activity :=
  {| dealId := deal_id deal;
     dealTitle := deal_title deal;
     type := "TASK";
     title := "Alerta de Estagnação";
     description :=
       Some ("Oportunidade parada em " ++ stage_label_of deal
             ++ " há mais de 10 dias.")%string;
     date := clock k;
     user := ("Sistema"%string, ""%string);
     completed := false |}.

(** The body of the loop of [checkStagnantDeals]; [activities] is the list
    the callback closed over, it does not change during the run. *)
Definition alert_step (activities : list Activity)
  (created : list Activity) (deal : RawDeal) : list Activity :=
  match List.find (open_alert_for deal) activities with
  | Some _ => created
  | None => created ++ [stagnation_alert deal (length created)]
  end.

(** [checkStagnantDeals]: the activities it adds, in order, and the number
    it returns.  [now] is the time value of [new Date()]. *)
Definition checkStagnantDeals (now : Z) (rawDeals : list RawDeal)
  (activities : list Activity) : list Activity * Z :=
  let tenDaysAgo := DecisionQueue.days_before LocalTZA 10 now in
  let stagnantDeals := List.filter (is_stagnant tenDaysAgo) rawDeals in
  if (0 <? length stagnantDeals)%nat then
    (fold_left (alert_step activities) (take 3 stagnantDeals) [],
     Z.of_nat (length stagnantDeals))
  else ([], 0).

(** The predicate of the [filter] of [checkWalletHealth]. *)
Definition is_risky (thirtyDaysAgo : Z) (c : Contact) : bool :=
  if negb (String.eqb (contact_status c) "ACTIVE")
     || negb (String.eqb (contact_stage c) "CUSTOMER") then false
  else
    let createdAtTs := Date_parse (contact_createdAt c) in
    if negb (Js.truthy (contact_lastPurchaseDate c))
       && negb (Js.truthy (contact_lastInteraction c))
    then Js.num_lt createdAtTs (Some thirtyDaysAgo)
    else
      (* [None] is [null] here, [Some None] is [NaN] *)
      let lastInteractionTs :=
        if Js.truthy (contact_lastInteraction c)
        then Some (from_option Date_parse None (contact_lastInteraction c))
        else None in
      let lastPurchaseTs :=
        if Js.truthy (contact_lastPurchaseDate c)
        then Some (from_option Date_parse None (contact_lastPurchaseDate c))
        else None in
      let lastActivityTs :=
        match lastInteractionTs, lastPurchaseTs with
        | Some a, Some b => Some (num_max a b)
        | Some a, None => Some a
        | None, p => p
        end in
      match lastActivityTs with
      | Some ts => Js.num_lt ts (Some thirtyDaysAgo)
      | None => false
      end.

(** The predicate of the [find] of an open churn task for a contact. *)
Definition open_task_for (contact : Contact) (a : Activity) : bool :=
  String.eqb (title a) "Análise de Carteira: Risco de Churn"
  && match description a with
     | Some text => includes text (contact_name contact)
     | None => false
     end
  && negb (completed a).

(** [companies.find(c => c.id === (contact.clientCompanyId ||
    contact.companyId))?.name], when truthy. *)
Definition company_name_of (companies : list Company) (contact : Contact)
  : option string :=
  match List.find
          (fun c =>
             Js.strict_eq (Some (company_id c))
               (Js.or_else (contact_clientCompanyId contact)
                  (contact_companyId contact)))
          companies with
  | Some c => if String.eqb (company_name c) "" then None
              else Some (company_name c)
  | None => None
  end.

Definition churn_task (companies : list Company) (contact : Contact)
  (k : nat) : Activity :=
  {| dealId := "";
     dealTitle := "Carteira de Clientes";
     type := "TASK";
     title := "Análise de Carteira: Risco de Churn";
     description :=
       Some ("O cliente " ++ contact_name contact ++ " "
             ++ match company_name_of companies contact with
                | Some n => "(Empresa: " ++ n ++ ")"
                | None => ""
                end
             ++ " está inativo há mais de 30 dias.")%string;
     date := clock k;
     user := ("Sistema"%string, ""%string);
     completed := false |}.

Definition task_step (companies : list Company) (activities : list Activity)
  (created : list Activity) (contact : Contact) : list Activity :=
  match List.find (open_task_for contact) activities with
  | Some _ => created
  | None => created ++ [churn_task companies contact (length created)]
  end.

(** [checkWalletHealth]: the activities it adds, in order, and the count it
    returns. *)
Definition checkWalletHealth (now : Z) (contacts : list Contact)
  (companies : list Company) (activities : list Activity)
  : list Activity * Z :=
  let thirtyDaysAgo := DecisionQueue.days_before LocalTZA 30 now in
  let riskyContacts := List.filter (is_risky thirtyDaysAgo) contacts in
  let created :=
    fold_left (task_step companies activities) riskyContacts [] in
  (created, Z.of_nat (length created)).

End Analyzers.

(** *** The vocabulary of the properties *)

(** The dates of last interaction and of last purchase a contact has on
    record. *)
Definition recorded_dates (c : Contact) : list string :=
  List.filter (fun s => negb (String.eqb s ""))
    (option_list (contact_lastInteraction c)
     ++ option_list (contact_lastPurchaseDate c)).

(** The dates the wallet analyzer judges a contact by: the recorded ones,
    or the date of creation when there is none. *)
Definition judged_dates (c : Contact) : list string :=
  match recorded_dates c with
  | [] => [contact_createdAt c]
  | ds => ds
  end.

(** An open deal and an active customer to run the analyzers on. *)
Definition sample_deal (i : string) (changed : option string) : RawDeal :=
  {| deal_id := i;
     deal_title := ("Deal " ++ i)%string;
     deal_boardId := "board-1";
     deal_status := "stage-1";
     deal_isWon := false;
     deal_isLost := false;
     deal_lastStageChangeDate := changed |}.

Definition sample_contact (i n : string) (interaction : option string)
  : Contact :=
  {| contact_id := i;
     contact_name := n;
     contact_email := "";
     contact_role := "";
     contact_status := "ACTIVE";
     contact_stage := "CUSTOMER";
     contact_createdAt := "2024-01-01T00:00:00.000Z";
     contact_lastPurchaseDate := None;
     contact_lastInteraction := interaction;
     contact_companyId := None;
     contact_clientCompanyId := None |}.

(** What the awaited calls of a conversion resolve to: the created company,
    contact and deal (id and title), or nothing when the call failed. *)
Record Created := {
  newCompany : option Company;
  newContact : option Contact;
  createdDeal : option (string * string);
}.

(** [convertLead]: the calls it makes, in order.  [now1] and [now2] are the
    two readings of the clock. *)
Definition convertLead (leads : list Lead)
  (activeBoard : option Boards.Board) (activeBoardId : option string)
  (now1 now2 : string) (leadId : string) (r : Created) : list Effect :=
  match List.find (fun l => String.eqb (lead_id l) leadId) leads with
  | None => []
  | Some lead =>
      AddCompany (lead_companyName lead)
      :: match newCompany r with
         | None => []
         | Some company =>
             AddContact
               {| nc_companyId := company_id company;
                  nc_name := lead_name lead;
                  nc_email := lead_email lead;
                  nc_phone := "";
                  nc_role := default "" (Js.or_else (lead_role lead) None);
                  nc_status := "ACTIVE";
                  nc_stage := "LEAD";
                  nc_lastPurchaseDate := "";
                  nc_totalValue := 0 |}
             :: match newContact r, activeBoard with
                | Some contact, Some board =>
                    match Boards.stages board with
                    | [] => []
                    | first :: _ =>
                        AddDealState
                          {| new_title :=
                               ("Negócio com " ++ lead_companyName lead)%string;
                             new_companyId := Some (company_id company);
                             new_contactId := contact_id contact;
                             new_boardId := activeBoardId;
                             new_value := 0;
                             new_status := Boards.stage_id first;
                             new_updatedAt := now1;
                             new_probability := 20;
                             new_priority := "medium";
                             new_tags :=
                               [("Origem: " ++ lead_source lead)%string];
                             new_isWon := false;
                             new_isLost := false |}
                        :: DiscardLead leadId
                        :: match createdDeal r with
                           | Some (i, t) =>
                               [AddActivity
                                  {| dealId := i;
                                     dealTitle := t;
                                     type := "STATUS_CHANGE";
                                     title := "Convertido de Lead";
                                     description :=
                                       Some ("Lead " ++ lead_name lead
                                             ++ " convertido automaticamente.")%string;
                                     date := now2;
                                     user := ("Sistema"%string, ""%string);
                                     completed := true |}]
                           | None => []
                           end
                    end
                | _, _ => []
                end
         end
  end.

(** [convertContactToDeal]: the calls it makes, in order. *)
Definition convertContactToDeal (contacts : list Contact)
  (companies : list Company)
  (activeBoard : option Boards.Board) (activeBoardId : option string)
  (now1 now2 : string) (contactId : string) (r : Created) : list Effect :=
  match List.find (fun c => String.eqb (contact_id c) contactId) contacts with
  | None => []
  | Some contact =>
      let known :=
        List.find
          (fun c => Js.strict_eq (Some (company_id c))
                      (contact_companyId contact))
          companies in
      let company_calls :=
        match known with
        | Some _ => []
        | None => [AddCompany "Empresa Auto (from Contact)"]
        end in
      let companyId :=
        match known, newCompany r with
        | None, Some company => Some (company_id company)
        | _, _ => contact_companyId contact
        end in
      company_calls
      ++ match activeBoard with
         | Some board =>
             match Boards.stages board with
             | [] => []
             | first :: _ =>
                 AddDealState
                   {| new_title :=
                        ("Negócio com " ++ contact_name contact)%string;
                      new_companyId := companyId;
                      new_contactId := contact_id contact;
                      new_boardId := activeBoardId;
                      new_value := 0;
                      new_status := Boards.stage_id first;
                      new_updatedAt := now1;
                      new_probability := 20;
                      new_priority := "medium";
                      new_tags := [];
                      new_isWon := false;
                      new_isLost := false |}
                 :: match createdDeal r with
                    | Some (i, t) =>
                        [AddActivity
                           {| dealId := i;
                              dealTitle := t;
                              type := "STATUS_CHANGE";
                              title := "Convertido de Contato";
                              description :=
                                Some ("Contato " ++ contact_name contact
                                      ++ " convertido em oportunidade.")%string;
                              date := now2;
                              user := ("Sistema"%string, ""%string);
                              completed := true |}]
                    | None => []
                    end
             end
         | None => []
         end
  end.

End Crm.

(** ** The settings controller
    (src/features/settings/hooks/useSettingsController.ts, first document) *)

Module Settings.

(** [CustomFieldDefinition] of [@/types], which is not among the sources:
    the fields the controller reads or writes. *)
Record CustomFieldDefinition := {
  id : string;
  key : string;
  label : string;
  type : string;
  options : option (list string);
}.

(** The argument of [addCustomField]: a definition without [id]. *)
Record NewField := {
  new_key : string;
  new_label : string;
  new_type : string;
  new_options : option (list string);
}.

(** The argument of [updateCustomField]. *)
Record FieldUpdate := {
  upd_label : string;
  upd_type : string;
  upd_options : option (list string);
}.

(** The calls of the controller on the CRM context and on the toasts. *)
Inductive Effect :=
| Toast (message kind : string)
| AddCustomField (f : NewField)
| UpdateCustomField (i : string) (u : FieldUpdate)
| RemoveCustomField (i : string)
| AddTag (tag : string)
| RemoveTag (tag : string).

(** The [useState] cells of the controller. *)
Record State := {
  newFieldLabel : string;
  newFieldType : string;
  newFieldOptions : string;
  editingId : option string;
  newTagName : string;
}.

(** [s.split(sep)] for a separator of one character. *)
Fixpoint split (sep : Ascii.ascii) (s : string) : list string :=
  match s with
  | EmptyString => [EmptyString]
  | String c rest =>
      if Ascii.eqb c sep then EmptyString :: split sep rest
      else match split sep rest with
           | [] => [String c EmptyString]
           | w :: ws => String c w :: ws
           end
  end.

(** The comma. *)
Definition comma : Ascii.ascii := Ascii.ascii_of_nat 44.

(** The character of a double quote, as a string. *)
Definition quote : string := String (Ascii.ascii_of_nat 34) EmptyString.

Section Controller.

(** The string primitives of the engine the controller is built on:
    [s.trim()], [s.toLowerCase()], and the three regular expression
    replacements [s.replace(/\s+/g, ' ')], [s.replace(/\s+/g, '')] and the
    capitalising [s.replace(/(?:^\w|[A-Z]|\b\w)/g, ...)] of
    [buildFieldKey]. *)
Variable trim : string -> string.
Variable toLowerCase : string -> string.
Variable collapse_spaces : string -> string.
Variable strip_spaces : string -> string.
Variable capitalise_words : string -> string.

Definition normalizeFieldLabel (l : string) : string :=
  toLowerCase (collapse_spaces (trim l)).

Definition buildFieldKey (l : string) : string :=
  strip_spaces (capitalise_words (toLowerCase l)).

Definition startEditingField (field : CustomFieldDefinition) (st : State)
  : State :=
  {| newFieldLabel := label field;
     newFieldType := type field;
     newFieldOptions :=
       match options field with
       | Some opts => String.concat ", " opts
       | None => ""
       end;
     editingId := Some (id field);
     newTagName := newTagName st |}.

Definition cancelEditingField (st : State) : State :=
  {| newFieldLabel := "";
     newFieldType := "text";
     newFieldOptions := "";
     editingId := None;
     newTagName := newTagName st |}.

(** [editingId && f.id === editingId]. *)
Definition is_edited (st : State) (f : CustomFieldDefinition) : bool :=
  Js.truthy (editingId st) && Js.strict_eq (Some (id f)) (editingId st).

Definition hasDuplicateLabel (defs : list CustomFieldDefinition)
  (st : State) (normalizedLabel : string) : bool :=
  existsb
    (fun f =>
       if is_edited st f then false
       else String.eqb (normalizeFieldLabel (label f)) normalizedLabel)
    defs.

Definition hasDuplicateKey (defs : list CustomFieldDefinition)
  (st : State) (nextKey : string) : bool :=
  existsb
    (fun f => if is_edited st f then false else String.eqb (key f) nextKey)
    defs.

(** [newFieldOptions.split(',').map(opt => opt.trim()).filter(opt => opt !==
    '')] for a select, undefined otherwise. *)
Definition optionsArray (st : State) : option (list string) :=
  if String.eqb (newFieldType st) "select" then
    Some (List.filter (fun opt => negb (String.eqb opt ""))
            (List.map trim (split comma (newFieldOptions st))))
  else None.

(** [handleSaveField]: the calls it makes and the state it leaves. *)
Definition handleSaveField (defs : list CustomFieldDefinition) (st : State)
  : list Effect * State :=
  let cleanedLabel := trim (newFieldLabel st) in
  if String.eqb cleanedLabel "" then ([], st)
  else
    let normalizedLabel := normalizeFieldLabel cleanedLabel in
    let nextKey := buildFieldKey cleanedLabel in
    if hasDuplicateLabel defs st normalizedLabel
       || hasDuplicateKey defs st nextKey
    then ([Toast "Já existe um campo com esse nome." "warning"], st)
    else
      match editingId st with
      | Some i =>
          if String.eqb i "" then
            ([AddCustomField
                {| new_key := nextKey; new_label := cleanedLabel;
                   new_type := newFieldType st;
                   new_options := optionsArray st |};
              Toast "Campo personalizado criado com sucesso!" "success"],
             {| newFieldLabel := ""; newFieldType := newFieldType st;
                newFieldOptions := ""; editingId := editingId st;
                newTagName := newTagName st |})
          else
            ([UpdateCustomField i
                {| upd_label := cleanedLabel; upd_type := newFieldType st;
                   upd_options := optionsArray st |};
              Toast "Campo personalizado atualizado com sucesso!" "success"],
             cancelEditingField st)
      | None =>
          ([AddCustomField
              {| new_key := nextKey; new_label := cleanedLabel;
                 new_type := newFieldType st;
                 new_options := optionsArray st |};
            Toast "Campo personalizado criado com sucesso!" "success"],
           {| newFieldLabel := ""; newFieldType := newFieldType st;
              newFieldOptions := ""; editingId := editingId st;
              newTagName := newTagName st |})
      end.

Definition handleRemoveField (i : string) : list Effect :=
  [RemoveCustomField i; Toast "Campo personalizado removido." "info"].

(** [handleAddTag]: the toast quotes the name as it was typed. *)
Definition handleAddTag (st : State) : list Effect * State :=
  if String.eqb (trim (newTagName st)) "" then ([], st)
  else
    ([AddTag (trim (newTagName st));
      Toast ("Tag " ++ quote ++ newTagName st ++ quote ++ " adicionada!")
        "success"],
     {| newFieldLabel := newFieldLabel st; newFieldType := newFieldType st;
        newFieldOptions := newFieldOptions st; editingId := editingId st;
        newTagName := "" |}).

Definition handleRemoveTag (tag : string) : list Effect :=
  [RemoveTag tag;
   Toast ("Tag " ++ quote ++ tag ++ quote ++ " removida.") "info"].

End Controller.

(** A definition as [addCustomField] stores it under the id [i]. *)
Definition stored (i : string) (f : NewField) : CustomFieldDefinition :=
  {| id := i; key := new_key f; label := new_label f; type := new_type f;
     options := new_options f |}.

(** String primitives to run the controller on plain lower-case labels
    without spaces, on which the engine's primitives do nothing. *)
Definition plain (s : string) : string := s.

End Settings.

(** * Properties *)

(** ** Cached lists and the splice of a created record *)

Section Splice.
Import Query.

Context {A : Type} (key : A -> string).

Lemma count_without_same tmp l :
  count_key key tmp
    (List.filter (fun x => negb (String.eqb (key x) tmp)) l) = 0%nat.
Proof.
  unfold count_key. induction l as [|x l IH]; simpl; [done|].
  destruct (String.eqb (key x) tmp) eqn:E; simpl; [done|].
  by rewrite E.
Qed.

Lemma count_without_other tmp i l :
  i <> tmp ->
  count_key key i (List.filter (fun x => negb (String.eqb (key x) tmp)) l)
  = count_key key i l.
Proof.
  intros Hne. unfold count_key.
  induction l as [|x l IH]; simpl; [done|].
  destruct (String.eqb (key x) tmp) eqn:E; simpl.
  - apply String.eqb_eq in E.
    destruct (String.eqb (key x) i) eqn:E'; simpl; [|done].
    apply String.eqb_eq in E'. congruence.
  - destruct (String.eqb (key x) i); simpl; by rewrite IH.
Qed.

Lemma existsb_count i l :
  existsb (fun x => String.eqb (key x) i) l
  = negb (count_key key i l =? 0)%nat.
Proof.
  unfold count_key. induction l as [|x l IH]; simpl; [done|].
  destruct (String.eqb (key x) i); simpl; done.
Qed.

(** The three lines shared by [useCreateBoard.onSuccess] and [addDeal]:
    the temporary id is gone, and the created record is added only when no
    record carries its id yet. *)
Lemma splice_counts tmp (data : A) old :
  key data <> tmp ->
  let withoutTemp :=
    List.filter (fun x => negb (String.eqb (key x) tmp)) old in
  let already := existsb (fun x => String.eqb (key x) (key data)) withoutTemp in
  let new := if already then withoutTemp else data :: withoutTemp in
  count_key key tmp new = 0%nat
  /\ count_key key (key data) new = Nat.max 1 (count_key key (key data) old)
  /\ (count_key key (key data) old <> 0%nat -> new = withoutTemp).
Proof.
  intros Hne withoutTemp already new. subst new already.
  rewrite existsb_count. subst withoutTemp.
  pose proof (count_without_same tmp old) as H0.
  pose proof (count_without_other tmp (key data) old Hne) as H1.
  destruct (count_key key (key data) _ =? 0)%nat eqn:E; simpl.
  - apply Nat.eqb_eq in E. split; [|split].
    + unfold count_key in *. simpl.
      destruct (String.eqb (key data) tmp) eqn:E'.
      * apply String.eqb_eq in E'. done.
      * exact H0.
    + unfold count_key in *. simpl. rewrite String.eqb_refl. simpl. lia.
    + lia.
  - apply Nat.eqb_neq in E. split; [exact H0|split; [lia|done]].
Qed.

End Splice.

Section BoardsFacts.
Import Query Boards.

Lemma make_tempId_nonempty v r : make_tempId v r <> ""%string.
Proof.
  unfold make_tempId, generated_tempId.
  destruct (clientTempId v) as [s|]; [|done].
  destruct (String.eqb s "") eqn:E; [done|].
  by apply String.eqb_neq in E.
Qed.

(** C1: for every cached boards list, [onMutate] of [useCreateBoard] takes
    that list as its snapshot and prepends the temporary board; when the
    remote write then fails, [onError] puts exactly the snapshot back,
    whatever happened to the cache while the write was in flight. *)
Theorem create_failure_restores_snapshot
  (r : Readings) (v : CreateVars) (inflight : QueryClient -> QueryClient)
  (cached : list Board) (calls : list InvalidateCall) :
  let qc := {| boardsLists := Some cached; invalidations := calls |} in
  let ctx := fst (create_onMutate r v qc) in
  let qc1 := snd (create_onMutate r v qc) in
  previousBoards ctx = Some cached
  /\ boardsLists qc1 = Some (make_tempBoard v r :: cached)
  /\ boardsLists (create_onError (Some ctx) (inflight qc1)) = Some cached
  /\ boardsLists (useCreateBoard r v inflight Rejected qc) = Some cached.
Proof. done. Qed.

(** When nothing is cached yet the snapshot is undefined, and [onError]
    leaves the cache as the write in flight left it. *)
Lemma create_failure_without_cache r v calls :
  let qc := {| boardsLists := None; invalidations := calls |} in
  boardsLists (useCreateBoard r v (fun q => q) Rejected qc)
  = Some [make_tempBoard v r].
Proof. done. Qed.

(** C8: every run of the create, update and delete mutations of a board
    ends, after the remote write has settled either way, with an
    invalidation of the boards queries (followed, for a delete, by one of
    the deals queries). *)
Theorem board_mutations_invalidate_on_settle
  (inflight : QueryClient -> QueryClient) (qc : QueryClient) :
  let inv k := {| queryKey := k; refetchType := refetch_active |} in
  (forall r v (result : Outcome Board),
     exists before,
       invalidations (useCreateBoard r v inflight result qc)
       = before ++ [inv boards_all])
  /\ (forall bid u (result : Outcome unit),
        exists before,
          invalidations (useUpdateBoard bid u inflight result qc)
          = before ++ [inv boards_all])
  /\ (forall bid (result : Outcome unit),
        exists before,
          invalidations (useDeleteBoard bid inflight result qc)
          = before ++ [inv boards_all; inv deals_all]).
Proof.
  intros inv. repeat split.
  - intros r v result. unfold useCreateBoard.
    destruct (create_onMutate r v qc) as [ctx qc1].
    unfold create_onSettled, invalidateQueries. simpl. by eexists.
  - intros bid u result. unfold useUpdateBoard.
    destruct (update_onMutate bid u qc) as [ctx qc1].
    unfold update_onSettled, invalidateQueries. simpl. by eexists.
  - intros bid result. unfold useDeleteBoard.
    destruct (delete_onMutate bid qc) as [ctx qc1].
    unfold delete_onSettled, invalidateQueries. simpl.
    eexists. by rewrite <- app_assoc.
Qed.

End BoardsFacts.

Section ReconcileFacts.
Import Query.

(** C5 (as amended): when the remote create has succeeded with a server id
    that differs from the temporary id, and at most one record of the cached
    list already carries the server id, the reconciliation leaves the cache
    with no record carrying the temporary id and exactly one carrying the
    server id; a record that a realtime refetch already delivered is kept
    and the created one is not inserted next to it.  This holds for
    [useCreateBoard.onSuccess], on whatever the cache holds when the write
    succeeds, and for the reconciliation of [addDeal]. *)
Theorem created_record_reconciled :
  (forall r v qc0 (data : Boards.Board) (qc : Boards.QueryClient),
     let ctx := fst (Boards.create_onMutate r v qc0) in
     let old := default [] (Boards.boardsLists qc) in
     Boards.id data <> Boards.tempId ctx ->
     (Boards.count_id (Boards.id data) old <= 1)%nat ->
     exists new,
       Boards.boardsLists (Boards.create_onSuccess data (Some ctx) qc)
       = Some new
       /\ Boards.reconciled (Boards.tempId ctx) data new
       /\ (Boards.count_id (Boards.id data) old = 1%nat ->
           new = List.filter
                   (fun b =>
                      negb (String.eqb (Boards.id b) (Boards.tempId ctx)))
                   old))
  /\ (forall now_ms d l (created : Deals.Deal)
        (cache : gmap string (list Deals.DealView)),
        let bid := Deals.optimisticBoardId d in
        let tmp := Deals.optimisticTempId now_ms in
        let old := default [] (cache !! bid) in
        bid <> ""%string ->
        Deals.id created <> tmp ->
        (Deals.count_id (Deals.id created) old <= 1)%nat ->
        exists new,
          Deals.addDeal_reconcile now_ms d l (Some created) cache !! bid
          = Some new
          /\ Deals.reconciled tmp created new
          /\ (Deals.count_id (Deals.id created) old = 1%nat ->
              new = List.filter
                      (fun x => negb (String.eqb (Deals.view_id x) tmp)) old)).
Proof.
  split.
  - intros r v qc0 data qc ctx old Hne Hcount.
    assert (Boards.tempId ctx <> ""%string) as Htmp
      by apply make_tempId_nonempty.
    unfold Boards.create_onSuccess.
    apply String.eqb_neq in Htmp. rewrite Htmp.
    eexists. split; [reflexivity|].
    destruct (splice_counts Boards.id (Boards.tempId ctx) data old Hne)
      as (H0 & H1 & H2).
    unfold Boards.reconciled, Boards.count_id, Boards.splice_created.
    fold old. unfold Boards.count_id in Hcount.
    split; [split; [exact H0|lia]|].
    intros H. apply H2. lia.
  - intros now_ms d l created cache bid tmp old Hbid Hne Hcount.
    unfold Deals.addDeal_reconcile. fold bid tmp.
    apply String.eqb_neq in Hbid. rewrite Hbid.
    unfold Deals.setDealsList. rewrite lookup_insert_eq.
    eexists. split; [reflexivity|].
    destruct (splice_counts Deals.view_id tmp (Deals.with_labels created l) old)
      as (H0 & H1 & H2); [exact Hne|].
    change (Deals.view_id (Deals.with_labels created l))
      with (Deals.id created) in *.
    unfold Deals.reconciled, Deals.count_id, Deals.splice_created.
    change (Deals.view_id (Deals.with_labels created l))
      with (Deals.id created).
    fold old. unfold Deals.count_id in Hcount.
    split; [split; [exact H0|lia]|].
    intros H. apply H2. lia.
Qed.

(** A board created with the client id "temp-1", to which the server gave
    the id "b-1", reconciled into a cache that a refetch has already filled
    with the server record; and a deal created on the board "b-1",
    reconciled into a cache that still holds the optimistic row only. *)
Lemma created_record_reconciled_witness :
  let r := {| Boards.now_ms := "1735689600000";
              Boards.random_digits := "k3x9a2f";
              Boards.now_iso := "2025-01-01T00:00:00.000Z" |} in
  let v := {| Boards.board := {| Boards.in_name := "Sales";
                                 Boards.in_stages := None;
                                 Boards.in_isDefault := None |};
              Boards.order := None;
              Boards.clientTempId := Some "temp-1"%string |} in
  let qc0 := {| Boards.boardsLists := Some []; Boards.invalidations := [] |} in
  let data := {| Boards.id := "b-1"; Boards.name := "Sales";
                 Boards.stages := []; Boards.isDefault := false;
                 Boards.createdAt := "2025-01-01T00:00:01.000Z" |} in
  let qc := {| Boards.boardsLists := Some [data; Boards.make_tempBoard v r];
               Boards.invalidations := [] |} in
  let labels := {| Deals.optimisticContactName := "Sem contato";
                   Deals.optimisticContactEmail := "";
                   Deals.optimisticStageLabel := "Novo";
                   Deals.optimisticCompanyName := "Sem empresa" |} in
  let deal := {| Deals.id := ""; Deals.title := "Website";
                 Deals.boardId := Some "b-1"%string;
                 Deals.status := Some "s-1"%string;
                 Deals.contactId := None; Deals.companyId := None;
                 Deals.createdAt := ""; Deals.updatedAt := "" |} in
  let created := {| Deals.id := "deal-1"; Deals.title := "Website";
                    Deals.boardId := Some "b-1"%string;
                    Deals.status := Some "s-1"%string;
                    Deals.contactId := None; Deals.companyId := None;
                    Deals.createdAt := "2025-01-01T00:00:02.000Z";
                    Deals.updatedAt := "2025-01-01T00:00:02.000Z" |} in
  let cache :=
    Deals.addDeal_insert "1735689600000" "2025-01-01T00:00:00.000Z"
      deal labels ∅ in
  (exists new,
     Boards.boardsLists
       (Boards.create_onSuccess data
          (Some (fst (Boards.create_onMutate r v qc0))) qc) = Some new
     /\ Boards.reconciled "temp-1" data new
     /\ (Boards.count_id "b-1" [data; Boards.make_tempBoard v r] = 1%nat ->
         new = [data]))
  /\ (exists new,
        Deals.addDeal_reconcile "1735689600000" deal labels (Some created)
          cache !! "b-1"%string = Some new
        /\ Deals.reconciled "temp-1735689600000" created new).
Proof.
  intros r v qc0 data qc labels deal created cache. split.
  - apply (proj1 created_record_reconciled r v qc0 data qc).
    + vm_compute. discriminate.
    + vm_compute. lia.
  - destruct (proj2 created_record_reconciled "1735689600000"%string
                deal labels created cache) as (new & Hnew & Hrec & _).
    + vm_compute. discriminate.
    + vm_compute. discriminate.
    + vm_compute. lia.
    + exists new. split; [exact Hnew|exact Hrec].
Defined.

(** C5 fails as it is stated, for every cached list: a list that already
    holds two records with the server id keeps both, and a server id equal
    to the temporary id leaves a record carrying the temporary id. *)
Lemma created_record_not_always_reconciled :
  let data := {| Boards.id := "b-1"; Boards.name := "Sales";
                 Boards.stages := []; Boards.isDefault := false;
                 Boards.createdAt := "2025-01-01T00:00:01.000Z" |} in
  let ctx := {| Boards.previousBoards := Some [];
                Boards.tempId := "temp-1" |} in
  let qc := {| Boards.boardsLists := Some [data; data];
               Boards.invalidations := [] |} in
  let same := {| Boards.previousBoards := Some [];
                 Boards.tempId := "b-1" |} in
  (Boards.boardsLists (Boards.create_onSuccess data (Some ctx) qc)
   = Some [data; data]
   /\ ~ Boards.reconciled "temp-1" data [data; data])
  /\ (Boards.boardsLists (Boards.create_onSuccess data (Some same) qc)
      = Some [data]
      /\ ~ Boards.reconciled "b-1" data [data]).
Proof.
  intros data ctx qc same.
  split; (split; [reflexivity|]); intros [H0 H1]; vm_compute in *; discriminate.
Qed.

End ReconcileFacts.

(** ** The realtime subscription *)

Section RealtimeFacts.
Import Query Realtime.

Lemma set_add_idem `{EqDecision A} (k : A) s :
  Js.set_add k (Js.set_add k s) = Js.set_add k s.
Proof.
  unfold Js.set_add at 2. unfold Js.set_has.
  case_bool_decide as Hin.
  - unfold Js.set_add, Js.set_has. by rewrite bool_decide_eq_true_2.
  - unfold Js.set_add, Js.set_has.
    rewrite (bool_decide_eq_false_2 _ Hin).
    rewrite bool_decide_eq_true_2; [done|].
    apply elem_of_app. right. constructor.
Qed.

(** The quiescent refs between two tasks: no flush scheduled, nothing
    waiting on the invalidate-only side. *)
Lemma receive_unscheduled batch r :
  flushScheduled (receive batch r) = false ->
  flushScheduled r = false
  /\ pendingInvalidateOnly (receive batch r) = pendingInvalidateOnly r
  /\ pendingBoardStagesInsertCount (receive batch r)
     = pendingBoardStagesInsertCount r.
Proof.
  revert r. induction batch as [|p batch IH]; intros r H; [done|].
  simpl in *. destruct (IH _ H) as (Hf & Ho & Hc).
  rewrite Ho, Hc. unfold on_change in *. simpl in *.
  destruct (bool_decide (eventType p = INSERT)); simpl in *; done.
Qed.

Lemma step_quiescent r s :
  flushScheduled r = false ->
  pendingInvalidateOnly r = [] ->
  pendingBoardStagesInsertCount r = 0%nat ->
  flushScheduled (step r s) = false
  /\ pendingInvalidateOnly (step r s) = []
  /\ pendingBoardStagesInsertCount (step r s) = 0%nat.
Proof.
  intros Hf Ho Hc. destruct s as [batch|]; simpl.
  - unfold run_task.
    destruct (flushScheduled (receive batch r)) eqn:E; [done|].
    simpl. destruct (receive_unscheduled _ _ E) as (_ & -> & ->). done.
  - destruct (debounceArmed r); done.
Qed.

Lemma run_quiescent steps :
  flushScheduled (run steps) = false
  /\ pendingInvalidateOnly (run steps) = []
  /\ pendingBoardStagesInsertCount (run steps) = 0%nat.
Proof.
  unfold run.
  assert (forall r,
    flushScheduled r = false ->
    pendingInvalidateOnly r = [] ->
    pendingBoardStagesInsertCount r = 0%nat ->
    flushScheduled (fold_left step steps r) = false
    /\ pendingInvalidateOnly (fold_left step steps r) = []
    /\ pendingBoardStagesInsertCount (fold_left step steps r) = 0%nat) as H.
  { induction steps as [|s steps IH]; intros r Hf Ho Hc; [done|].
    simpl. destruct (step_quiescent r s Hf Ho Hc) as (? & ? & ?).
    by apply IH. }
  by apply H.
Qed.

(** What [n] INSERT events on [board_stages] do to the refs. *)
Lemma receive_stage_inserts n r :
  receive (repeat {| table := board_stages; eventType := INSERT |} (S n)) r
  = {| pendingInvalidations := pendingInvalidations r;
       pendingInvalidateOnly := Js.set_add boards_all (pendingInvalidateOnly r);
       pendingBoardStagesInsertCount :=
         (S n + pendingBoardStagesInsertCount r)%nat;
       flushScheduled := true;
       debounceArmed := debounceArmed r |}.
Proof.
  revert r. induction n as [|n IH]; intros r; [done|].
  set (ev := {| table := board_stages; eventType := INSERT |}) in *.
  change (receive (repeat ev (S (S n))) r)
    with (receive (repeat ev (S n)) (on_change ev r)).
  rewrite IH. unfold on_change, ev; simpl. f_equal.
  - apply set_add_idem.
  - lia.
Qed.

(** C6 (as amended): after any history of the subscription, a batch of INSERT
    events on [board_stages] delivered before one microtask flush is counted
    event by event, and the flush invalidates the boards queries once on
    their behalf: with a refetch when the count is at most one, without one
    when the count is greater than one.  The keys queued by other events
    are flushed before it, each with a refetch; so in a burst the boards
    queries go without a refetch exactly when their key was not already
    queued by an earlier UPDATE or DELETE. *)
Theorem stage_insert_burst_flush (steps : list Step) (n : nat) :
  let r := run steps in
  let batch := repeat {| table := board_stages; eventType := INSERT |} (S n) in
  let counted := pendingBoardStagesInsertCount (receive batch r) in
  let calls := fst (run_task batch r) in
  let last :=
    {| queryKey := boards_all;
       refetchType :=
         if (counted <=? 1)%nat then refetch_all else refetch_none |} in
  counted = S n
  /\ calls
     = List.map (fun k => {| queryKey := k; refetchType := refetch_all |})
         (pendingInvalidations r) ++ [last]
  /\ ((counted <= 1)%nat -> refetches last = true)
  /\ ((1 < counted)%nat -> refetches last = false)
  /\ ((1 < counted)%nat -> boards_all ∉ pendingInvalidations r ->
      forall c, c ∈ calls -> queryKey c = boards_all -> refetches c = false)
  /\ (boards_all ∈ pendingInvalidations r ->
      exists c, c ∈ calls /\ queryKey c = boards_all /\ refetches c = true)
  /\ snd (run_task batch r)
     = {| pendingInvalidations := [];
          pendingInvalidateOnly := [];
          pendingBoardStagesInsertCount := 0;
          flushScheduled := false;
          debounceArmed := debounceArmed r |}.
Proof.
  intros r batch counted calls last.
  destruct (run_quiescent steps) as (Hf & Ho & Hc). fold r in Hf, Ho, Hc.
  assert (receive batch r
          = {| pendingInvalidations := pendingInvalidations r;
               pendingInvalidateOnly := [boards_all];
               pendingBoardStagesInsertCount := S n;
               flushScheduled := true;
               debounceArmed := debounceArmed r |}) as Hrecv.
  { unfold batch. rewrite receive_stage_inserts, Ho, Hc. f_equal. lia. }
  assert (counted = S n) as Hcounted by (unfold counted; by rewrite Hrecv).
  assert (calls
          = List.map (fun k => {| queryKey := k; refetchType := refetch_all |})
              (pendingInvalidations r) ++ [last]) as Hcalls.
  { unfold calls, run_task, last. rewrite Hcounted. fold batch.
    by rewrite Hrecv. }
  split; [exact Hcounted|]. split; [exact Hcalls|].
  assert ((1 < counted)%nat -> refetches last = false) as Hburst.
  { intros Hlt. unfold last, refetches. simpl.
    destruct (Nat.leb_spec counted 1); [lia|done]. }
  split; [|split; [exact Hburst|split; [|split]]].
  - intros Hle. unfold last, refetches. simpl.
    destruct (Nat.leb_spec counted 1); [done|lia].
  - intros Hlt Hnot c Hc' Hk. rewrite Hcalls in Hc'.
    apply elem_of_app in Hc' as [Hc'|Hc'].
    + apply list_elem_of_In, in_map_iff in Hc' as (k & <- & Hin).
      simpl in Hk. subst k. by apply list_elem_of_In in Hin.
    + apply list_elem_of_singleton in Hc'. subst c. by apply Hburst.
  - intros Hin.
    exists {| queryKey := boards_all; refetchType := refetch_all |}.
    split; [|by split]. rewrite Hcalls. apply elem_of_app. left.
    apply list_elem_of_In, in_map_iff. exists boards_all.
    split; [done|]. by apply list_elem_of_In.
  - unfold run_task. fold batch. by rewrite Hrecv.
Qed.

(** C6 fails as it is stated, for every batch: when an UPDATE on
    [board_stages] is waiting for the debounce timer, a burst of three
    INSERT events is counted as three, and yet the flush invalidates the
    boards queries with a refetch, and then once more without. *)
Lemma stage_insert_burst_after_update_refetches :
  let r := run [Task [{| table := board_stages; eventType := UPDATE |}]] in
  let batch := repeat {| table := board_stages; eventType := INSERT |} 3 in
  pendingInvalidations r = [boards_all]
  /\ pendingBoardStagesInsertCount (receive batch r) = 3%nat
  /\ fst (run_task batch r)
     = [{| queryKey := boards_all; refetchType := refetch_all |};
        {| queryKey := boards_all; refetchType := refetch_none |}]
  /\ exists c,
       c ∈ fst (run_task batch r)
       /\ queryKey c = boards_all /\ refetches c = true.
Proof.
  intros r batch. split; [reflexivity|]. split; [reflexivity|].
  split; [reflexivity|].
  exists {| queryKey := boards_all; refetchType := refetch_all |}.
  split; [constructor|by split].
Qed.

End RealtimeFacts.

(** ** Sets in insertion order and slices *)

Section SetFacts.
Context `{EqDecision A}.

Lemma set_add_elem (k x : A) s : x ∈ Js.set_add k s <-> x = k \/ x ∈ s.
Proof.
  unfold Js.set_add, Js.set_has. case_bool_decide as Hin.
  - split; [by right|]. intros [->|]; done.
  - rewrite elem_of_app, list_elem_of_singleton. tauto.
Qed.

Lemma set_add_NoDup (k : A) s : NoDup s -> NoDup (Js.set_add k s).
Proof.
  intros Hs. unfold Js.set_add, Js.set_has. case_bool_decide as Hin; [done|].
  apply NoDup_app. split; [done|]. split.
  - intros x Hx Hk. apply list_elem_of_singleton in Hk. by subst.
  - apply NoDup_singleton.
Qed.

Lemma set_add_all_NoDup (ks s : list A) :
  NoDup s -> NoDup (Js.set_add_all ks s).
Proof.
  revert s. induction ks as [|k ks IH]; intros s Hs; [done|].
  simpl. apply IH. by apply set_add_NoDup.
Qed.

Lemma set_add_all_fresh (ks s : list A) :
  NoDup (s ++ ks) -> Js.set_add_all ks s = s ++ ks.
Proof.
  revert s. induction ks as [|k ks IH]; intros s Hs; simpl.
  - by rewrite app_nil_r.
  - assert (k ∉ s) as Hk.
    { apply NoDup_app in Hs as (_ & Hs & _). intros Hin.
      apply (Hs k Hin). constructor. }
    unfold Js.set_add, Js.set_has. rewrite (bool_decide_eq_false_2 _ Hk).
    rewrite IH; rewrite <- app_assoc; done.
Qed.

Lemma set_of_array_NoDup (arr : list A) : NoDup (Js.set_of_array arr).
Proof. apply set_add_all_NoDup, NoDup_nil_2. Qed.

Lemma set_of_array_id (arr : list A) : NoDup arr -> Js.set_of_array arr = arr.
Proof. intros H. unfold Js.set_of_array. by rewrite set_add_all_fresh. Qed.

Lemma slice_last_length (n : nat) (l : list A) :
  (length (Js.slice_last n l) <= n)%nat.
Proof. unfold Js.slice_last. rewrite length_drop. lia. Qed.

Lemma slice_last_NoDup (n : nat) (l : list A) :
  NoDup l -> NoDup (Js.slice_last n l).
Proof.
  unfold Js.slice_last. intros H.
  rewrite <- (take_drop (length l - n) l) in H.
  by apply NoDup_app in H as (_ & _ & H).
Qed.

Lemma slice_last_all (n : nat) (l : list A) :
  (length l <= n)%nat -> Js.slice_last n l = l.
Proof.
  intros H. unfold Js.slice_last.
  by replace (length l - n)%nat with 0%nat by lia.
Qed.

Lemma slice_last_snoc (n : nat) (l : list A) (x : A) :
  Js.slice_last (S n) (l ++ [x]) = Js.slice_last n l ++ [x].
Proof.
  unfold Js.slice_last. rewrite length_app. simpl.
  replace (length l + 1 - S n)%nat with (length l - n)%nat by lia.
  rewrite drop_app_le; [done|lia].
Qed.

End SetFacts.

(** ** The decision queue *)

Section QueueFacts.
Import DecisionQueue.

Lemma getProcessedDecisions_NoDup st : NoDup (getProcessedDecisions st).
Proof.
  unfold getProcessedDecisions. destruct (processed_item st).
  - apply set_of_array_NoDup.
  - apply NoDup_nil_2.
Qed.

(** What [addProcessedDecision] stores is what is read back. *)
Lemma getProcessedDecisions_add key st :
  getProcessedDecisions (addProcessedDecision key st)
  = Js.slice_last 500 (Js.set_add key (getProcessedDecisions st)).
Proof.
  unfold addProcessedDecision, getProcessedDecisions at 1. simpl.
  apply set_of_array_id, slice_last_NoDup, set_add_NoDup,
    getProcessedDecisions_NoDup.
Qed.

Lemma processed_key_recorded key st :
  (length (getProcessedDecisions st) <= 500)%nat ->
  key ∈ getProcessedDecisions (addProcessedDecision key st).
Proof.
  intros Hlen. rewrite getProcessedDecisions_add.
  unfold Js.set_add, Js.set_has. case_bool_decide as Hin.
  - by rewrite slice_last_all.
  - rewrite (slice_last_snoc 499). apply elem_of_app. right. constructor.
Qed.

Lemma addDecision_fresh d st :
  Js.set_has (dedupeKey d) (getProcessedDecisions st) = false ->
  List.find (similar_pending d) (getQueue st) = None ->
  getQueue (addDecision d st) = getQueue st ++ [d].
Proof.
  intros Hkey Hfind. unfold addDecision, getQueue in *.
  by rewrite Hkey, Hfind.
Qed.

(** C10: whatever the storage holds, the array [addProcessedDecision]
    persists has at most 500 entries: the last 500 of the processed set with
    the key added.  When the set is full and the key is new, the oldest
    entry is evicted: it is no longer a member, and a decision with that
    dedupe key is inserted again by [addDecision] (unless a similar pending
    decision is queued). *)
Theorem processed_keys_bounded (key : string) (st : Storage) :
  let st' := addProcessedDecision key st in
  (exists arr,
     processed_item st' = Some arr
     /\ (length arr <= 500)%nat
     /\ arr = Js.slice_last 500 (Js.set_add key (getProcessedDecisions st))
     /\ getProcessedDecisions st' = arr)
  /\ (forall oldest rest,
        getProcessedDecisions st = oldest :: rest ->
        (499 <= length rest)%nat ->
        key ∉ (oldest :: rest) ->
        (oldest ∉ getProcessedDecisions st')
        /\ (key ∈ getProcessedDecisions st')
        /\ forall d,
             dedupeKey d = oldest ->
             List.find (similar_pending d) (getQueue st') = None ->
             getQueue (addDecision d st') = getQueue st' ++ [d]).
Proof.
  intros st'. split.
  - eexists. split; [reflexivity|]. split; [apply slice_last_length|].
    split; [reflexivity|]. apply getProcessedDecisions_add.
  - intros oldest rest Hold Hfull Hnew.
    pose proof (getProcessedDecisions_NoDup st) as Hnd. rewrite Hold in Hnd.
    assert (getProcessedDecisions st'
            = drop (length rest - 499) rest ++ [key]) as Hst'.
    { unfold st'. rewrite getProcessedDecisions_add, Hold.
      unfold Js.set_add, Js.set_has. rewrite (bool_decide_eq_false_2 _ Hnew).
      rewrite (slice_last_snoc 499). f_equal.
      unfold Js.slice_last. simpl length.
      replace (S (length rest) - 499)%nat with (S (length rest - 499)) by lia.
      done. }
    assert (oldest ∉ getProcessedDecisions st') as Hgone.
    { rewrite Hst'. intros Hin. apply elem_of_app in Hin as [Hin|Hin].
      - apply NoDup_cons in Hnd as [Hnot _]. apply Hnot.
        rewrite <- (take_drop (length rest - 499) rest).
        apply elem_of_app. by right.
      - apply list_elem_of_singleton in Hin. subst oldest.
        apply Hnew. constructor. }
    split; [exact Hgone|]. split.
    + rewrite Hst'. apply elem_of_app. right. constructor.
    + intros d Hd Hfind. apply addDecision_fresh; [|done].
      unfold Js.set_has. rewrite Hd. by apply bool_decide_eq_false_2.
Qed.

Lemma find_update_first {A} (p : A -> bool) (f : A -> A) l d :
  List.find p l = Some d ->
  p (f d) = true ->
  List.find p (update_first p f l) = Some (f d).
Proof.
  intros Hfind Hp. induction l as [|x l IH]; [done|].
  simpl in *. destruct (p x) eqn:E.
  - injection Hfind as ->. simpl. by rewrite Hp.
  - simpl. rewrite E. by apply IH.
Qed.

(** C9: when [approveDecision] is called with an id that is not in the
    queue, or with the id of a decision that is not pending, it returns a
    failure with an error message, calls no action and leaves the storage
    as it was. *)
Theorem approve_refuses_unknown_or_settled
  (exec : string -> gmap string PayloadValue -> ActionResult)
  (i : string) (modifiedPayload : option (gmap string PayloadValue))
  (now_iso : string) (st : Storage) :
  getDecisionById i st = None
  \/ (exists d, getDecisionById i st = Some d /\ status d <> pending) ->
  let a := approveDecision_via exec i modifiedPayload now_iso st in
  success (returned a) = false
  /\ is_Some (error (returned a))
  /\ executed a = []
  /\ storage a = st
  /\ (getDecisionById i st = None ->
      error (returned a) = Some "Decisão não encontrada"%string)
  /\ (is_Some (getDecisionById i st) ->
      error (returned a) = Some "Decisão já foi processada"%string).
Proof.
  intros H a. unfold a, approveDecision_via.
  destruct H as [H|(d & H & Hst)]; rewrite H; simpl.
  - repeat split; done.
  - rewrite (bool_decide_eq_false_2 _ Hst). simpl. repeat split; done.
Qed.

(** A queue with one approved decision: approving it again, or approving an
    id that is not there, is refused. *)
Lemma approve_refuses_unknown_or_settled_witness :
  let d := {| id := "d-1"; type := "stagnant_deal"; category := risk;
              priority := high; status := approved;
              dealId := Some "deal-1"%string; contactId := None;
              activityId := None;
              createdAt := "2025-01-01T00:00:00.000Z"; expiresAt := None;
              snoozeUntil := None;
              decidedAt := Some "2025-01-02T00:00:00.000Z"%string;
              suggestedAction := {| action_type := "create_activity";
                                    payload := ∅ |} |} in
  let st := {| queue_item := Some {| decisions := [d]; analyzerResults := [];
                                     lastAnalyzedAt := None |};
               processed_item := None |} in
  let now_iso := "2025-01-03T00:00:00.000Z"%string in
  (storage (approveDecision "d-1" None now_iso st) = st
   /\ executed (approveDecision "d-1" None now_iso st) = [])
  /\ (storage (approveDecision "d-2" None now_iso st) = st
      /\ success (returned (approveDecision "d-2" None now_iso st)) = false).
Proof.
  intros d st now_iso. split.
  - assert (getDecisionById "d-1" st = None
            \/ (exists d, getDecisionById "d-1" st = Some d
                          /\ status d <> pending)) as H.
    { right. exists d. split; [reflexivity|discriminate]. }
    pose proof (approve_refuses_unknown_or_settled
                  executeAction "d-1" None now_iso st H)
      as (_ & _ & He & Hs & _).
    split; [exact Hs|exact He].
  - assert (getDecisionById "d-2" st = None
            \/ (exists d, getDecisionById "d-2" st = Some d
                          /\ status d <> pending)) as H.
    { left. reflexivity. }
    pose proof (approve_refuses_unknown_or_settled
                  executeAction "d-2" None now_iso st H)
      as (Hf & _ & _ & Hs & _).
    split; [exact Hs|exact Hf].
Defined.

End QueueFacts.

Section ApproveFacts.
Import DecisionQueue.

Lemma merge_payload_lookup (p : gmap string PayloadValue) modifiedPayload k :
  merge_payload p modifiedPayload !! k
  = match modifiedPayload with
    | Some m => match m !! k with
                | Some v => Some v
                | None => p !! k
                end
    | None => p !! k
    end.
Proof.
  destruct modifiedPayload as [m|]; [|done]. simpl.
  rewrite lookup_union. destruct (m !! k), (p !! k); done.
Qed.

(** The dedupe key spelled out: the type, a colon, and the id of the primary
    related entity; when the decision names no entity, what the template
    literal makes of the activity id, the last operand of the [||] chain. *)
Lemma dedupeKey_spelled_out d :
  dedupeKey d
  = (type d ++ ":"
     ++ match primary_entity_id d with
        | Some e => e
        | None => match activityId d with
                  | Some _ => ""
                  | None => "undefined"
                  end
        end)%string.
Proof.
  unfold dedupeKey, primary_entity_id, names_entity, Js.or_else, Js.truthy.
  destruct (dealId d) as [[|c1 e1]|], (contactId d) as [[|c2 e2]|],
    (activityId d) as [[|c3 e3]|]; reflexivity.
Qed.

(** Approval on a storage whose processed set is within its bound. *)
Lemma approve_on_bounded_storage
  (exec : string -> gmap string PayloadValue -> ActionResult)
  (i : string) (modifiedPayload : option (gmap string PayloadValue))
  (now_iso : string) (st : Storage) (d : Decision) :
  getDecisionById i st = Some d ->
  status d = pending ->
  (length (getProcessedDecisions st) <= 500)%nat ->
  let merged := merge_payload (payload (suggestedAction d)) modifiedPayload in
  let a := approveDecision_via exec i modifiedPayload now_iso st in
  executed a = [(action_type (suggestedAction d), merged)]
  /\ returned a = exec (action_type (suggestedAction d)) merged
  /\ (success (returned a) = true ->
      exists d',
        getDecisionById i (storage a) = Some d'
        /\ d' = set_status approved now_iso d
        /\ status d' = approved
        /\ decidedAt d' = Some now_iso
        /\ dedupeKey d' = dedupeKey d
        /\ dedupeKey d ∈ getProcessedDecisions (storage a))
  /\ (success (returned a) = false -> storage a = st).
Proof.
  intros Hget Hpending Hlen merged a.
  unfold a, approveDecision_via.
  rewrite Hget, (bool_decide_eq_true_2 _ Hpending). simpl. fold merged.
  split; [done|]. split; [done|]. split.
  - intros Hok. rewrite Hok. exists (set_status approved now_iso d).
    unfold updateDecisionStatus. unfold getDecisionById in Hget. rewrite Hget.
    simpl.
    split; [|repeat split].
    + unfold getDecisionById. simpl. apply find_update_first; [done|].
      apply find_some in Hget. apply Hget.
    + change (dedupeKey (set_status approved now_iso d)) with (dedupeKey d).
      by apply processed_key_recorded.
  - intros Hko. by rewrite Hko.
Qed.

(** The processed item is missing, or holds at most 500 distinct keys. *)
Lemma processed_item_bounded_add key st :
  exists arr,
    processed_item (addProcessedDecision key st) = Some arr
    /\ NoDup arr /\ (length arr <= 500)%nat.
Proof.
  eexists. split; [reflexivity|]. split.
  - apply slice_last_NoDup, set_add_NoDup, getProcessedDecisions_NoDup.
  - apply slice_last_length.
Qed.

Lemma updateDecisionStatus_processed i s now_iso st :
  processed_item (updateDecisionStatus i s now_iso st) = processed_item st
  \/ exists key,
       processed_item (updateDecisionStatus i s now_iso st)
       = processed_item (addProcessedDecision key st).
Proof.
  unfold updateDecisionStatus.
  destruct (List.find _ _); [|by left]. simpl.
  destruct (bool_decide (s = approved) || bool_decide (s = rejected));
    [right; by eexists|by left].
Qed.

Lemma perform_processed Date_parse LocalTZA exec st c :
  processed_item (perform Date_parse LocalTZA exec st c) = processed_item st
  \/ exists key,
       processed_item (perform Date_parse LocalTZA exec st c)
       = processed_item (addProcessedDecision key st).
Proof.
  destruct c; simpl.
  - unfold addDecision. destruct (Js.set_has _ _); [by left|].
    destruct (List.find _ _); by left.
  - unfold addDecisions. destruct (fold_left _ _ _) as [queue added]. simpl.
    destruct (0 <? added); by left.
  - unfold approveDecision_via. destruct (getDecisionById i st); [|by left].
    destruct (negb _); [by left|]. simpl.
    destruct (success _); [|by left]. apply updateDecisionStatus_processed.
  - apply updateDecisionStatus_processed.
  - unfold snoozeDecision. destruct (List.find _ _); by left.
  - apply updateDecisionStatus_processed.
  - by left.
  - by left.
  - by left.
  - by left.
Qed.

(** Within the life of the storage the processed set never exceeds 500
    keys. *)
Lemma history_processed_bounded Date_parse LocalTZA exec calls :
  (length (getProcessedDecisions (history Date_parse LocalTZA exec calls))
   <= 500)%nat.
Proof.
  unfold history.
  assert (forall st,
    match processed_item st with
    | Some arr => NoDup arr /\ (length arr <= 500)%nat
    | None => True
    end ->
    match processed_item
            (fold_left (perform Date_parse LocalTZA exec) calls st) with
    | Some arr => NoDup arr /\ (length arr <= 500)%nat
    | None => True
    end) as Hinv.
  { induction calls as [|c calls IH]; intros st Hst; [done|].
    simpl. apply IH.
    destruct (perform_processed Date_parse LocalTZA exec st c)
      as [->|[key ->]]; [done|].
    destruct (processed_item_bounded_add key st) as (arr & -> & ? & ?).
    done. }
  specialize (Hinv initial_storage I). unfold getProcessedDecisions.
  destruct (processed_item _) as [arr|]; simpl; [|lia].
  destruct Hinv as [Hnd Hlen]. by rewrite set_of_array_id.
Qed.

(** C4: at any point in the life of the storage, for a pending decision of
    the queue and any override of its payload (or none), [approveDecision]
    calls the action once, with the suggested action type and the payload
    merged with the override, whose fields win.  When the action reports
    success the stored decision has status approved and [decidedAt] set,
    and its dedupe key is a member of the processed set: the key is the
    type, a colon and the id of the primary related entity (the deal, else
    the contact, else the activity).  When the action reports failure the
    storage is left as it was.  The placeholder [executeAction] always
    reports success. *)
Theorem approve_executes_and_records
  (Date_parse : string -> option Z) (LocalTZA : Z -> bool -> Z)
  (exec : string -> gmap string PayloadValue -> ActionResult)
  (calls : list Call)
  (i : string) (modifiedPayload : option (gmap string PayloadValue))
  (now_iso : string) (d : Decision) :
  let st := history Date_parse LocalTZA exec calls in
  getDecisionById i st = Some d ->
  status d = pending ->
  let merged := merge_payload (payload (suggestedAction d)) modifiedPayload in
  let a := approveDecision_via exec i modifiedPayload now_iso st in
  (forall k,
     merged !! k
     = match modifiedPayload with
       | Some m => match m !! k with
                   | Some v => Some v
                   | None => payload (suggestedAction d) !! k
                   end
       | None => payload (suggestedAction d) !! k
       end)
  /\ executed a = [(action_type (suggestedAction d), merged)]
  /\ returned a = exec (action_type (suggestedAction d)) merged
  /\ (success (returned a) = true ->
      exists d',
        getDecisionById i (storage a) = Some d'
        /\ d' = set_status approved now_iso d
        /\ status d' = approved
        /\ decidedAt d' = Some now_iso
        /\ dedupeKey d' = dedupeKey d
        /\ dedupeKey d ∈ getProcessedDecisions (storage a)
        /\ (forall e,
              primary_entity_id d = Some e ->
              dedupeKey d = (type d ++ ":" ++ e)%string
              /\ (type d ++ ":" ++ e)%string
                 ∈ getProcessedDecisions (storage a))
        /\ (forall e, dealId d = Some e -> e <> ""%string ->
                      primary_entity_id d = Some e))
  /\ (success (returned a) = false -> storage a = st)
  /\ success (executeAction (action_type (suggestedAction d)) merged) = true.
Proof.
  intros st Hget Hpending merged a.
  split; [intros k; apply merge_payload_lookup|].
  pose proof (approve_on_bounded_storage exec i modifiedPayload now_iso st d
                Hget Hpending
                (history_processed_bounded Date_parse LocalTZA exec calls))
    as (He & Hr & Hs & Hf).
  split; [done|]. split; [done|]. split; [|by split].
  intros Hok. destruct (Hs Hok) as (d' & H1 & H2 & H3 & H4 & H5 & H6).
  exists d'.
  split; [done|]. split; [done|]. split; [done|]. split; [done|].
  split; [done|]. split; [done|]. split.
  - intros e He'. rewrite dedupeKey_spelled_out in H6 |- *.
    rewrite He' in H6 |- *. by split.
  - intros e He' Hne. unfold primary_entity_id. rewrite He'.
    by destruct e.
Qed.

(** A pending follow-up with a suggested activity is added to the empty
    storage and approved with another title for the activity. *)
Lemma approve_executes_and_records_witness :
  let action := {| action_type := "create_activity";
                   payload := {[ "title"%string := PString "Call";
                                 "dealId"%string := PString "deal-1" ]} |} in
  let d := {| id := "d-1"; type := "stagnant_deal"; category := risk;
              priority := high; status := pending;
              dealId := Some "deal-1"%string; contactId := None;
              activityId := None;
              createdAt := "2025-01-01T00:00:00.000Z"; expiresAt := None;
              snoozeUntil := None; decidedAt := None;
              suggestedAction := action |} in
  let st := history Js.iso_parse (fixed_zone 0) executeAction [AddDecision d] in
  let override := Some ({[ "title"%string := PString "Visit" ]}
                        : gmap string PayloadValue) in
  let now_iso := "2025-01-02T00:00:00.000Z"%string in
  let a := approveDecision "d-1" override now_iso st in
  executed a
  = [("create_activity"%string,
      merge_payload (payload action) override)]
  /\ merge_payload (payload action) override !! "title"%string
     = Some (PString "Visit")
  /\ merge_payload (payload action) override !! "dealId"%string
     = Some (PString "deal-1")
  /\ (success (returned a) = true ->
      exists d',
        getDecisionById "d-1" (storage a) = Some d'
        /\ d' = set_status approved now_iso d
        /\ status d' = approved
        /\ decidedAt d' = Some now_iso
        /\ dedupeKey d' = dedupeKey d
        /\ dedupeKey d ∈ getProcessedDecisions (storage a)
        /\ "stagnant_deal:deal-1"%string
           ∈ getProcessedDecisions (storage a)).
Proof.
  intros action d st override now_iso a.
  assert (getDecisionById "d-1" st = Some d) as Hget by reflexivity.
  assert (status d = pending) as Hpending by reflexivity.
  pose proof (approve_executes_and_records Js.iso_parse (fixed_zone 0)
                executeAction [AddDecision d] "d-1" override now_iso d
                Hget Hpending) as (Hm & He & _ & Hs & _).
  split; [exact He|].
  split; [rewrite Hm; reflexivity|].
  split; [rewrite Hm; reflexivity|].
  intros Hok.
  destruct (Hs Hok) as (d' & H1 & H2 & H3 & H4 & H5 & H6 & H7 & _).
  exists d'.
  split; [done|]. split; [done|]. split; [done|]. split; [done|].
  split; [done|]. split; [done|].
  exact (proj2 (H7 "deal-1"%string eq_refl)).
Defined.

End ApproveFacts.

Section DedupeFacts.
Import DecisionQueue.

Lemma strict_eq_refl a : Js.strict_eq a a = true.
Proof. destruct a; simpl; [apply String.eqb_refl|done]. Qed.

Lemma similar_pending_twin d1 d2 :
  type d1 = type d2 -> dealId d1 = dealId d2 -> contactId d1 = contactId d2 ->
  status d1 = pending ->
  similar_pending d2 d1 = true.
Proof.
  intros Ht Hd Hc Hs. unfold similar_pending.
  rewrite Ht, Hd, Hc, String.eqb_refl, !strict_eq_refl.
  by rewrite bool_decide_eq_true_2.
Qed.

Lemma find_after_push {A} (f : A -> bool) l x :
  f x = true -> List.find f (l ++ [x]) <> None.
Proof.
  intros Hx Hnone.
  pose proof (find_none f _ Hnone x) as H.
  rewrite H in Hx; [done|]. apply in_or_app. right. by left.
Qed.

(** C2 (as amended): for two decision records with the same type, the same
    [dealId] and the same [contactId], the first of them pending, adding
    both, by two calls of [addDecision] or by one call of [addDecisions],
    appends at most one of them to the stored queue; it appends exactly the
    first when its dedupe key is not processed and no similar pending
    decision is stored.  [addDecisions] returns the number appended. *)
Theorem twin_decisions_added_once (d1 d2 : Decision) (st : Storage) :
  type d1 = type d2 ->
  dealId d1 = dealId d2 ->
  contactId d1 = contactId d2 ->
  status d1 = pending ->
  let fresh :=
    Js.set_has (dedupeKey d1) (getProcessedDecisions st) = false
    /\ List.find (similar_pending d1) (getQueue st) = None in
  (exists ins,
     getQueue (addDecision d2 (addDecision d1 st)) = getQueue st ++ ins
     /\ (ins = [] \/ ins = [d1] \/ ins = [d2])
     /\ (fresh -> ins = [d1]))
  /\ (exists ins,
        getQueue (snd (addDecisions [d1; d2] st)) = getQueue st ++ ins
        /\ fst (addDecisions [d1; d2] st) = Z.of_nat (length ins)
        /\ (ins = [] \/ ins = [d1] \/ ins = [d2])
        /\ (fresh -> ins = [d1])).
Proof.
  intros Ht Hd Hc Hs fresh.
  pose proof (similar_pending_twin d1 d2 Ht Hd Hc Hs) as Htwin.
  split.
  - unfold addDecision at 2.
    destruct (Js.set_has (dedupeKey d1) _) eqn:K1;
      [|destruct (List.find (similar_pending d1) _) eqn:F1].
    1,2: unfold addDecision;
      destruct (Js.set_has (dedupeKey d2) _);
        [|destruct (List.find (similar_pending d2) _)];
      first [ exists []; rewrite app_nil_r;
              split; [done|split; [by left|intros [? ?]; congruence]]
            | exists [d2];
              split; [done|split; [by (right; right)
                                  |intros [? ?]; unfold getQueue in *;
                                   congruence]] ].
    exists [d1].
    assert (getQueue (addDecision d2
              (saveState
                 (with_decisions (loadState st)
                    (decisions (loadState st) ++ [d1])) st))
            = getQueue st ++ [d1]) as Hq.
    { unfold addDecision, getQueue. simpl.
      destruct (Js.set_has (dedupeKey d2) _); [done|].
      destruct (List.find (similar_pending d2) _) eqn:F2; [done|].
      by apply find_after_push in F2. }
    split; [exact Hq|]. split; [right; by left|done].
  - unfold addDecisions. simpl fold_left. unfold addDecisions_step at 2.
    fold (getQueue st).
    destruct (Js.set_has (dedupeKey d1) _) eqn:K1;
      [|destruct (List.find (similar_pending d1) _) eqn:F1].
    1,2: unfold addDecisions_step;
      destruct (Js.set_has (dedupeKey d2) _);
        [|destruct (List.find (similar_pending d2) _)];
      first [ exists []; rewrite app_nil_r;
              split; [done|split;
                [done|split; [by left|intros [? ?]; congruence]]]
            | exists [d2];
              split; [done|split;
                [done|split; [by (right; right)|intros [? ?]; congruence]]] ].
    exists [d1]. unfold addDecisions_step.
    destruct (Js.set_has (dedupeKey d2) _).
    + repeat split; try done. right; by left.
    + destruct (List.find (similar_pending d2) _) eqn:F2.
      * repeat split; try done. right; by left.
      * by apply find_after_push in F2.
Qed.

(** Two pending suggestions for the same deal and contact, added to an empty
    storage: only the first is stored. *)
Lemma twin_decisions_added_once_witness :
  let d1 := {| id := "d-1"; type := "stagnant_deal"; category := risk;
               priority := high; status := pending;
               dealId := Some "deal-1"%string;
               contactId := Some "c-1"%string;
               activityId := None;
               createdAt := "2025-01-01T00:00:00.000Z"; expiresAt := None;
               snoozeUntil := None; decidedAt := None;
               suggestedAction := {| action_type := "create_activity";
                                     payload := ∅ |} |} in
  let d2 := {| id := "d-2"; type := "stagnant_deal"; category := risk;
               priority := low; status := pending;
               dealId := Some "deal-1"%string;
               contactId := Some "c-1"%string;
               activityId := None;
               createdAt := "2025-01-02T00:00:00.000Z"; expiresAt := None;
               snoozeUntil := None; decidedAt := None;
               suggestedAction := {| action_type := "create_activity";
                                     payload := ∅ |} |} in
  let st := {| queue_item := None; processed_item := None |} in
  getQueue (addDecision d2 (addDecision d1 st)) = [d1]
  /\ addDecisions [d1; d2] st
     = (1, {| queue_item := Some {| decisions := [d1]; analyzerResults := [];
                                    lastAnalyzedAt := None |};
              processed_item := None |}).
Proof.
  intros d1 d2 st.
  pose proof (twin_decisions_added_once d1 d2 st
                eq_refl eq_refl eq_refl eq_refl) as [(ins & Hq & _ & Hf) _].
  split; [|reflexivity].
  rewrite Hq. rewrite Hf; [reflexivity|]. split; reflexivity.
Defined.

(** C2 fails as it is stated: two pending decisions of the same type for the
    same deal but for different contacts are both stored; and so are two
    decisions that agree on type, deal and contact when the first is not
    pending. *)
Lemma same_type_and_deal_both_added :
  let mk i c s :=
    {| id := i; type := "stagnant_deal"; category := risk;
       priority := high; status := s;
       dealId := Some "deal-1"%string; contactId := Some c;
       activityId := None; createdAt := "2025-01-01T00:00:00.000Z"; expiresAt := None;
       snoozeUntil := None; decidedAt := None;
       suggestedAction := {| action_type := "create_activity";
                             payload := ∅ |} |} in
  let st := {| queue_item := None; processed_item := None |} in
  let a1 := mk "d-1"%string "c-1"%string pending in
  let a2 := mk "d-2"%string "c-2"%string pending in
  let b1 := mk "d-3"%string "c-1"%string approved in
  let b2 := mk "d-4"%string "c-1"%string pending in
  (type a1 = type a2 /\ dealId a1 = dealId a2
   /\ getQueue (addDecision a2 (addDecision a1 st)) = [a1; a2]
   /\ fst (addDecisions [a1; a2] st) = 2
   /\ getQueue (snd (addDecisions [a1; a2] st)) = [a1; a2])
  /\ (type b1 = type b2 /\ dealId b1 = dealId b2
      /\ contactId b1 = contactId b2
      /\ getQueue (addDecision b2 (addDecision b1 st)) = [b1; b2]
      /\ getQueue (snd (addDecisions [b1; b2] st)) = [b1; b2]).
Proof. intros mk st a1 a2 b1 b2. repeat split; reflexivity. Qed.

End DedupeFacts.

(** ** Sorting with a comparator *)

Section SortFacts.
Context {A : Type} (cmp : A -> A -> option Z).
Context (R : A -> A -> Prop) (ok : A -> Prop).

(** The comparator decides [R] on the elements that are [ok], and [R] is
    transitive. *)
Hypothesis cmp_le :
  forall x y, ok x -> ok y -> Js.sort_verdict (cmp x y) <= 0 -> R x y.
Hypothesis cmp_gt :
  forall x y, ok x -> ok y -> 0 < Js.sort_verdict (cmp x y) -> R y x.
Hypothesis R_trans : forall x y z, R x y -> R y z -> R x z.

Lemma sort_insert_perm x l : Permutation (Js.sort_insert cmp x l) (x :: l).
Proof.
  induction l as [|y l IH]; simpl; [done|].
  destruct (Js.sort_verdict (cmp x y) <=? 0); [done|].
  rewrite IH. apply perm_swap.
Qed.

Lemma sort_perm l : Permutation (Js.sort cmp l) l.
Proof.
  induction l as [|x l IH]; simpl; [done|].
  rewrite sort_insert_perm. by constructor.
Qed.



End SortFacts.

Lemma filter_split_length {A} (f : A -> bool) l :
  (length (List.filter f l) + length (List.filter (fun x => negb (f x)) l)
   = length l)%nat.
Proof.
  induction l as [|x l IH]; simpl; [done|].
  destruct (f x); simpl; lia.
Qed.

(** ** Pending decisions and the maintenance sweeps *)

Section DateFacts.
Import DecisionQueue.

Variable Date_parse : string -> option Z.

(** [Date.parse("")] is [NaN]. *)
Hypothesis Date_parse_empty : Date_parse "" = None.

Lemma parses_before_spec field bound :
  parses_before Date_parse field bound = true
  <-> exists e, field = Some e /\ is_before Date_parse bound e.
Proof using Date_parse_empty.
  unfold parses_before, is_before. destruct field as [e|]; simpl.
  - destruct (String.eqb_spec e "") as [->|Hne]; simpl.
    + split; [done|].
      intros (e & [= <-] & t & Ht & _). by rewrite Date_parse_empty in Ht.
    + destruct (Date_parse e) as [t|] eqn:E; simpl.
      * rewrite Z.ltb_lt. split.
        -- intros Hlt. exists e. split; [done|]. exists t. by rewrite E.
        -- intros (e' & [= <-] & t' & Ht' & Hlt). congruence.
      * split; [done|]. intros (e' & [= <-] & t' & Ht' & _). congruence.
  - split; [done|]. intros (e & He & _). done.
Qed.










End DateFacts.

Section SweepFacts.
Import DecisionQueue.

Variable Date_parse : string -> option Z.
Variable LocalTZA : Z -> bool -> Z.
Hypothesis Date_parse_empty : Date_parse "" = None.

Lemma bool_iff_eq (a b : bool) : (a = true <-> b = true) -> a = b.
Proof. destruct a, b; intuition congruence. Qed.

(** C7 (as amended): [clearExpired] removes exactly the pending decisions whose
    expiry is before the current time, keeps all the others in their order,
    and returns how many it removed.  [clearCompleted], called without an
    argument, removes exactly the decisions that are not pending and were
    decided before the cutoff, the instant seven days of local time before
    the current one, and returns how many it removed.  The cutoff is the
    current time minus 7 * 86 400 000 milliseconds, moved by the change of
    the zone offset between the two instants: it is exactly seven days back
    where the offset is the same at both, as in a zone that keeps one
    offset. *)
Theorem sweeps_remove_exactly (now : Z) (st : Storage) :
  let swept := clearExpired Date_parse now st in
  let cutoff := days_before LocalTZA 7 now in
  let cleared := clearCompleted Date_parse LocalTZA None now st in
  (forall f : Decision -> bool,
     (forall d, f d = true <-> expired_pending Date_parse now d) ->
     getQueue (snd swept) = List.filter (fun d => negb (f d)) (getQueue st)
     /\ fst swept = Z.of_nat (length (List.filter f (getQueue st))))
  /\ (forall d, d ∈ getQueue (snd swept)
                <-> d ∈ getQueue st /\ ~ expired_pending Date_parse now d)
  /\ (forall f : Decision -> bool,
        (forall d, f d = true <-> completed_before Date_parse cutoff d) ->
        getQueue (snd cleared) = List.filter (fun d => negb (f d)) (getQueue st)
        /\ fst cleared = Z.of_nat (length (List.filter f (getQueue st))))
  /\ (forall d, d ∈ getQueue (snd cleared)
                <-> d ∈ getQueue st /\ ~ completed_before Date_parse cutoff d)
  /\ (forall off, (forall t b, LocalTZA t b = off) ->
                  cutoff = now - 7 * 86400000)
  /\ cutoff
     = now - 7 * 86400000
       + (LocalTZA now true
          - LocalTZA (now + LocalTZA now true - 7 * 86400000) false)
  /\ (LocalTZA (now + LocalTZA now true - 7 * 86400000) false
      = LocalTZA now true ->
      cutoff = now - 7 * 86400000).
Proof using Date_parse_empty.
  intros swept cutoff cleared.
  assert (forall d,
            (if negb (bool_decide (status d = pending)) then true
             else if parses_before Date_parse (expiresAt d) now then false
                  else true) = false
            <-> expired_pending Date_parse now d) as Hexp.
  { intros d. unfold expired_pending.
    rewrite <- (parses_before_spec Date_parse Date_parse_empty).
    case_bool_decide as Hst; simpl; [|split; [done|intros [? _]; done]].
    destruct (parses_before _ _ _);
      (split; [done|]); [done|intros [_ ?]; done]. }
  assert (forall d,
            (if bool_decide (status d = pending) then true
             else if parses_before Date_parse (decidedAt d) cutoff then false
                  else true) = false
            <-> completed_before Date_parse cutoff d) as Hcomp.
  { intros d. unfold completed_before.
    rewrite <- (parses_before_spec Date_parse Date_parse_empty).
    case_bool_decide as Hst; simpl; [split; [done|intros [? _]; done]|].
    destruct (parses_before _ _ _);
      (split; [done|]); [done|intros [_ ?]; done]. }
  split; [|split; [|split; [|split; [|split; [|split]]]]].
  - intros f Hf. unfold swept, clearExpired, getQueue. simpl.
    set (keep := fun d : Decision => _ : bool).
    assert (forall d, keep d = negb (f d)) as Hkeep.
    { intros d. apply bool_iff_eq. rewrite negb_true_iff.
      specialize (Hf d). specialize (Hexp d). fold (keep d) in Hexp.
      destruct (keep d), (f d); intuition congruence. }
    rewrite (filter_ext _ _ Hkeep). split; [done|].
    pose proof (filter_split_length f (decisions (loadState st))). lia.
  - intros d. unfold swept, clearExpired, getQueue. simpl.
    rewrite !list_elem_of_In, filter_In. rewrite <- Hexp.
    destruct (if negb _ then _ else _); intuition congruence.
  - intros f Hf. unfold cleared, clearCompleted, getQueue. simpl.
    fold cutoff.
    set (keep := fun d : Decision => _ : bool).
    assert (forall d, keep d = negb (f d)) as Hkeep.
    { intros d. apply bool_iff_eq. rewrite negb_true_iff.
      specialize (Hf d). specialize (Hcomp d). fold (keep d) in Hcomp.
      destruct (keep d), (f d); intuition congruence. }
    rewrite (filter_ext _ _ Hkeep). split; [done|].
    pose proof (filter_split_length f (decisions (loadState st))). lia.
  - intros d. unfold cleared, clearCompleted, getQueue. simpl. fold cutoff.
    rewrite !list_elem_of_In, filter_In. rewrite <- Hcomp.
    destruct (if bool_decide _ then _ else _); intuition congruence.
  - intros off Hoff. unfold cutoff, days_before, msPerDay.
    rewrite !Hoff. lia.
  - unfold cutoff, days_before, msPerDay. lia.
  - intros Hsame. unfold cutoff, days_before, msPerDay.
    rewrite Hsame. lia.
Qed.

End SweepFacts.

(** ** The queue on a concrete storage *)

Section QueueExamples.
Import DecisionQueue.


(** A sweep on 10 January 2025 in a zone three hours behind UTC: the pending
    decision that expired a millisecond before goes, and so does the one
    approved a millisecond more than seven days before; the one rejected
    exactly seven days before stays. *)
Lemma sweeps_remove_exactly_witness :
  let mk i s expires decided :=
    {| id := i; type := "stagnant_deal"; category := risk;
       priority := high; status := s;
       dealId := Some i; contactId := None; activityId := None;
       createdAt := "2025-01-01T00:00:00.000Z"; expiresAt := expires;
       snoozeUntil := None; decidedAt := decided;
       suggestedAction := {| action_type := "create_activity";
                             payload := ∅ |} |} in
  let d1 := mk "1"%string pending
              (Some "2025-01-09T23:59:59.999Z"%string) None in
  let d2 := mk "2"%string pending
              (Some "2025-01-10T00:00:00.001Z"%string) None in
  let d3 := mk "3"%string approved
              (Some "2025-01-01T00:00:00.000Z"%string)
              (Some "2025-01-02T23:59:59.999Z"%string) in
  let d4 := mk "4"%string rejected None
              (Some "2025-01-03T00:00:00.000Z"%string) in
  let st := {| queue_item :=
                 Some {| decisions := [d1; d2; d3; d4];
                         analyzerResults := []; lastAnalyzedAt := None |};
               processed_item := None |} in
  let zone := fixed_zone (-10800000) in
  let now := 1736467200000 in
  (fst (clearExpired Js.iso_parse now st) = 1
   /\ getQueue (snd (clearExpired Js.iso_parse now st)) = [d2; d3; d4])
  /\ (fst (clearCompleted Js.iso_parse zone None now st) = 1
      /\ getQueue (snd (clearCompleted Js.iso_parse zone None now st))
         = [d1; d2; d4])
  /\ (forall d, d ∈ [d2; d3; d4]
                <-> d ∈ [d1; d2; d3; d4]
                    /\ ~ expired_pending Js.iso_parse now d)
  /\ (forall d, d ∈ [d1; d2; d4]
                <-> d ∈ [d1; d2; d3; d4]
                    /\ ~ completed_before Js.iso_parse
                           (days_before zone 7 now) d)
  /\ days_before zone 7 now = now - 7 * 86400000.
Proof.
  intros mk d1 d2 d3 d4 st zone now.
  pose proof (sweeps_remove_exactly Js.iso_parse zone eq_refl now st)
    as (_ & Hswept & _ & Hcleared & Hcut & _).
  split; [split; vm_compute; reflexivity|].
  split; [split; vm_compute; reflexivity|].
  split; [exact Hswept|].
  split; [exact Hcleared|].
  exact (Hcut (-10800000) (fun _ _ => eq_refl)).
Defined.


(** C7 fails as it is stated for [clearCompleted]: in a zone that went from
    five to four hours behind UTC three days earlier, the cutoff is an hour
    less than seven days back, and a decision approved six days and
    twenty-three and a half hours ago is removed. *)
Lemma clearCompleted_removes_younger_across_switch :
  let d :=
    {| id := "1"; type := "stagnant_deal"; category := risk;
       priority := high; status := approved;
       dealId := Some "1"%string; contactId := None; activityId := None;
       createdAt := "2025-03-01T00:00:00.000Z"; expiresAt := None;
       snoozeUntil := None;
       decidedAt := Some "2025-03-05T12:30:00.000Z"%string;
       suggestedAction := {| action_type := "create_activity";
                             payload := ∅ |} |} in
  let st := {| queue_item :=
                 Some {| decisions := [d];
                         analyzerResults := []; lastAnalyzedAt := None |};
               processed_item := None |} in
  let zone := switching_zone 1741503600000 (-18000000) (-14400000) in
  let now := 1741780800000 in
  Js.iso_parse "2025-03-12T12:00:00.000Z" = Some now
  /\ Js.iso_parse "2025-03-05T12:30:00.000Z"
     = Some (now - 7 * 86400000 + 1800000)
  /\ days_before zone 7 now = now - 7 * 86400000 + 3600000
  /\ fst (clearCompleted Js.iso_parse zone None now st) = 1
  /\ getQueue (snd (clearCompleted Js.iso_parse zone None now st)) = [].
Proof.
  intros d st zone now. repeat split; vm_compute; reflexivity.
Qed.

End QueueExamples.

(** ** The model on small inputs *)

Section Examples.
Import Query.

(** One INSERT on [board_stages] in a task: the boards queries are
    invalidated with a refetch. *)
Example single_stage_insert :
  Realtime.run_task
    [{| Realtime.table := Realtime.board_stages;
        Realtime.eventType := Realtime.INSERT |}]
    Realtime.initial
  = ([{| queryKey := boards_all; refetchType := refetch_all |}],
     Realtime.initial).
Proof. reflexivity. Qed.

(** Three of them in one task, as when a board is created with three
    stages, next to the INSERT of a deal: the deals queries are refetched,
    the boards queries are only marked. *)
Example stage_insert_burst :
  let stage := {| Realtime.table := Realtime.board_stages;
                  Realtime.eventType := Realtime.INSERT |} in
  let deal := {| Realtime.table := Realtime.deals;
                 Realtime.eventType := Realtime.INSERT |} in
  fst (Realtime.run_task [stage; deal; stage; stage] Realtime.initial)
  = [{| queryKey := deals_all; refetchType := refetch_all |};
     {| queryKey := dashboard_stats; refetchType := refetch_all |};
     {| queryKey := boards_all; refetchType := refetch_none |}].
Proof. reflexivity. Qed.

(** An UPDATE arms the debounce timer and flushes nothing by itself. *)
Example update_is_debounced :
  let update := {| Realtime.table := Realtime.boards;
                   Realtime.eventType := Realtime.UPDATE |} in
  Realtime.run_task [update] Realtime.initial
  = ([], {| Realtime.pendingInvalidations := [boards_all];
            Realtime.pendingInvalidateOnly := [];
            Realtime.pendingBoardStagesInsertCount := 0;
            Realtime.flushScheduled := false;
            Realtime.debounceArmed := true |})
  /\ fst (Realtime.debounce_fire (snd (Realtime.run_task [update]
                                         Realtime.initial)))
     = [{| queryKey := boards_all; refetchType := refetch_active |}].
Proof. split; reflexivity. Qed.

(** The dedupe key takes the first related id that is set. *)
Example dedupeKey_examples :
  let mk deal contact activity :=
    {| DecisionQueue.id := "d-1"; DecisionQueue.type := "follow_up";
       DecisionQueue.category := DecisionQueue.follow_up;
       DecisionQueue.priority := DecisionQueue.medium;
       DecisionQueue.status := DecisionQueue.pending;
       DecisionQueue.dealId := deal; DecisionQueue.contactId := contact;
       DecisionQueue.activityId := activity;
       DecisionQueue.createdAt := "2025-01-01T00:00:00.000Z";
       DecisionQueue.expiresAt := None; DecisionQueue.snoozeUntil := None;
       DecisionQueue.decidedAt := None;
       DecisionQueue.suggestedAction :=
         {| DecisionQueue.action_type := "create_activity";
            DecisionQueue.payload := ∅ |} |} in
  DecisionQueue.dedupeKey
    (mk (Some "deal-1"%string) (Some "c-1"%string) None)
  = "follow_up:deal-1"%string
  /\ DecisionQueue.dedupeKey (mk (Some ""%string) (Some "c-1"%string) None)
     = "follow_up:c-1"%string
  /\ DecisionQueue.dedupeKey (mk None None None)
     = "follow_up:undefined"%string.
Proof. repeat split; reflexivity. Qed.

(** [slice(-2)] and a set built from an array with a repeated element. *)
Example slice_and_set :
  Js.slice_last 2 ["a"; "b"; "c"]%string = ["b"; "c"]%string
  /\ Js.slice_last 5 ["a"; "b"; "c"]%string = ["a"; "b"; "c"]%string
  /\ Js.set_of_array ["a"; "b"; "a"; "c"]%string = ["a"; "b"; "c"]%string
  /\ Js.set_add "a"%string ["a"; "b"]%string = ["a"; "b"]%string.
Proof. repeat split; reflexivity. Qed.

(** The comparator is a stable sort's: equal elements keep their order. *)
Example sort_is_stable :
  Js.sort (fun a b : Z * string => Some (fst a - fst b))
    [(2, "x"); (1, "y"); (2, "z"); (1, "w")]%string
  = [(1, "y"); (1, "w"); (2, "x"); (2, "z")]%string.
Proof. reflexivity. Qed.

End Examples.

Section ProcessedExamples.
Import DecisionQueue.

(** A processed set that is full: the keys of the deals 0 to 499, the key of
    deal 0 being the oldest.  Rejecting a suggestion for deal 500 evicts it,
    and the same suggestion for deal 0 is queued again. *)
Lemma processed_keys_bounded_witness :
  let key_of (n : nat) := ("stagnant_deal:deal-" ++ pretty n)%string in
  let st := {| queue_item := None;
               processed_item := Some (key_of <$> seq 0 500) |} in
  let st' := addProcessedDecision (key_of 500%nat) st in
  let d := {| id := "d-1"; type := "stagnant_deal"; category := risk;
              priority := high; status := pending;
              dealId := Some ("deal-" ++ pretty 0%nat)%string;
              contactId := None;
              activityId := None;
              createdAt := "2025-01-01T00:00:00.000Z"; expiresAt := None;
              snoozeUntil := None; decidedAt := None;
              suggestedAction := {| action_type := "create_activity";
                                    payload := ∅ |} |} in
  length (getProcessedDecisions st) = 500%nat
  /\ (length (getProcessedDecisions st') <= 500)%nat
  /\ (key_of 0%nat ∉ getProcessedDecisions st')
  /\ (key_of 500%nat ∈ getProcessedDecisions st')
  /\ getQueue (addDecision d st') = [d].
Proof.
  intros key_of st st' d.
  assert (forall n m, key_of n = key_of m -> n = m) as Hinj.
  { intros n m H. injection H as H. by apply (inj pretty). }
  assert (getProcessedDecisions st = key_of <$> seq 0 500) as Hst.
  { apply set_of_array_id, NoDup_fmap_2_strong; [|apply NoDup_seq].
    intros n m _ _. apply Hinj. }
  destruct (processed_keys_bounded (key_of 500%nat) st)
    as [(arr & _ & Hlen & _ & Harr) Hevict].
  destruct (Hevict (key_of 0%nat) (key_of <$> seq 1 499))
    as (Hgone & Hin & Hagain).
  - exact Hst.
  - rewrite length_fmap, length_seq. lia.
  - change (key_of 500%nat ∉ key_of <$> seq 0 500).
    intros H. apply list_elem_of_fmap in H as (n & Heq & Hn).
    apply Hinj in Heq. subst n. apply elem_of_seq in Hn. lia.
  - split; [by rewrite Hst, length_fmap, length_seq|].
    split; [unfold st'; by rewrite Harr|].
    split; [exact Hgone|]. split; [exact Hin|].
    apply (Hagain d); reflexivity.
Defined.

End ProcessedExamples.

(** * Further properties of the decision queue *)

Section BatchFacts.
Import DecisionQueue.

Lemma addDecision_processed d st :
  processed_item (addDecision d st) = processed_item st.
Proof.
  unfold addDecision. destruct (Js.set_has _ _); [done|].
  destruct (List.find _ _); done.
Qed.

(** The batch loop and the one-by-one additions stay in step. *)
Lemma addDecisions_in_step st ds :
  forall s q a,
    0 <= a ->
    q = decisions (loadState s) ->
    s = (if 0 <? a then saveState (with_decisions (loadState st) q) st
         else st) ->
    let '(q', a') :=
      fold_left (addDecisions_step (getProcessedDecisions st)) ds (q, a) in
    fold_left (fun s d => addDecision d s) ds s
    = (if 0 <? a' then saveState (with_decisions (loadState st) q') st
       else st)
    /\ 0 <= a'
    /\ a' - a = Z.of_nat (length q') - Z.of_nat (length q).
Proof.
  induction ds as [|d ds IH]; intros s q a Ha Hq Hs.
  - simpl. split; [done|]. split; [done|lia].
  - assert (getProcessedDecisions s = getProcessedDecisions st) as Hp.
    { rewrite Hs. destruct (0 <? a); done. }
    cbn [fold_left].
    set (acc := addDecisions_step _ (q, a) d).
    set (s' := addDecision d s).
    assert ((acc = (q, a) /\ s' = s)
            \/ (acc = (q ++ [d], a + 1)
                /\ s' = saveState
                          (with_decisions (loadState s) (q ++ [d])) s))
      as [[-> ->]|[-> ->]].
    { unfold acc, s', addDecisions_step, addDecision. rewrite Hp, <- Hq.
      destruct (Js.set_has (dedupeKey d) _); [by left|].
      destruct (List.find (similar_pending d) q); [by left|by right]. }
    { by apply IH. }
    specialize (IH
      (saveState (with_decisions (loadState s) (q ++ [d])) s)
      (q ++ [d]) (a + 1)).
    destruct (fold_left _ ds (q ++ [d], a + 1)) as [q' a'].
    destruct IH as (H1 & H2 & H3); [lia|done| |].
    + destruct (Z.ltb_spec 0 (a + 1)); [|lia].
      rewrite Hs. destruct (0 <? a); done.
    + split; [done|]. split; [done|].
      rewrite length_app in H3. simpl in H3. lia.
Qed.

(** Batch and single additions, both components. *)
Lemma addDecisions_is_repeated_addDecision_aux
  (ds : list Decision) (st : Storage) :
  snd (addDecisions ds st) = fold_left (fun s d => addDecision d s) ds st
  /\ fst (addDecisions ds st)
     = Z.of_nat (length (getQueue (snd (addDecisions ds st))))
       - Z.of_nat (length (getQueue st)).
Proof.
  pose proof (addDecisions_in_step st ds st (decisions (loadState st)) 0)
    as H.
  unfold addDecisions.
  destruct (fold_left _ ds (decisions (loadState st), 0)) as [q' a'].
  destruct H as (H1 & H2 & H3); [lia|done|done|].
  simpl. split; [by rewrite H1|].
  unfold getQueue. destruct (Z.ltb_spec 0 a'); simpl; [lia|].
  assert (a' = 0) by lia. lia.
Qed.

(** The batch [addDecisions] leaves the storage exactly as adding the
    decisions one by one with [addDecision] does, and returns by how many
    decisions the queue has grown. *)
Theorem addDecisions_is_repeated_addDecision
  (ds : list Decision) (st : Storage) :
  snd (addDecisions ds st) = fold_left (fun s d => addDecision d s) ds st
  /\ fst (addDecisions ds st)
     = Z.of_nat (length (getQueue (snd (addDecisions ds st))))
       - Z.of_nat (length (getQueue st)).
Proof. apply addDecisions_is_repeated_addDecision_aux. Qed.

End BatchFacts.

Section SimilarityFacts.
Import DecisionQueue.

Lemma strict_eq_true a b : Js.strict_eq a b = true <-> a = b.
Proof.
  destruct a as [x|], b as [y|]; simpl; try (split; done).
  rewrite String.eqb_eq. split; congruence.
Qed.

Lemma similar_pending_true d x :
  similar_pending d x = true
  <-> status x = pending /\ similarity x = similarity d.
Proof.
  unfold similar_pending, similarity.
  rewrite !andb_true_iff, bool_decide_eq_true, String.eqb_eq,
    !strict_eq_true.
  split.
  - intros [[[? ?] ?] ?]. split; [done|congruence].
  - intros [? [= ? ? ?]]. done.
Qed.

Lemma find_similar_none d queue :
  List.find (similar_pending d) queue = None
  <-> similarity d ∉ pending_similarities queue.
Proof.
  unfold pending_similarities. induction queue as [|x queue IH]; simpl.
  - split; [intros _ H; inversion H|done].
  - destruct (similar_pending d x) eqn:E.
    + apply similar_pending_true in E as [Hs He].
      rewrite (bool_decide_eq_true_2 _ Hs). simpl. rewrite He.
      split; [done|]. intros H. destruct H. constructor.
    + rewrite IH. case_bool_decide as Hs; simpl; [|done].
      rewrite not_elem_of_cons. split; [|tauto]. intros H. split; [|done].
      intros He. assert (similar_pending d x = true) as E'
        by (apply similar_pending_true; done).
      congruence.
Qed.

Lemma pending_similarities_push queue d :
  pending_similarities (queue ++ [d])
  = pending_similarities queue
    ++ (if bool_decide (status d = pending) then [similarity d] else []).
Proof.
  unfold pending_similarities. rewrite List.filter_app, List.map_app. simpl.
  by destruct (bool_decide (status d = pending)).
Qed.

Lemma pending_similarities_filter f queue :
  pending_similarities (List.filter f queue)
  `sublist_of` pending_similarities queue.
Proof.
  unfold pending_similarities. induction queue as [|x queue IH]; simpl.
  - constructor.
  - destruct (f x); simpl.
    + destruct (bool_decide (status x = pending)); simpl;
        [by apply sublist_skip|done].
    + destruct (bool_decide (status x = pending)); simpl;
        [by apply sublist_cons|done].
Qed.

Lemma pending_similarities_update_first p f queue :
  (forall x, status (f x) <> pending) ->
  pending_similarities (update_first p f queue)
  `sublist_of` pending_similarities queue.
Proof.
  intros Hf. unfold pending_similarities.
  induction queue as [|x queue IH]; simpl; [constructor|].
  destruct (p x); simpl.
  - rewrite (bool_decide_eq_false_2 _ (Hf x)).
    destruct (bool_decide (status x = pending)); simpl;
      [by apply sublist_cons|done].
  - destruct (bool_decide (status x = pending)); simpl;
      [by apply sublist_skip|done].
Qed.

Lemma addDecision_keeps_distinct d st :
  NoDup (pending_similarities (getQueue st)) ->
  NoDup (pending_similarities (getQueue (addDecision d st))).
Proof.
  intros Hnd. unfold addDecision, getQueue in *.
  destruct (Js.set_has _ _); [done|].
  destruct (List.find _ _) eqn:E; [done|]. simpl.
  rewrite pending_similarities_push.
  destruct (bool_decide (status d = pending)); [|by rewrite app_nil_r].
  apply find_similar_none in E.
  apply NoDup_app. split; [done|]. split; [|apply NoDup_singleton].
  intros k Hk Hin. apply list_elem_of_singleton in Hin. by subst.
Qed.

Lemma updateDecisionStatus_keeps_distinct i s now_iso st :
  s <> pending ->
  NoDup (pending_similarities (getQueue st)) ->
  NoDup (pending_similarities (getQueue (updateDecisionStatus i s now_iso st))).
Proof.
  intros Hs Hnd. unfold updateDecisionStatus, getQueue in *.
  destruct (List.find _ _); [|done]. simpl.
  eapply sublist_NoDup; [exact Hnd|].
  by apply pending_similarities_update_first.
Qed.

Lemma perform_keeps_distinct Date_parse LocalTZA exec st c :
  reopens c = false ->
  NoDup (pending_similarities (getQueue st)) ->
  NoDup (pending_similarities
           (getQueue (perform Date_parse LocalTZA exec st c))).
Proof.
  intros Hc Hnd. destruct c; simpl.
  - by apply addDecision_keeps_distinct.
  - destruct (addDecisions_is_repeated_addDecision_aux ds st) as [-> _].
    revert st Hnd. induction ds as [|d ds IH]; intros st Hnd; [done|].
    simpl. by apply IH, addDecision_keeps_distinct.
  - unfold approveDecision_via. destruct (getDecisionById i st); [|done].
    destruct (negb _); [done|]. simpl. destruct (success _); [|done].
    by apply updateDecisionStatus_keeps_distinct.
  - by apply updateDecisionStatus_keeps_distinct.
  - unfold snoozeDecision, getQueue in *.
    destruct (List.find _ _); [|done]. simpl.
    eapply sublist_NoDup; [exact Hnd|].
    by apply pending_similarities_update_first.
  - apply updateDecisionStatus_keeps_distinct; [|done].
    intros ->. discriminate Hc.
  - unfold clearExpired, getQueue in *. simpl.
    eapply sublist_NoDup; [exact Hnd|]. apply pending_similarities_filter.
  - unfold clearCompleted, getQueue in *. simpl.
    eapply sublist_NoDup; [exact Hnd|]. apply pending_similarities_filter.
  - unfold clearAll, getQueue. simpl. constructor.
  - done.
Qed.

(** At any point in the life of the storage, as long as no call of
    [updateDecisionStatus] has put a decision back to pending, no two
    pending decisions of the queue agree on type, [dealId] and [contactId]:
    the similarities of the pending decisions are pairwise distinct. *)
Theorem pending_decisions_pairwise_dissimilar
  (Date_parse : string -> option Z) (LocalTZA : Z -> bool -> Z)
  (exec : string -> gmap string PayloadValue -> ActionResult)
  (calls : list Call) :
  Forall (fun c => reopens c = false) calls ->
  let queue := getQueue (history Date_parse LocalTZA exec calls) in
  NoDup (pending_similarities queue)
  /\ (forall l1 d1 l2 d2 l3,
        queue = l1 ++ d1 :: l2 ++ d2 :: l3 ->
        status d1 = pending -> status d2 = pending ->
        similarity d1 <> similarity d2).
Proof.
  intros Hcalls queue.
  assert (NoDup (pending_similarities queue)) as Hnd; [|split; [done|]].
  2:{ intros l1 d1 l2 d2 l3 Hq H1 H2 Heq. rewrite Hq in Hnd.
      unfold pending_similarities in Hnd.
      rewrite List.filter_app, List.map_app in Hnd. simpl in Hnd.
      rewrite (bool_decide_eq_true_2 _ H1) in Hnd. simpl in Hnd.
      apply NoDup_app in Hnd as (_ & _ & Hnd).
      apply NoDup_cons in Hnd as [Hnot _]. apply Hnot.
      rewrite List.filter_app, List.map_app. simpl.
      rewrite (bool_decide_eq_true_2 _ H2). simpl.
      apply elem_of_app. right. rewrite Heq. constructor. }
  unfold queue, history.
  assert (forall st,
    NoDup (pending_similarities (getQueue st)) ->
    NoDup (pending_similarities
             (getQueue
                (fold_left (perform Date_parse LocalTZA exec) calls st))))
    as H.
  { induction Hcalls as [|c calls Hc _ IH]; intros st Hnd; [done|].
    simpl. by apply IH, perform_keeps_distinct. }
  apply H. constructor.
Qed.

(** A decision is snoozed, its twin is added, and both sweeps run: the
    queue holds the snoozed decision and the twin, one of them pending. *)
Lemma pending_decisions_pairwise_dissimilar_witness :
  let calls :=
    [AddDecision (sample "d-1" "deal-1" high pending);
     SnoozeDecision "d-1" "2025-02-01T00:00:00.000Z";
     AddDecision (sample "d-2" "deal-1" high pending);
     AddDecision (sample "d-3" "deal-1" low pending);
     UpdateDecisionStatus "d-9" rejected "2025-01-02T00:00:00.000Z";
     ClearExpired 1736467200000] in
  let queue := getQueue (history Js.iso_parse (fixed_zone 0) executeAction
                           calls) in
  List.map id queue = ["d-1"; "d-2"]%string
  /\ NoDup (pending_similarities queue).
Proof.
  intros calls queue.
  split; [vm_compute; reflexivity|].
  apply (pending_decisions_pairwise_dissimilar Js.iso_parse (fixed_zone 0)
           executeAction calls).
  repeat constructor.
Defined.

End SimilarityFacts.

Section DecidedFacts.
Import DecisionQueue.

Lemma find_split {A} (p : A -> bool) (l : list A) (d : A) :
  List.find p l = Some d ->
  exists l1 l2,
    l = l1 ++ d :: l2
    /\ Forall (fun x => p x = false) l1
    /\ p d = true
    /\ forall f, update_first p f l = l1 ++ f d :: l2.
Proof.
  induction l as [|x l IH]; [done|]. simpl. destruct (p x) eqn:E.
  - intros [= ->]. exists [], l.
    split; [done|]. split; [constructor|]. split; [done|]. done.
  - intros H. destruct (IH H) as (l1 & l2 & -> & Hl1 & Hd & Hup).
    exists (x :: l1), l2.
    split; [done|]. split; [by constructor|]. split; [done|].
    intros f. simpl. by rewrite Hup.
Qed.

Lemma updateDecisionStatus_found i s now_iso st d :
  getDecisionById i st = Some d ->
  getDecisionById i (updateDecisionStatus i s now_iso st)
  = Some (set_status s now_iso d).
Proof.
  intros Hget. unfold updateDecisionStatus. unfold getDecisionById in Hget.
  rewrite Hget. unfold getDecisionById. simpl.
  apply find_update_first; [done|]. apply find_some in Hget. apply Hget.
Qed.

Lemma updateDecisionStatus_records i s now_iso st d :
  getDecisionById i st = Some d ->
  s = approved \/ s = rejected ->
  (length (getProcessedDecisions st) <= 500)%nat ->
  dedupeKey d ∈ getProcessedDecisions (updateDecisionStatus i s now_iso st).
Proof.
  intros Hget Hs Hlen. unfold updateDecisionStatus.
  unfold getDecisionById in Hget. rewrite Hget.
  assert (bool_decide (s = approved) || bool_decide (s = rejected) = true)
    as -> by (destruct Hs as [-> | ->]; done).
  change (dedupeKey d ∈ getProcessedDecisions
            (addProcessedDecision (dedupeKey d) st)).
  by apply processed_key_recorded.
Qed.

Lemma recorded_within_member key m st :
  recorded_within key m st ->
  Js.set_has key (getProcessedDecisions st) = true.
Proof.
  intros (older & newer & Hl & _). unfold Js.set_has.
  apply bool_decide_eq_true_2. rewrite Hl.
  apply elem_of_app. right. constructor.
Qed.

Lemma recorded_within_add key key' m st :
  recorded_within key m st ->
  (m < 499)%nat ->
  recorded_within key (S m) (addProcessedDecision key' st).
Proof.
  intros (older & newer & Hl & Hlen) Hm.
  unfold recorded_within. rewrite getProcessedDecisions_add, Hl.
  unfold Js.set_add. destruct (Js.set_has _ _).
  - unfold Js.slice_last.
    exists (drop (length (older ++ key :: newer) - 500) older), newer.
    split; [|lia]. apply drop_app_le. rewrite length_app. simpl. lia.
  - unfold Js.slice_last. rewrite <- app_assoc. simpl.
    exists (drop (length (older ++ key :: newer ++ [key']) - 500) older),
      (newer ++ [key']).
    split.
    + apply drop_app_le. rewrite !length_app. simpl.
      rewrite length_app. simpl. lia.
    + rewrite length_app. simpl. lia.
Qed.

Lemma recorded_within_same key m st st' :
  processed_item st' = processed_item st ->
  recorded_within key m st -> recorded_within key m st'.
Proof.
  intros H. unfold recorded_within, getProcessedDecisions. by rewrite H.
Qed.

Lemma perform_without_record Date_parse LocalTZA exec st c :
  records c = false ->
  processed_item (perform Date_parse LocalTZA exec st c) = processed_item st.
Proof.
  intros Hc. destruct c; simpl; try discriminate Hc; try done.
  - unfold addDecision. destruct (Js.set_has _ _); [done|].
    by destruct (List.find _ _).
  - unfold addDecisions. destruct (fold_left _ _ _) as [queue added]. simpl.
    by destruct (0 <? added).
  - unfold snoozeDecision. by destruct (List.find _ _).
  - unfold updateDecisionStatus. destruct (List.find _ _); [|done].
    by destruct s.
Qed.

Lemma history_keeps_recorded Date_parse LocalTZA exec key later :
  forall m st,
    recorded_within key m st ->
    (m + length (List.filter records later) <= 499)%nat ->
    Js.set_has key
      (getProcessedDecisions
         (fold_left (perform Date_parse LocalTZA exec) later st)) = true.
Proof.
  induction later as [|c later IH]; intros m st Hrec Hm.
  - by apply (recorded_within_member key m).
  - cbn [fold_left List.filter] in *. destruct (records c) eqn:Ec.
    + cbn [length] in Hm. apply (IH (S m)); [|lia].
      destruct (perform_processed Date_parse LocalTZA exec st c)
        as [Hsame|[key' Hadd]].
      * eapply recorded_within_same; [exact Hsame|].
        destruct Hrec as (older & newer & ? & ?).
        exists older, newer. split; [done|lia].
      * eapply recorded_within_same; [exact Hadd|].
        apply recorded_within_add; [done|lia].
    + apply (IH m); [|done].
      eapply recorded_within_same; [|exact Hrec].
      by apply perform_without_record.
Qed.

Lemma updateDecisionStatus_records_last i s now_iso st d :
  getDecisionById i st = Some d ->
  s = approved \/ s = rejected ->
  dedupeKey d ∉ getProcessedDecisions st ->
  recorded_within (dedupeKey d) 0 (updateDecisionStatus i s now_iso st).
Proof.
  intros Hget Hs Hfresh.
  apply (recorded_within_same _ _
           (addProcessedDecision (dedupeKey d) st)).
  { unfold updateDecisionStatus. unfold getDecisionById in Hget.
    rewrite Hget.
    by assert (bool_decide (s = approved) || bool_decide (s = rejected)
               = true) as -> by (destruct Hs as [-> | ->]; done). }
  unfold recorded_within. rewrite getProcessedDecisions_add.
  unfold Js.set_add, Js.set_has. rewrite (bool_decide_eq_false_2 _ Hfresh).
  rewrite (slice_last_snoc 499).
  exists (Js.slice_last 499 (getProcessedDecisions st)), [].
  split; [done|simpl; lia].
Qed.

(** Once a decision has been approved or rejected, at any point in the life
    of the storage, a decision with the same dedupe key is not added:
    [addDecision] leaves the storage as it is and [addDecisions] counts
    nothing.  When the key was not on record before, this still holds after
    any later calls on the service among which at most 499 are approvals,
    rejections or status changes to approved or rejected. *)
Theorem decided_key_is_not_added_again
  (Date_parse : string -> option Z) (LocalTZA : Z -> bool -> Z)
  (exec : string -> gmap string PayloadValue -> ActionResult)
  (calls later : list Call) (i now_iso : string) (s : DecisionStatus)
  (d d' : Decision) :
  let st := history Date_parse LocalTZA exec calls in
  getDecisionById i st = Some d ->
  s = approved \/ s = rejected ->
  dedupeKey d' = dedupeKey d ->
  let st' := updateDecisionStatus i s now_iso st in
  let st'' :=
    history Date_parse LocalTZA exec
      (calls ++ UpdateDecisionStatus i s now_iso :: later) in
  (addDecision d' st' = st'
   /\ addDecisions [d'] st' = (0, st')
   /\ (s = rejected -> rejectDecision i now_iso st = st'))
  /\ (dedupeKey d ∉ getProcessedDecisions st ->
      (length (List.filter records later) <= 499)%nat ->
      addDecision d' st'' = st''
      /\ addDecisions [d'] st'' = (0, st'')).
Proof.
  intros st Hget Hs Hkey st' st''.
  assert (forall x,
            Js.set_has (dedupeKey d') (getProcessedDecisions x) = true ->
            addDecision d' x = x /\ addDecisions [d'] x = (0, x)) as Hskip.
  { intros x Hhas. split.
    - unfold addDecision. by rewrite Hhas.
    - unfold addDecisions. simpl. by rewrite Hhas. }
  split.
  - pose proof (updateDecisionStatus_records i s now_iso st d Hget Hs
                  (history_processed_bounded Date_parse LocalTZA exec calls))
      as Hin.
    fold st' in Hin.
    destruct (Hskip st') as [H1 H2].
    { unfold Js.set_has. rewrite Hkey. by apply bool_decide_eq_true_2. }
    split; [done|]. split; [done|]. by intros ->.
  - intros Hfresh Hlater. apply Hskip. rewrite Hkey.
    unfold st'', history. rewrite fold_left_app. cbn [fold_left perform].
    fold (history Date_parse LocalTZA exec calls). fold st. fold st'.
    apply (history_keeps_recorded Date_parse LocalTZA exec (dedupeKey d)
             later 0); [|simpl; lia].
    by apply updateDecisionStatus_records_last.
Qed.

(** A suggestion for deal 7 is queued and rejected; the next analysis
    suggests the same for deal 7 and is ignored, also after another
    decision has been approved and the queue swept. *)
Lemma decided_key_is_not_added_again_witness :
  let d := sample "d-1" "deal-7" high pending in
  let d' := sample "d-2" "deal-7" critical pending in
  let now_iso := "2025-01-02T00:00:00.000Z"%string in
  let later :=
    [AddDecision (sample "d-3" "deal-8" low pending);
     ApproveDecision "d-3" None "2025-01-03T00:00:00.000Z";
     ClearCompleted None 1736467200000] in
  let st' :=
    history Js.iso_parse (fixed_zone 0) executeAction
      [AddDecision d; UpdateDecisionStatus "d-1" rejected now_iso] in
  let st'' :=
    history Js.iso_parse (fixed_zone 0) executeAction
      ([AddDecision d] ++ UpdateDecisionStatus "d-1" rejected now_iso
                          :: later) in
  (addDecision d' st' = st' /\ addDecisions [d'] st' = (0, st'))
  /\ (addDecision d' st'' = st'' /\ addDecisions [d'] st'' = (0, st''))
  /\ getProcessedDecisions st''
     = ["stagnant_deal:deal-7"; "stagnant_deal:deal-8"]%string.
Proof.
  intros d d' now_iso later st' st''.
  destruct (decided_key_is_not_added_again Js.iso_parse (fixed_zone 0)
              executeAction [AddDecision d] later "d-1" now_iso rejected
              d d')
    as ((H1 & H2 & _) & H3).
  - reflexivity.
  - by right.
  - reflexivity.
  - split; [by split|]. split; [|vm_compute; reflexivity].
    apply H3.
    + vm_compute. intros H. inversion H.
    + vm_compute. lia.
Defined.

(** A decision that has been rejected, snoozed or approved is not approved
    afterwards: [approveDecision] on its id fails, calls no action and
    leaves the storage as it is. *)
Theorem settled_decision_is_not_approved
  (exec exec' : string -> gmap string PayloadValue -> ActionResult)
  (i : string) (m m' : option (gmap string PayloadValue))
  (now_iso later_iso : string) (st st' : Storage) (d : Decision) :
  getDecisionById i st = Some d ->
  st' = rejectDecision i now_iso st
  \/ st' = snoozeDecision i now_iso st
  \/ (status d = pending
      /\ success (exec (action_type (suggestedAction d))
                    (merge_payload (payload (suggestedAction d)) m)) = true
      /\ st' = storage (approveDecision_via exec i m now_iso st)) ->
  let a := approveDecision_via exec' i m' later_iso st' in
  success (returned a) = false
  /\ error (returned a) = Some "Decisão já foi processada"%string
  /\ executed a = []
  /\ storage a = st'.
Proof.
  intros Hget Hst' a.
  assert (exists d2, getDecisionById i st' = Some d2 /\ status d2 <> pending)
    as (d2 & Hget' & Hs).
  { destruct Hst' as [->|[->|(Hp & Hok & ->)]].
    - exists (set_status rejected now_iso d).
      split; [by apply updateDecisionStatus_found|done].
    - exists (set_snoozed now_iso d). split; [|done].
      unfold snoozeDecision. unfold getDecisionById in Hget. rewrite Hget.
      unfold getDecisionById. simpl.
      apply find_update_first; [done|]. apply find_some in Hget. apply Hget.
    - exists (set_status approved now_iso d). split; [|done].
      unfold approveDecision_via.
      rewrite Hget, (bool_decide_eq_true_2 _ Hp). simpl. rewrite Hok.
      by apply updateDecisionStatus_found. }
  unfold a, approveDecision_via. rewrite Hget'.
  rewrite (bool_decide_eq_false_2 _ Hs). done.
Qed.

(** A pending suggestion is approved; a second click on approve is
    refused and executes nothing. *)
Lemma settled_decision_is_not_approved_witness :
  let d := sample "d-1" "deal-7" high pending in
  let st := history Js.iso_parse (fixed_zone 0) executeAction
              [AddDecision d] in
  let st' := storage (approveDecision "d-1" None
                        "2025-01-02T00:00:00.000Z" st) in
  let again := approveDecision "d-1" None "2025-01-02T00:00:01.000Z" st' in
  success (returned again) = false
  /\ executed again = []
  /\ storage again = st'.
Proof.
  intros d st st' again.
  destruct (settled_decision_is_not_approved executeAction executeAction
              "d-1" None None "2025-01-02T00:00:00.000Z"
              "2025-01-02T00:00:01.000Z" st st' d)
    as (H1 & _ & H2 & H3).
  - reflexivity.
  - right. right. split; [reflexivity|split; reflexivity].
  - split; [exact H1|split; [exact H2|exact H3]].
Defined.

End DecidedFacts.

Section SnoozeFacts.
Import DecisionQueue.

Lemma pending_list_elem Date_parse now st x :
  x ∈ getPendingDecisions Date_parse now st
  <-> x ∈ getQueue st /\ is_due Date_parse now x = true.
Proof.
  unfold getPendingDecisions. fold (getQueue st).
  rewrite sort_perm, !list_elem_of_In. apply filter_In.
Qed.

Lemma filter_nil_Forall {A} (p : A -> bool) l :
  List.filter p l = [] <-> Forall (fun x => p x = false) l.
Proof.
  induction l as [|x l IH]; simpl.
  - split; [constructor|done].
  - destruct (p x) eqn:E.
    + split; [done|]. intros H. apply Forall_cons in H as [? _]. congruence.
    + rewrite IH. split; [by constructor|].
      intros H. by apply Forall_cons in H as [_ ?].
Qed.

(** A queue in which exactly one decision carries the id [i]. *)
Lemma only_one_split i (queue : list Decision) d :
  List.filter (fun x => String.eqb (id x) i) queue = [d] ->
  exists l1 l2,
    queue = l1 ++ d :: l2
    /\ Forall (fun x => String.eqb (id x) i = false) l1
    /\ Forall (fun x => String.eqb (id x) i = false) l2
    /\ String.eqb (id d) i = true
    /\ forall f,
         update_first (fun x => String.eqb (id x) i) f queue
         = l1 ++ f d :: l2.
Proof.
  intros Hone.
  assert (List.find (fun x => String.eqb (id x) i) queue = Some d) as Hfind.
  { induction queue as [|x queue IH]; [done|]. simpl in *.
    destruct (String.eqb (id x) i); [congruence|by apply IH]. }
  destruct (find_split _ _ _ Hfind) as (l1 & l2 & -> & Hl1 & Hd & Hup).
  exists l1, l2. split; [done|]. split; [done|]. split; [|done].
  rewrite List.filter_app in Hone. simpl in Hone. rewrite Hd in Hone.
  apply filter_nil_Forall in Hl1. rewrite Hl1 in Hone. simpl in Hone.
  apply filter_nil_Forall. congruence.
Qed.

(** A snoozed decision does not come back: after [snoozeDecision] on the
    only decision with the id, the pending list holds at every time,
    before or after the end of the snooze, exactly the decisions it held
    without the snooze, except those with this id. *)
Theorem snoozed_decision_stays_out
  (Date_parse : string -> option Z) (i until_iso : string)
  (st : Storage) (d : Decision) :
  List.filter (fun x => String.eqb (id x) i) (getQueue st) = [d] ->
  let st' := snoozeDecision i until_iso st in
  getDecisionById i st' = Some (set_snoozed until_iso d)
  /\ forall now x,
       x ∈ getPendingDecisions Date_parse now st'
       <-> x ∈ getPendingDecisions Date_parse now st /\ id x <> i.
Proof.
  intros Hone st'.
  destruct (only_one_split _ _ _ Hone) as (l1 & l2 & Hq & Hl1 & Hl2 & Hd & Hup).
  assert (getQueue st' = l1 ++ set_snoozed until_iso d :: l2) as Hq'.
  { unfold st', snoozeDecision, getQueue in *.
    destruct (List.find _ _) eqn:E.
    - simpl. apply Hup.
    - rewrite Hq in E. apply find_none with (x := d) in E; [congruence|].
      apply in_or_app. right. by left. }
  split.
  - unfold getDecisionById. fold (getQueue st'). rewrite Hq'.
    clear -Hl1 Hd. induction l1 as [|x l1 IH]; simpl.
    + change (id (set_snoozed until_iso d)) with (id d). by rewrite Hd.
    + apply Forall_cons in Hl1 as [-> Hl1]. by apply IH.
  - intros now x. rewrite !pending_list_elem, Hq, Hq'.
    rewrite !elem_of_app, !elem_of_cons.
    rewrite Forall_forall in Hl1. rewrite Forall_forall in Hl2.
    split.
    + intros [[H|[->|H]] Hdue].
      * split; [split; [by left|done]|].
        intros <-. apply Hl1 in H. rewrite String.eqb_refl in H. done.
      * done.
      * split; [split; [right; by right|done]|].
        intros <-. apply Hl2 in H. rewrite String.eqb_refl in H. done.
    + intros [[[H|[->|H]] Hdue] Hid].
      * split; [by left|done].
      * apply String.eqb_eq in Hd. done.
      * split; [right; by right|done].
Qed.

(** Two pending suggestions; the first is snoozed until 5 January.  On
    10 January the pending list still holds the second one only. *)
Lemma snoozed_decision_stays_out_witness :
  let d1 := sample "d-1" "deal-1" high pending in
  let d2 := sample "d-2" "deal-2" low pending in
  let st := history Js.iso_parse (fixed_zone 0) executeAction
              [AddDecision d1; AddDecision d2] in
  let st' := snoozeDecision "d-1" "2025-01-05T00:00:00.000Z" st in
  getPendingDecisions Js.iso_parse 1736467200000 st' = [d2]
  /\ forall now x,
       x ∈ getPendingDecisions Js.iso_parse now st'
       <-> x ∈ getPendingDecisions Js.iso_parse now st /\ id x <> "d-1"%string.
Proof.
  intros d1 d2 st st'.
  split; [vm_compute; reflexivity|].
  apply (snoozed_decision_stays_out Js.iso_parse "d-1"
           "2025-01-05T00:00:00.000Z" st d1).
  reflexivity.
Defined.

(** [updateDecisionStatus] (and with it [rejectDecision]) and
    [snoozeDecision] change one record: on an id that is not in the queue
    they leave the storage as it is; otherwise the first decision with the
    id gets its new status, and every other decision, the order of the queue
    and the analyzer results stay as they are. *)
Theorem status_change_touches_one_record
  (i now_iso : string) (s : DecisionStatus) (st : Storage) :
  (getDecisionById i st = None ->
   updateDecisionStatus i s now_iso st = st
   /\ snoozeDecision i now_iso st = st)
  /\ (forall d,
        getDecisionById i st = Some d ->
        exists l1 l2,
          getQueue st = l1 ++ d :: l2
          /\ Forall (fun x => id x <> i) l1
          /\ getQueue (updateDecisionStatus i s now_iso st)
             = l1 ++ set_status s now_iso d :: l2
          /\ getQueue (snoozeDecision i now_iso st)
             = l1 ++ set_snoozed now_iso d :: l2
          /\ analyzerResults (loadState (updateDecisionStatus i s now_iso st))
             = analyzerResults (loadState st)
          /\ analyzerResults (loadState (snoozeDecision i now_iso st))
             = analyzerResults (loadState st)).
Proof.
  unfold getDecisionById, updateDecisionStatus, snoozeDecision, getQueue.
  split.
  - intros ->. done.
  - intros d Hfind. rewrite Hfind. simpl.
    destruct (find_split _ _ _ Hfind) as (l1 & l2 & Hq & Hl1 & Hd & Hup).
    exists l1, l2. rewrite !Hup. split; [done|]. split; [|done].
    eapply Forall_impl; [exact Hl1|]. intros x Hx. simpl in Hx.
    by apply String.eqb_neq.
Qed.

End SnoozeFacts.

Section StatsFacts.
Import DecisionQueue.

Variable inherited : string -> bool.

Lemma sum_counts_insert (m : gmap string TypeEntry) k e :
  sum_counts (<[k := e]> m)
  = sum_counts m - from_option entry_count 0 (m !! k) + entry_count e.
Proof.
  unfold sum_counts. destruct (m !! k) as [e0|] eqn:E; simpl.
  - rewrite <- insert_delete_eq.
    rewrite map_fold_insert_L; [|intros; lia|apply lookup_delete_eq].
    rewrite (map_fold_delete_L _ _ k e0 m); [lia|intros; lia|done].
  - rewrite map_fold_insert_L; [lia|intros; lia|done].
Qed.

Lemma count_where_cons p x l :
  count_where p (x :: l) = (if p x then 1 else 0) + count_where p l.
Proof. unfold count_where. simpl. destruct (p x); simpl; lia. Qed.

Lemma count_where_snoc p l x :
  count_where p (l ++ [x]) = count_where p l + (if p x then 1 else 0).
Proof.
  unfold count_where. rewrite List.filter_app, length_app. simpl.
  destruct (p x); simpl; lia.
Qed.

Lemma count_where_nonneg p l : 0 <= count_where p l.
Proof. unfold count_where. lia. Qed.

Lemma bump_category_sum c n :
  n_follow_up (bump_category c n) + n_deadline (bump_category c n)
  + n_opportunity (bump_category c n) + n_risk (bump_category c n)
  + n_routine (bump_category c n)
  = n_follow_up n + n_deadline n + n_opportunity n + n_risk n + n_routine n
    + 1.
Proof. destruct c; simpl; lia. Qed.

(** The loop of [getStats], from any starting counts. *)
Lemma count_decisions_from l :
  forall s0,
    let s := fold_left (count_decision inherited) l s0 in
    stats_total s = stats_total s0
    /\ stats_pending s = stats_pending s0
    /\ stats_critical s
       = stats_critical s0
         + count_where (fun d => bool_decide (priority d = critical)) l
    /\ stats_high s
       = stats_high s0
         + count_where (fun d => bool_decide (priority d = high)) l
    /\ stats_medium s
       = stats_medium s0
         + count_where (fun d => bool_decide (priority d = medium)) l
    /\ stats_low s
       = stats_low s0
         + count_where (fun d => bool_decide (priority d = low)) l
    /\ n_follow_up (byCategory s) + n_deadline (byCategory s)
       + n_opportunity (byCategory s) + n_risk (byCategory s)
       + n_routine (byCategory s)
       = n_follow_up (byCategory s0) + n_deadline (byCategory s0)
         + n_opportunity (byCategory s0) + n_risk (byCategory s0)
         + n_routine (byCategory s0) + Z.of_nat (length l).
Proof.
  induction l as [|x l IH]; intros s0 s.
  - unfold s, count_where. simpl. repeat split; lia.
  - unfold s. simpl fold_left.
    destruct (IH (count_decision inherited s0 x))
      as (H1 & H2 & H3 & H4 & H5 & H6 & H7).
    rewrite H1, H2, H3, H4, H5, H6, H7. rewrite !count_where_cons.
    simpl. rewrite bump_category_sum.
    repeat split; lia.
Qed.

(** What the loop of [getStats] has assigned to [byType] after the
    decisions [l]. *)
Lemma byType_after l n :
  let m := byType (fold_left (count_decision inherited) l (empty_stats n)) in
  (forall t,
     m !! t
     = if count_where (fun d => String.eqb (type d) t) l =? 0 then None
       else if inherited t then Some NotANumber
            else Some (Counted
                         (count_where (fun d => String.eqb (type d) t) l)))
  /\ sum_counts m = count_where (fun d => negb (inherited (type d))) l.
Proof.
  induction l as [|x l IH] using rev_ind; intros m.
  - unfold m. simpl. split; [intros t; by rewrite lookup_empty|done].
  - unfold m. rewrite fold_left_app. cbn [fold_left].
    set (s := fold_left (count_decision inherited) l (empty_stats n)) in *.
    destruct IH as [IHt IHs]. cbn [count_decision byType].
    assert (next_entry inherited (type x) (byType s !! type x)
            = if inherited (type x) then NotANumber
              else Counted
                     (count_where (fun d => String.eqb (type d) (type x)) l
                      + 1)) as Hnext.
    { rewrite IHt.
      pose proof (count_where_nonneg
                    (fun d => String.eqb (type d) (type x)) l).
      destruct (Z.eqb_spec
                  (count_where (fun d => String.eqb (type d) (type x)) l) 0)
        as [->|Hne]; simpl; [done|].
      by destruct (inherited (type x)). }
    split.
    + intros t. rewrite count_where_snoc.
      pose proof (count_where_nonneg (fun d => String.eqb (type d) t) l).
      destruct (String.eqb_spec (type x) t) as [<-|Hne].
      * rewrite lookup_insert_eq, Hnext.
        destruct (Z.eqb_spec
                    (count_where (fun d => String.eqb (type d) (type x)) l
                     + 1) 0); [lia|by destruct (inherited (type x))].
      * rewrite lookup_insert_ne by done. rewrite IHt.
        by rewrite Z.add_0_r.
    + rewrite sum_counts_insert, IHs, count_where_snoc, Hnext, IHt.
      pose proof (count_where_nonneg
                    (fun d => String.eqb (type d) (type x)) l).
      destruct (Z.eqb_spec
                  (count_where (fun d => String.eqb (type d) (type x)) l) 0)
        as [E|E]; rewrite ?E;
        destruct (inherited (type x)); simpl; lia.
Qed.

(** [getStats] counts the pending list: [total] and [pending] are its
    length, the four priority counts add up to it and so do the category
    counts, and each priority count is the number of listed decisions of
    that priority.  Under a type that is not the name of a property of
    [Object.prototype], [byType] holds the number of listed decisions of
    that type, and nothing when there is none; under a type that is such a
    name it holds no number.  The counts of [byType] add up to the number of
    listed decisions whose type is not such a name. *)
Theorem stats_count_the_pending_list
  (Date_parse : string -> option Z) (now : Z) (st : Storage) :
  let listed := getPendingDecisions Date_parse now st in
  let n := Z.of_nat (length listed) in
  let s := getStats inherited Date_parse now st in
  let of_type t :=
    Z.of_nat (length (List.filter (fun d => String.eqb (type d) t) listed)) in
  stats_total s = n
  /\ stats_pending s = n
  /\ stats_critical s + stats_high s + stats_medium s + stats_low s = n
  /\ n_follow_up (byCategory s) + n_deadline (byCategory s)
     + n_opportunity (byCategory s) + n_risk (byCategory s)
     + n_routine (byCategory s) = n
  /\ (forall p,
        match p with
        | critical => stats_critical s
        | high => stats_high s
        | medium => stats_medium s
        | low => stats_low s
        end
        = Z.of_nat
            (length (List.filter (fun d => bool_decide (priority d = p))
                       listed)))
  /\ (forall t,
        byType s !! t
        = if of_type t =? 0 then None
          else if inherited t then Some NotANumber
               else Some (Counted (of_type t)))
  /\ sum_counts (byType s)
     = Z.of_nat
         (length (List.filter (fun d => negb (inherited (type d))) listed))
  /\ ((forall d, d ∈ listed -> inherited (type d) = false) ->
      sum_counts (byType s) = n).
Proof.
  intros listed n s of_type. unfold s, getStats, stats_for. fold listed.
  destruct (count_decisions_from listed
              (empty_stats (Z.of_nat (length listed))))
    as (H1 & H2 & H3 & H4 & H5 & H6 & H7).
  destruct (byType_after listed (Z.of_nat (length listed))) as [Ht Hs].
  simpl in *.
  assert (count_where (fun d => bool_decide (priority d = critical)) listed
          + count_where (fun d => bool_decide (priority d = high)) listed
          + count_where (fun d => bool_decide (priority d = medium)) listed
          + count_where (fun d => bool_decide (priority d = low)) listed
          = Z.of_nat (length listed)) as Hsum.
  { clear. induction listed as [|x l IH]; [done|].
    rewrite !count_where_cons. simpl length.
    destruct (priority x); simpl; lia. }
  split; [done|]. split; [done|]. split; [lia|]. split; [done|].
  split; [|split; [|split]].
  - intros []; [rewrite H3|rewrite H4|rewrite H5|rewrite H6];
      unfold count_where; lia.
  - intros t. apply Ht.
  - apply Hs.
  - intros Hall. rewrite Hs. unfold count_where, n. f_equal. f_equal.
    clear -Hall. induction listed as [|x l IH]; [done|]. simpl.
    rewrite (Hall x) by constructor. simpl. f_equal. apply IH.
    intros d Hd. apply Hall. by constructor.
Qed.

End StatsFacts.

Section SweepCompositionFacts.
Import DecisionQueue.

Lemma filter_filter_implied {A} (f g : A -> bool) l :
  (forall x, f x = true -> g x = true) ->
  List.filter f (List.filter g l) = List.filter f l.
Proof.
  intros H. induction l as [|x l IH]; simpl; [done|].
  destruct (g x) eqn:Eg; simpl.
  - by rewrite IH.
  - destruct (f x) eqn:Ef; [|done]. apply H in Ef. congruence.
Qed.

Lemma filter_idem {A} (f : A -> bool) l :
  List.filter f (List.filter f l) = List.filter f l.
Proof. by apply filter_filter_implied. Qed.

Lemma parses_before_mono Date_parse field (now later : Z) :
  now <= later ->
  parses_before Date_parse field now = true ->
  parses_before Date_parse field later = true.
Proof.
  intros Hle. unfold parses_before. rewrite !andb_true_iff.
  intros [Ht Hlt]. split; [done|].
  destruct field as [e|]; simpl in *; [|done].
  destruct (Date_parse e); simpl in *; [|done].
  apply Z.ltb_lt in Hlt. apply Z.ltb_lt. lia.
Qed.

(** The sweeps never take away a decision that the pending list would still
    show: at the time of [clearExpired] and at every later time the pending
    list is the same with and without the sweep, and [clearCompleted], with
    any retention and at any time, leaves every pending list as it is. *)
Theorem sweeps_keep_the_pending_list
  (Date_parse : string -> option Z) (LocalTZA : Z -> bool -> Z)
  (now later : Z) (st : Storage) :
  now <= later ->
  getPendingDecisions Date_parse later (snd (clearExpired Date_parse now st))
  = getPendingDecisions Date_parse later st
  /\ forall days t,
       getPendingDecisions Date_parse t
         (snd (clearCompleted Date_parse LocalTZA days now st))
       = getPendingDecisions Date_parse t st.
Proof.
  intros Hle. unfold getPendingDecisions, clearExpired, clearCompleted.
  simpl. split; [|intros days t]; f_equal; apply filter_filter_implied.
  - intros d. unfold is_due.
    destruct (negb (bool_decide (status d = pending))); [done|].
    destruct (parses_before Date_parse (expiresAt d) now) eqn:E; [|done].
    by rewrite (parses_before_mono _ _ _ _ Hle E).
  - intros d. unfold is_due.
    destruct (bool_decide (status d = pending)); done.
Qed.

(** A queue with an expired, a live and an approved decision, swept on
    10 January and read a day later. *)
Lemma sweeps_keep_the_pending_list_witness :
  let expired :=
    {| id := "d-1"; type := "follow_up"; category := follow_up;
       priority := high; status := pending;
       dealId := Some "deal-1"%string; contactId := None;
       activityId := None;
       createdAt := "2025-01-01T00:00:00.000Z";
       expiresAt := Some "2025-01-09T00:00:00.000Z"%string;
       snoozeUntil := None; decidedAt := None;
       suggestedAction := {| action_type := "create_activity";
                             payload := ∅ |} |} in
  let live := sample "d-2" "deal-2" low pending in
  let done_ := set_status approved "2025-01-01T00:00:00.000Z"
                 (sample "d-3" "deal-3" high pending) in
  let st := {| queue_item :=
                 Some {| decisions := [expired; live; done_];
                         analyzerResults := []; lastAnalyzedAt := None |};
               processed_item := None |} in
  let now := 1736467200000 in
  let later := now + 86400000 in
  getQueue (snd (clearExpired Js.iso_parse now st)) = [live; done_]
  /\ getPendingDecisions Js.iso_parse later
       (snd (clearExpired Js.iso_parse now st))
     = getPendingDecisions Js.iso_parse later st
  /\ getPendingDecisions Js.iso_parse later st = [live].
Proof.
  intros expired live done_ st now later.
  destruct (sweeps_keep_the_pending_list Js.iso_parse (fixed_zone 0)
              now later st) as [H _]; [vm_compute; discriminate|].
  split; [vm_compute; reflexivity|]. split; [exact H|].
  vm_compute; reflexivity.
Defined.

(** Both sweeps are idempotent: repeated at the same time, they remove
    nothing, return 0 and leave the storage as the first run left it. *)
Theorem sweeps_are_idempotent
  (Date_parse : string -> option Z) (LocalTZA : Z -> bool -> Z)
  (days : option Z) (now : Z) (st : Storage) :
  clearExpired Date_parse now (snd (clearExpired Date_parse now st))
  = (0, snd (clearExpired Date_parse now st))
  /\ clearCompleted Date_parse LocalTZA days now
       (snd (clearCompleted Date_parse LocalTZA days now st))
     = (0, snd (clearCompleted Date_parse LocalTZA days now st)).
Proof.
  unfold clearExpired, clearCompleted. simpl.
  rewrite !filter_idem. split; f_equal; lia.
Qed.

(** [saveAnalyzerResult] keeps the last ten results, whatever was stored,
    with the new result last, records the time of the analysis and leaves
    the queue and the processed keys as they are. *)
Theorem analyzer_results_keep_last_ten
  (result now_iso : string) (st : Storage) :
  let st' := saveAnalyzerResult result now_iso st in
  let results := analyzerResults (loadState st') in
  (length results <= 10)%nat
  /\ results
     = Js.slice_last 10 (analyzerResults (loadState st) ++ [result])
  /\ last results = Some result
  /\ getLastAnalyzedAt st' = Some now_iso
  /\ getQueue st' = getQueue st
  /\ processed_item st' = processed_item st.
Proof.
  intros st' results.
  assert (results
          = Js.slice_last 10 (analyzerResults (loadState st) ++ [result]))
    as Hres.
  { unfold results, st', saveAnalyzerResult. simpl.
    destruct (Nat.ltb_spec 10
                (length (analyzerResults (loadState st) ++ [result])));
      [done|].
    by rewrite slice_last_all. }
  split; [rewrite Hres; apply slice_last_length|].
  split; [exact Hres|]. split; [|done].
  rewrite Hres, (slice_last_snoc 9). apply last_snoc.
Qed.

End SweepCompositionFacts.

(** * Further properties of the board and deal caches *)

Section BoardCacheFacts.
Import Query Boards.

Lemma filter_other_id_all (i : string) (l : list Board) :
  count_id i l = 0%nat ->
  List.filter (fun b => negb (String.eqb (id b) i)) l = l.
Proof.
  unfold count_id, count_key. induction l as [|b l IH]; simpl; [done|].
  destruct (String.eqb (id b) i); simpl; [done|].
  intros H. by rewrite IH.
Qed.

Lemma map_other_id_all (i : string) (f : Board -> Board) (l : list Board) :
  count_id i l = 0%nat ->
  List.map (fun b => if String.eqb (id b) i then f b else b) l = l.
Proof.
  unfold count_id, count_key. induction l as [|b l IH]; simpl; [done|].
  destruct (String.eqb (id b) i); simpl; [done|].
  intros H. by rewrite IH.
Qed.

(** When the remote write of [useUpdateBoard] or of [useDeleteBoard] fails,
    [onError] puts back exactly the list that was cached before the
    optimistic edit, whatever happened in flight.  When nothing was cached,
    the optimistic edit has written an empty list and nothing is put
    back. *)
Theorem update_and_delete_failures_restore_snapshot
  (bid : string) (u : BoardUpdates)
  (inflight : QueryClient -> QueryClient)
  (cached : list Board) (calls : list InvalidateCall) :
  let qc := {| boardsLists := Some cached; invalidations := calls |} in
  let nothing := {| boardsLists := None; invalidations := calls |} in
  boardsLists (useUpdateBoard bid u inflight Rejected qc) = Some cached
  /\ boardsLists (useDeleteBoard bid inflight Rejected qc) = Some cached
  /\ boardsLists (snd (update_onMutate bid u nothing)) = Some []
  /\ boardsLists (snd (delete_onMutate bid nothing)) = Some []
  /\ boardsLists (useUpdateBoard bid u inflight Rejected nothing)
     = boardsLists (inflight (snd (update_onMutate bid u nothing)))
  /\ boardsLists (useDeleteBoard bid inflight Rejected nothing)
     = boardsLists (inflight (snd (delete_onMutate bid nothing))).
Proof. done. Qed.

(** The optimistic delete removes every cached board with the id and keeps
    the others in their order; the optimistic update keeps the length of
    the list and every board with another id in its place; on an id that no
    cached board carries, both leave the list as it is. *)
Theorem optimistic_edits_are_local
  (bid : string) (u : BoardUpdates)
  (cached : list Board) (calls : list InvalidateCall) :
  let qc := {| boardsLists := Some cached; invalidations := calls |} in
  exists deleted updated,
    boardsLists (snd (delete_onMutate bid qc)) = Some deleted
    /\ boardsLists (snd (update_onMutate bid u qc)) = Some updated
    /\ count_id bid deleted = 0%nat
    /\ deleted `sublist_of` cached
    /\ (forall b, b ∈ deleted <-> b ∈ cached /\ id b <> bid)
    /\ length updated = length cached
    /\ (forall k b, cached !! k = Some b -> id b <> bid ->
                    updated !! k = Some b)
    /\ (forall k b, cached !! k = Some b -> id b = bid ->
                    updated !! k = Some (apply_updates b u))
    /\ (count_id bid cached = 0%nat -> deleted = cached /\ updated = cached).
Proof.
  intros qc. eexists _, _. split; [reflexivity|]. split; [reflexivity|].
  simpl.
  split; [apply count_without_same|].
  split.
  { clear. induction cached as [|b l IH]; simpl; [constructor|].
    destruct (String.eqb (id b) bid); simpl;
      [by apply sublist_cons|by apply sublist_skip]. }
  split.
  { intros b. rewrite !list_elem_of_In, filter_In, negb_true_iff.
    by rewrite String.eqb_neq. }
  split; [apply length_map|].
  split.
  { intros k b Hk Hne. apply String.eqb_neq in Hne.
    change (List.map ?f cached) with (f <$> cached).
    rewrite list_lookup_fmap, Hk. simpl. by rewrite Hne. }
  split.
  { intros k b Hk He. apply String.eqb_eq in He.
    change (List.map ?f cached) with (f <$> cached).
    rewrite list_lookup_fmap, Hk. simpl. by rewrite He. }
  intros H0. split; [by apply filter_other_id_all|by apply map_other_id_all].
Qed.

(** With a quiet cache, a create that succeeds puts the server record where
    the temporary board was, at the head of the list that was cached, and
    leaves that list after it untouched. *)
Theorem create_success_replaces_the_temporary_board
  (r : Readings) (v : CreateVars) (data : Board)
  (cached : list Board) (calls : list InvalidateCall) :
  id data <> make_tempId v r ->
  count_id (id data) cached = 0%nat ->
  count_id (make_tempId v r) cached = 0%nat ->
  let qc := {| boardsLists := Some cached; invalidations := calls |} in
  let settled := useCreateBoard r v (fun q => q) (Resolved data) qc in
  boardsLists settled = Some (data :: cached)
  /\ invalidations settled
     = calls ++ [{| queryKey := boards_all; refetchType := refetch_active |}].
Proof.
  intros Hne Hdata Htmp qc settled.
  unfold settled, useCreateBoard, create_onMutate, create_onSuccess.
  simpl.
  pose proof (make_tempId_nonempty v r) as Hnon.
  apply String.eqb_neq in Hnon. rewrite Hnon. simpl.
  split; [|done]. unfold splice_created, update_with_default. simpl.
  change (id (make_tempBoard v r)) with (make_tempId v r).
  rewrite String.eqb_refl. simpl.
  rewrite (filter_other_id_all _ _ Htmp).
  rewrite existsb_count.
  change (count_key id (id data) cached) with (count_id (id data) cached).
  by rewrite Hdata.
Qed.

(** A board is created next to one cached board. *)
Lemma create_success_replaces_the_temporary_board_witness :
  let r := {| now_ms := "1735689600000"; random_digits := "k3x9a2f";
              now_iso := "2025-01-01T00:00:00.000Z" |} in
  let v := {| board := {| in_name := "Sales"; in_stages := None;
                          in_isDefault := None |};
              order := None; clientTempId := None |} in
  let old := {| id := "b-0"; name := "Leads"; stages := [];
                isDefault := true;
                createdAt := "2024-12-01T00:00:00.000Z" |} in
  let data := {| id := "b-1"; name := "Sales"; stages := [];
                 isDefault := false;
                 createdAt := "2025-01-01T00:00:01.000Z" |} in
  let qc := {| boardsLists := Some [old]; invalidations := [] |} in
  boardsLists (useCreateBoard r v (fun q => q) (Resolved data) qc)
  = Some [data; old].
Proof.
  intros r v old data qc.
  apply (create_success_replaces_the_temporary_board r v data [old] []).
  - vm_compute. discriminate.
  - reflexivity.
  - reflexivity.
Defined.

(** The query functions throw the error of the service when there is one.
    Otherwise [useDefaultBoard] resolves to null exactly when the service
    returned no board, to the first board flagged as default when there is
    one, and to the first board otherwise; [useBoard] resolves to the first
    board with the id, and to null when there is none or the id is
    undefined. *)
Theorem board_selection (i : option string) (r : Fetched) :
  let boards := default [] (data r) in
  (forall e, error r = Some e ->
     useBoards_queryFn r = inl e
     /\ useBoard_queryFn i r = inl e
     /\ useDefaultBoard_queryFn r = inl e)
  /\ (error r = None ->
      useBoards_queryFn r = inr boards
      /\ (exists chosen,
            useDefaultBoard_queryFn r = inr chosen
            /\ (chosen = None <-> boards = [])
            /\ (forall l1 b l2,
                  boards = l1 ++ b :: l2 ->
                  Forall (fun x => isDefault x = false) l1 ->
                  isDefault b = true -> chosen = Some b)
            /\ (Forall (fun x => isDefault x = false) boards ->
                chosen = head boards))
      /\ (exists found,
            useBoard_queryFn i r = inr found
            /\ (forall b, found = Some b -> b ∈ boards /\ i = Some (id b))
            /\ (found = None <->
                forall b, b ∈ boards -> i <> Some (id b)))).
Proof.
  intros boards. split.
  - intros e He.
    unfold useBoards_queryFn, useBoard_queryFn, useDefaultBoard_queryFn.
    by rewrite He.
  - intros He.
    unfold useBoards_queryFn, useBoard_queryFn, useDefaultBoard_queryFn.
    rewrite He. fold boards. split; [done|]. split.
    + eexists. split; [reflexivity|]. split; [|split].
      * destruct (List.find isDefault boards) eqn:E.
        -- split; [done|]. intros Hb. by rewrite Hb in E.
        -- destruct boards; simpl; split; done.
      * intros l1 b l2 Hb Hl1 Hd. rewrite Hb.
        assert (List.find isDefault (l1 ++ b :: l2) = Some b) as ->; [|done].
        clear Hb. induction l1 as [|x l1 IH]; simpl.
        -- by rewrite Hd.
        -- apply Forall_cons in Hl1 as [-> Hl1]. by apply IH.
      * intros Hall.
        destruct (List.find isDefault boards) eqn:E; [|done].
        apply find_some in E as [Hin Hd].
        rewrite Forall_forall in Hall.
        apply list_elem_of_In, Hall in Hin. congruence.
    + eexists. split; [reflexivity|]. split.
      * intros b Hb. apply find_some in Hb as [Hin Hid].
        split; [by apply list_elem_of_In|].
        destruct i as [i'|]; [|done]. apply String.eqb_eq in Hid.
        by rewrite Hid.
      * split.
        -- intros Hnone b Hin ->.
           apply find_none with (x := b) in Hnone;
             [|by apply list_elem_of_In].
           by rewrite String.eqb_refl in Hnone.
        -- intros Hall.
           destruct (List.find _ boards) eqn:E; [|done].
           apply find_some in E as [Hin Hid].
           destruct i as [i'|]; [|done]. apply String.eqb_eq in Hid.
           apply list_elem_of_In in Hin. destruct (Hall _ Hin).
           by rewrite Hid.
Qed.

End BoardCacheFacts.

Section DealCacheFacts.
Import Query Deals.

Lemma filter_other_view_all (i : string) (l : list DealView) :
  count_id i l = 0%nat ->
  List.filter (fun d => negb (String.eqb (view_id d) i)) l = l.
Proof.
  unfold count_id, count_key. induction l as [|b l IH]; simpl; [done|].
  destruct (String.eqb (view_id b) i); simpl; [done|].
  intros H. by rewrite IH.
Qed.

(** The optimistic row of [addDeal] is resolved when the create settles.
    For a deal with a board id, on a cached list in which no row carries the
    temporary id: the insert puts the temporary row at the head of the list
    of that board; a failed create leaves exactly the rows that were cached
    (an absent list becoming an empty one); a successful create whose id is
    new to the list leaves the created row at the head instead.  The lists
    of the other boards are never touched, and for a deal without a board id
    the cache is not touched at all. *)
Theorem addDeal_resolves_the_optimistic_row
  (now_ms now_iso : string) (d : Deal) (l : Labels) (created : Deal)
  (cache : gmap string (list DealView)) :
  let bid := optimisticBoardId d in
  let tmp := optimisticTempId now_ms in
  let old := default [] (cache !! bid) in
  let inserted := addDeal_insert now_ms now_iso d l cache in
  (bid = ""%string ->
   inserted = cache
   /\ forall r, addDeal_reconcile now_ms d l r cache = cache)
  /\ (forall other r,
        other <> bid ->
        inserted !! other = cache !! other
        /\ addDeal_reconcile now_ms d l r inserted !! other = cache !! other)
  /\ (bid <> ""%string ->
      count_id tmp old = 0%nat ->
      (exists row,
         inserted !! bid = Some (row :: old) /\ view_id row = tmp)
      /\ addDeal_reconcile now_ms d l None inserted !! bid = Some old
      /\ (id created <> tmp ->
          count_id (id created) old = 0%nat ->
          addDeal_reconcile now_ms d l (Some created) inserted !! bid
          = Some (with_labels created l :: old))).
Proof.
  intros bid tmp old inserted. split; [|split].
  - intros Hbid. unfold inserted, addDeal_insert, addDeal_reconcile.
    fold bid. rewrite Hbid. done.
  - intros other r Hne.
    unfold inserted, addDeal_insert, addDeal_reconcile. fold bid tmp.
    destruct (String.eqb bid ""); [done|].
    unfold setDealsList.
    destruct r; rewrite !lookup_insert_ne by done; done.
  - intros Hbid Htmp. apply String.eqb_neq in Hbid.
    unfold inserted, addDeal_insert, addDeal_reconcile. fold bid tmp.
    rewrite Hbid. unfold setDealsList. rewrite !lookup_insert_eq.
    fold old.
    set (row := with_labels _ l).
    assert (view_id row = tmp) as Hrow by done.
    split; [by exists row|].
    assert (List.filter (fun x => negb (String.eqb (view_id x) tmp))
              (row :: old) = old) as Hfilter.
    { cbn [List.filter]. rewrite Hrow, String.eqb_refl. cbn [negb].
      by apply filter_other_view_all. }
    change (default [] (Some (row :: old))) with (row :: old).
    split.
    + by rewrite Hfilter.
    + intros Hne Hnew. unfold splice_created. rewrite Hfilter.
      rewrite existsb_count.
      change (view_id (with_labels created l)) with (id created).
      change (count_key view_id (id created) old)
        with (count_id (id created) old).
      by rewrite Hnew.
Qed.

(** A deal is added to the board "b-1", whose cached list holds one row. *)
Lemma addDeal_resolves_the_optimistic_row_witness :
  let labels := {| optimisticContactName := "Sem contato";
                   optimisticContactEmail := "";
                   optimisticStageLabel := "Novo";
                   optimisticCompanyName := "Sem empresa" |} in
  let mk i := {| id := i; title := "Website";
                 boardId := Some "b-1"%string; status := Some "s-1"%string;
                 contactId := None; companyId := None;
                 createdAt := "2025-01-01T00:00:00.000Z";
                 updatedAt := "2025-01-01T00:00:00.000Z" |} in
  let row := with_labels (mk "deal-0"%string) labels in
  let cache : gmap string (list DealView) := {[ "b-1"%string := [row] ]} in
  let inserted :=
    addDeal_insert "1735689600000" "2025-01-01T00:00:00.000Z"
      (mk ""%string) labels cache in
  addDeal_reconcile "1735689600000" (mk ""%string) labels None inserted
    !! "b-1"%string = Some [row]
  /\ addDeal_reconcile "1735689600000" (mk ""%string) labels
       (Some (mk "deal-1"%string)) inserted !! "b-1"%string
     = Some [with_labels (mk "deal-1"%string) labels; row].
Proof.
  intros labels mk row cache inserted.
  destruct (addDeal_resolves_the_optimistic_row "1735689600000"
              "2025-01-01T00:00:00.000Z" (mk ""%string) labels
              (mk "deal-1"%string) cache) as (_ & _ & H).
  destruct H as (_ & Hfail & Hok).
  - vm_compute. discriminate.
  - vm_compute. reflexivity.
  - split; [exact Hfail|]. apply Hok.
    + vm_compute. discriminate.
    + vm_compute. reflexivity.
Defined.

End DealCacheFacts.

(** * Further properties of the realtime subscription *)

Section RealtimeBatchFacts.
Import Query Realtime.

Lemma set_add_all_elem `{EqDecision A} (ks s : list A) x :
  x ∈ Js.set_add_all ks s <-> x ∈ s \/ x ∈ ks.
Proof.
  revert s. induction ks as [|k ks IH]; intros s; simpl.
  - split; [by left|]. intros [?|H]; [done|inversion H].
  - rewrite IH, set_add_elem, elem_of_cons. tauto.
Qed.

Lemma on_change_facts p r :
  let r' := on_change p r in
  (NoDup (pendingInvalidations r) -> NoDup (pendingInvalidations r'))
  /\ (NoDup (pendingInvalidateOnly r) -> NoDup (pendingInvalidateOnly r'))
  /\ (forall k, k ∈ pendingInvalidations r -> k ∈ pendingInvalidations r')
  /\ (forall k, k ∈ pendingInvalidateOnly r -> k ∈ pendingInvalidateOnly r')
  /\ (forall k, k ∈ getTableQueryKeys (table p) ->
        k ∈ pendingInvalidations r' \/ k ∈ pendingInvalidateOnly r')
  /\ (flushScheduled r = true -> flushScheduled r' = true)
  /\ (debounceArmed r = true -> debounceArmed r' = true)
  /\ (eventType p = INSERT -> flushScheduled r' = true)
  /\ (eventType p <> INSERT ->
      debounceArmed r' = true
      /\ flushScheduled r' = flushScheduled r
      /\ pendingInvalidateOnly r' = pendingInvalidateOnly r
      /\ forall k, k ∈ getTableQueryKeys (table p) ->
                   k ∈ pendingInvalidations r').
Proof.
  unfold on_change. simpl.
  destruct (bool_decide (eventType p = INSERT)) eqn:Ei;
    [apply bool_decide_eq_true in Ei|apply bool_decide_eq_false in Ei];
    destruct (bool_decide (table p = board_stages)); simpl;
    repeat split; try done;
    try (by apply set_add_all_NoDup);
    try (intros k Hk; apply set_add_all_elem; by left);
    try (intros k Hk; left; apply set_add_all_elem; by right);
    try (intros k Hk; right; apply set_add_all_elem; by right);
    try (intros k Hk; apply set_add_all_elem; by right).
Qed.

Lemma receive_facts batch :
  forall r,
    let r' := receive batch r in
    (NoDup (pendingInvalidations r) -> NoDup (pendingInvalidations r'))
    /\ (NoDup (pendingInvalidateOnly r) -> NoDup (pendingInvalidateOnly r'))
    /\ (forall k, k ∈ pendingInvalidations r -> k ∈ pendingInvalidations r')
    /\ (forall k, k ∈ pendingInvalidateOnly r -> k ∈ pendingInvalidateOnly r')
    /\ (flushScheduled r = true -> flushScheduled r' = true)
    /\ (debounceArmed r = true -> debounceArmed r' = true)
    /\ (forall p k, p ∈ batch -> k ∈ getTableQueryKeys (table p) ->
          k ∈ pendingInvalidations r' \/ k ∈ pendingInvalidateOnly r')
    /\ (forall p, p ∈ batch -> eventType p = INSERT ->
          flushScheduled r' = true)
    /\ (forall p k, p ∈ batch -> eventType p <> INSERT ->
          k ∈ getTableQueryKeys (table p) ->
          debounceArmed r' = true /\ k ∈ pendingInvalidations r').
Proof.
  induction batch as [|p batch IH]; intros r r'.
  - unfold r'. simpl.
    repeat split; try done; intros; by match goal with
      | H : _ ∈ [] |- _ => inversion H end.
  - unfold r'.
    change (receive (p :: batch) r) with (receive batch (on_change p r)).
    destruct (on_change_facts p r)
      as (A1 & A2 & A3 & A4 & A5 & A6 & A7 & A8 & A9).
    destruct (IH (on_change p r))
      as (B1 & B2 & B3 & B4 & B5 & B6 & B7 & B8 & B9).
    split; [by auto|]. split; [by auto|]. split; [by auto|].
    split; [by auto|]. split; [by auto|]. split; [by auto|].
    split; [|split].
    + intros q k Hq Hk. apply elem_of_cons in Hq as [->|Hq]; [|by eauto].
      destruct (A5 k Hk); [left|right]; auto.
    + intros q Hq Hi. apply elem_of_cons in Hq as [->|Hq]; [|by eauto].
      auto.
    + intros q k Hq Hi Hk. apply elem_of_cons in Hq as [->|Hq]; [|by eauto].
      destruct (A9 Hi) as (? & _ & _ & ?). split; auto.
Qed.

(** No change event is dropped: in the task that delivers it, each query
    key of its table is either invalidated by the microtask flush, or is
    queued with the debounce timer armed; and when the timer fires, every
    queued key is invalidated and the queue is empty. *)
Theorem no_change_event_is_dropped
  (batch : list Payload) (r : Refs) (p : Payload) (k : QueryKey) :
  p ∈ batch ->
  k ∈ getTableQueryKeys (table p) ->
  let calls := fst (run_task batch r) in
  let r' := snd (run_task batch r) in
  (k ∈ List.map queryKey calls
   \/ (k ∈ pendingInvalidations r' /\ debounceArmed r' = true))
  /\ (forall k', k' ∈ pendingInvalidations r' ->
        k' ∈ List.map queryKey (fst (debounce_fire r')))
  /\ pendingInvalidations (snd (debounce_fire r')) = [].
Proof.
  intros Hp Hk calls r'. unfold calls, r', run_task.
  destruct (receive_facts batch r)
    as (_ & _ & _ & _ & _ & _ & B7 & B8 & B9).
  split; [|split].
  - destruct (flushScheduled (receive batch r)) eqn:Ef.
    + left. unfold flush. simpl. rewrite List.map_app, !List.map_map. simpl.
      rewrite !List.map_id. apply elem_of_app.
      destruct (B7 p k Hp Hk); [by left|by right].
    + right. simpl.
      destruct (decide (eventType p = INSERT)) as [Hi|Hi].
      * pose proof (B8 p Hp Hi) as Hs. congruence.
      * destruct (B9 p k Hp Hi Hk). by split.
  - intros k' Hk'. unfold debounce_fire. simpl.
    by rewrite List.map_map, List.map_id.
  - done.
Qed.

(** An UPDATE on deals next to an INSERT on contacts, in one task. *)
Lemma no_change_event_is_dropped_witness :
  let update := {| table := deals; eventType := UPDATE |} in
  let insert := {| table := contacts; eventType := INSERT |} in
  (dashboard_stats
     ∈ List.map queryKey (fst (run_task [update; insert] initial))
   \/ (dashboard_stats
         ∈ pendingInvalidations (snd (run_task [update; insert] initial))
       /\ debounceArmed (snd (run_task [update; insert] initial)) = true))
  /\ fst (run_task [update; insert] initial)
     = [{| queryKey := deals_all; refetchType := refetch_all |};
        {| queryKey := dashboard_stats; refetchType := refetch_all |};
        {| queryKey := contacts_all; refetchType := refetch_all |}].
Proof.
  intros update insert.
  destruct (no_change_event_is_dropped [update; insert] initial update
              dashboard_stats) as (H & _).
  - constructor.
  - simpl. apply elem_of_cons. right. constructor.
  - split; [exact H|reflexivity].
Defined.

(** The refs keep their shape through any history of the subscription:
    neither queue holds a key twice, a key is queued only while the debounce
    timer is armed, and between two tasks no flush is scheduled and nothing
    waits on the invalidate-only side. *)
Theorem subscription_refs_invariant (steps : list Step) :
  let r := run steps in
  NoDup (pendingInvalidations r)
  /\ NoDup (pendingInvalidateOnly r)
  /\ (pendingInvalidations r <> [] -> debounceArmed r = true)
  /\ flushScheduled r = false
  /\ pendingInvalidateOnly r = []
  /\ pendingBoardStagesInsertCount r = 0%nat.
Proof.
  intros r.
  destruct (run_quiescent steps) as (Hf & Ho & Hc). fold r in Hf, Ho, Hc.
  assert (NoDup (pendingInvalidations r)
          /\ (pendingInvalidations r <> [] -> debounceArmed r = true))
    as [H1 H2]; [|rewrite Ho; repeat split; try done; constructor].
  unfold r, run. clear.
  assert (forall r0,
    NoDup (pendingInvalidations r0) ->
    (pendingInvalidations r0 <> [] -> debounceArmed r0 = true) ->
    NoDup (pendingInvalidations (fold_left step steps r0))
    /\ (pendingInvalidations (fold_left step steps r0) <> [] ->
        debounceArmed (fold_left step steps r0) = true)) as H.
  { induction steps as [|s steps IH]; intros r0 Hnd Harm; [done|].
    simpl. apply IH.
    - destruct s as [batch|]; simpl.
      + unfold run_task.
        destruct (flushScheduled (receive batch r0)); simpl; [constructor|].
        by apply receive_facts.
      + destruct (debounceArmed r0); [constructor|done].
    - destruct s as [batch|]; simpl.
      + unfold run_task.
        destruct (flushScheduled (receive batch r0)) eqn:Ef; simpl; [done|].
        intros Hne.
        destruct (receive_facts batch r0)
          as (_ & _ & _ & _ & _ & B6 & _ & _ & B9).
        destruct batch as [|p batch]; [by apply Harm|].
        destruct (decide (eventType p = INSERT)) as [Hi|Hi].
        * destruct (receive_facts (p :: batch) r0)
            as (_ & _ & _ & _ & _ & _ & _ & B8 & _).
          rewrite (B8 p) in Ef; [done|constructor|done].
        * destruct (getTableQueryKeys (table p)) as [|k ks] eqn:Ek.
          { by destruct (table p). }
          apply (B9 p k); [constructor|done|]. rewrite Ek. constructor.
      + destruct (debounceArmed r0) eqn:Ea; [done|].
        intros Hne. by specialize (Harm Hne). }
  apply H; [constructor|done].
Qed.

Lemma receive_without_insert batch :
  Forall (fun p => eventType p <> INSERT) batch ->
  forall r,
    flushScheduled (receive batch r) = flushScheduled r
    /\ (batch <> [] -> debounceArmed (receive batch r) = true)
    /\ forall k,
         k ∈ pendingInvalidations (receive batch r)
         <-> k ∈ pendingInvalidations r
             \/ exists p, p ∈ batch /\ k ∈ getTableQueryKeys (table p).
Proof.
  induction 1 as [|p batch Hp _ IH]; intros r.
  - simpl. split; [done|]. split; [done|]. intros k. split; [by left|].
    intros [?|(p & Hp & _)]; [done|inversion Hp].
  - change (receive (p :: batch) r) with (receive batch (on_change p r)).
    destruct (IH (on_change p r)) as (If & Ia & Ik).
    destruct (on_change_facts p r) as (_ & _ & _ & _ & _ & _ & A7 & _ & A9).
    destruct (A9 Hp) as (Ha & Hf & _ & _).
    split; [by rewrite If|]. split.
    + intros _. destruct (receive_facts batch (on_change p r))
        as (_ & _ & _ & _ & _ & B6 & _). by apply B6.
    + intros k. rewrite Ik.
      assert (pendingInvalidations (on_change p r)
              = Js.set_add_all (getTableQueryKeys (table p))
                  (pendingInvalidations r)) as ->.
      { unfold on_change. simpl.
        by rewrite (bool_decide_eq_false_2 _ Hp). }
      rewrite set_add_all_elem. split.
      * intros [[?|?]|(q & Hq & Hk)]; [by left| |].
        -- right. exists p. split; [constructor|done].
        -- right. exists q. split; [by constructor|done].
      * intros [?|(q & Hq & Hk)]; [by left; left|].
        apply elem_of_cons in Hq as [->|Hq]; [by left; right|].
        right. by exists q.
Qed.

(** UPDATE and DELETE events are never invalidated in their own task: a
    task without an INSERT makes no call and arms the debounce timer; when
    the timer fires it invalidates exactly the keys queued before and the
    keys of the tables that changed, each once, with the default refetch. *)
Theorem updates_wait_for_the_timer
  (steps : list Step) (batch : list Payload) :
  Forall (fun p => eventType p <> INSERT) batch ->
  let r := run steps in
  let r' := snd (run_task batch r) in
  let calls := fst (debounce_fire r') in
  fst (run_task batch r) = []
  /\ (batch <> [] -> debounceArmed r' = true)
  /\ NoDup (List.map queryKey calls)
  /\ Forall (fun c => refetchType c = refetch_active) calls
  /\ forall k,
       k ∈ List.map queryKey calls
       <-> k ∈ pendingInvalidations r
           \/ exists p, p ∈ batch /\ k ∈ getTableQueryKeys (table p).
Proof.
  intros Hb r r' calls.
  destruct (run_quiescent steps) as (Hf & _). fold r in Hf.
  destruct (receive_without_insert batch Hb r) as (Rf & Ra & Rk).
  assert (run_task batch r = ([], receive batch r)) as Hrun.
  { unfold run_task. by rewrite Rf, Hf. }
  assert (List.map queryKey calls = pendingInvalidations (receive batch r))
    as Hkeys.
  { unfold calls, r', debounce_fire. rewrite Hrun. simpl.
    by rewrite List.map_map, List.map_id. }
  split; [by rewrite Hrun|]. split; [by unfold r'; rewrite Hrun|].
  split; [|split].
  - rewrite Hkeys.
    destruct (receive_facts batch r) as (B1 & _). apply B1.
    unfold r, run. clear.
    assert (forall r0, NoDup (pendingInvalidations r0) ->
              NoDup (pendingInvalidations (fold_left step steps r0))) as H.
    { induction steps as [|s steps IH]; intros r0 Hnd; [done|].
      simpl. apply IH. destruct s as [b|]; simpl.
      - unfold run_task.
        destruct (flushScheduled (receive b r0)); simpl; [constructor|].
        by apply receive_facts.
      - destruct (debounceArmed r0); [constructor|done]. }
    apply H. constructor.
  - unfold calls, debounce_fire. simpl. apply Forall_forall.
    intros c Hc. apply list_elem_of_In, in_map_iff in Hc as (k & <- & _).
    done.
  - intros k. rewrite Hkeys. apply Rk.
Qed.

(** Two updates of one deal and a deleted contact, after an earlier
    insert. *)
Lemma updates_wait_for_the_timer_witness :
  let batch :=
    [{| table := deals; eventType := UPDATE |};
     {| table := deals; eventType := UPDATE |};
     {| table := contacts; eventType := DELETE |}] in
  let r := run [Task [{| table := boards; eventType := INSERT |}]] in
  Forall (fun p => eventType p <> INSERT) batch
  /\ fst (run_task batch r) = []
  /\ fst (debounce_fire (snd (run_task batch r)))
     = [{| queryKey := deals_all; refetchType := refetch_active |};
        {| queryKey := dashboard_stats; refetchType := refetch_active |};
        {| queryKey := contacts_all; refetchType := refetch_active |}].
Proof.
  intros batch r.
  assert (Forall (fun p => eventType p <> INSERT) batch) as Hb.
  { repeat constructor; simpl; discriminate. }
  split; [exact Hb|].
  destruct (updates_wait_for_the_timer
              [Task [{| table := boards; eventType := INSERT |}]] batch Hb)
    as (H & _).
  split; [exact H|reflexivity].
Defined.

End RealtimeBatchFacts.

(** * Properties of the analyzers and conversions of the CRM context *)

Section AnalyzerFacts.
Import Crm.

Variable Date_parse : string -> option Z.
Variable LocalTZA : Z -> bool -> Z.

Lemma existsb_find {A} (p : A -> bool) l :
  existsb p l = match List.find p l with Some _ => true | None => false end.
Proof. induction l as [|x l IH]; simpl; [done|]. by destruct (p x). Qed.

Lemma find_some_mono {A} (p : A -> bool) (l l' : list A) x :
  x ∈ l -> p x = true -> (forall a, a ∈ l -> a ∈ l') ->
  exists y, List.find p l' = Some y.
Proof.
  intros Hx Hp Hsub. destruct (List.find p l') as [y|] eqn:E; [by exists y|].
  pose proof (find_none p l' E x) as Hn.
  rewrite Hn in Hp; [done|]. apply list_elem_of_In. by apply Hsub.
Qed.

Lemma alert_fold getBoardById clock activities ds :
  forall created,
    let result :=
      fold_left (alert_step getBoardById clock activities) ds created in
    List.map dealId result
    = List.map dealId created
      ++ List.map deal_id
           (List.filter
              (fun d => negb (existsb (open_alert_for d) activities)) ds)
    /\ (Forall (fun a => title a = "Alerta de Estagnação"%string
                         /\ completed a = false) created ->
        Forall (fun a => title a = "Alerta de Estagnação"%string
                         /\ completed a = false) result).
Proof.
  induction ds as [|d ds IH]; intros created; cbn [fold_left List.filter].
  - simpl. by rewrite app_nil_r.
  - destruct (IH (alert_step getBoardById clock activities created d))
      as [IHm IHf].
    unfold alert_step in *. rewrite existsb_find.
    destruct (List.find (open_alert_for d) activities) eqn:E;
      cbn [negb].
    + split; [exact IHm|exact IHf].
    + split.
      * rewrite IHm, List.map_app. cbn [List.map app].
        by rewrite <- app_assoc.
      * intros Hc. apply IHf. apply Forall_app. split; [done|].
        by repeat constructor.
Qed.

Lemma stagnation_alerts_aux getBoardById clock now rawDeals activities :
  let result :=
    checkStagnantDeals Date_parse LocalTZA getBoardById clock now rawDeals
      activities in
  let stagnant :=
    List.filter
      (is_stagnant Date_parse (DecisionQueue.days_before LocalTZA 10 now))
      rawDeals in
  List.map dealId (fst result)
  = List.map deal_id
      (List.filter (fun d => negb (existsb (open_alert_for d) activities))
         (take 3 stagnant))
  /\ Forall (fun a => title a = "Alerta de Estagnação"%string
                      /\ completed a = false) (fst result)
  /\ snd result = Z.of_nat (length stagnant).
Proof.
  intros result stagnant.
  unfold result, checkStagnantDeals. fold stagnant.
  destruct stagnant as [|d ds]; [by repeat split|].
  cbn [length Nat.ltb Nat.leb fst snd].
  destruct (alert_fold getBoardById clock activities (take 3 (d :: ds)) [])
    as [Hm Hf].
  split; [exact Hm|]. split; [by apply Hf|done].
Qed.

(** [checkStagnantDeals] adds an alert exactly for those of the first three
    stagnant deals that have no open alert, in their order, so at most
    three; each is an open task titled as an alert.  The number it returns
    counts all stagnant deals, so it is never below the number of alerts
    added. *)
Theorem stagnation_alerts getBoardById clock now rawDeals activities :
  let result :=
    checkStagnantDeals Date_parse LocalTZA getBoardById clock now rawDeals
      activities in
  let stagnant :=
    List.filter
      (is_stagnant Date_parse (DecisionQueue.days_before LocalTZA 10 now))
      rawDeals in
  List.map dealId (fst result)
  = List.map deal_id
      (List.filter (fun d => negb (existsb (open_alert_for d) activities))
         (take 3 stagnant))
  /\ (length (fst result) <= 3)%nat
  /\ Forall (fun a => title a = "Alerta de Estagnação"%string
                      /\ completed a = false) (fst result)
  /\ snd result = Z.of_nat (length stagnant)
  /\ Z.of_nat (length (fst result)) <= snd result.
Proof.
  intros result stagnant.
  destruct (stagnation_alerts_aux getBoardById clock now rawDeals activities)
    as (Hm & Hf & Hn).
  fold result in Hm, Hf, Hn. fold stagnant in Hm, Hn.
  assert (length (fst result) <= 3 /\ length (fst result) <= length stagnant)%nat
    as [H3 Hle].
  { rewrite <- (length_map dealId), Hm, length_map.
    pose proof (List.filter_length_le
                  (fun d => negb (existsb (open_alert_for d) activities))
                  (take 3 stagnant)) as Hl.
    rewrite length_take in Hl. lia. }
  repeat split; try done. rewrite Hn. lia.
Qed.

(** Once the alerts a run added are among the activities, no later run adds
    an alert for a deal that got one, whatever the deals and the time of the
    later run. *)
Theorem stagnation_alerts_are_not_repeated
  getBoardById clock now rawDeals activities
  getBoardById' clock' now' rawDeals' activities' :
  let first :=
    fst (checkStagnantDeals Date_parse LocalTZA getBoardById clock now
           rawDeals activities) in
  let second :=
    fst (checkStagnantDeals Date_parse LocalTZA getBoardById' clock' now'
           rawDeals' activities') in
  (forall a, a ∈ first -> a ∈ activities') ->
  forall a b, a ∈ first -> b ∈ second -> dealId a <> dealId b.
Proof.
  intros first second Hsub a b Ha Hb Heq.
  destruct (stagnation_alerts_aux getBoardById clock now rawDeals activities)
    as (_ & Hf & _).
  destruct (stagnation_alerts_aux getBoardById' clock' now' rawDeals'
              activities') as (Hm & _).
  fold first in Hf. fold second in Hm.
  assert (dealId b ∈ List.map dealId second) as Hin.
  { apply list_elem_of_In, in_map. by apply list_elem_of_In. }
  rewrite Hm in Hin.
  apply list_elem_of_In, in_map_iff in Hin as (d & Hd & Hin).
  apply filter_In in Hin as [_ Hopen].
  apply negb_true_iff in Hopen.
  assert (existsb (open_alert_for d) activities' = true) as Hex; [|congruence].
  apply existsb_exists. exists a. split.
  - apply list_elem_of_In. by apply Hsub.
  - apply (proj1 (Forall_forall _ _) Hf) in Ha as [Ht Hc].
    unfold open_alert_for. rewrite Ht, Hc, Heq, <- Hd.
    by rewrite !String.eqb_refl.
Qed.

End AnalyzerFacts.

(** A run that alerts on one deal, then a run over that deal and a second
    one: only the second deal gets an alert. *)
Lemma stagnation_alerts_are_not_repeated_witness :
  let clock := fun _ : nat => "2024-03-01T00:00:00.000Z"%string in
  let now := 1709251200000 in
  let d1 := Crm.sample_deal "deal-1" None in
  let d2 := Crm.sample_deal "deal-2" (Some "2024-01-01T00:00:00.000Z"%string) in
  let check :=
    Crm.checkStagnantDeals Js.iso_parse (DecisionQueue.fixed_zone 0)
      (fun _ => None) clock in
  let first := fst (check now [d1] []) in
  let second := fst (check (now + 1000) [d1; d2] first) in
  first = [Crm.stagnation_alert (fun _ => None) clock d1 0]
  /\ second = [Crm.stagnation_alert (fun _ => None) clock d2 0]
  /\ forall a b, a ∈ first -> b ∈ second -> Crm.dealId a <> Crm.dealId b.
Proof.
  intros clock now d1 d2 check first second.
  split; [vm_compute; reflexivity|]. split; [vm_compute; reflexivity|].
  apply (stagnation_alerts_are_not_repeated Js.iso_parse
           (DecisionQueue.fixed_zone 0)
           (fun _ => None) clock now [d1] []
           (fun _ => None) clock (now + 1000) [d1; d2] first).
  intros a Ha. exact Ha.
Defined.

Section WalletFacts.
Import Crm.

Variable Date_parse : string -> option Z.
Variable LocalTZA : Z -> bool -> Z.

Lemma num_lt_before s bound :
  Js.num_lt (Date_parse s) (Some bound) = true
  <-> DecisionQueue.is_before Date_parse bound s.
Proof.
  unfold DecisionQueue.is_before.
  destruct (Date_parse s) as [t|]; simpl.
  - rewrite Z.ltb_lt. split; [by exists t|]. by intros (? & [= <-] & ?).
  - split; [done|]. by intros (? & ? & _).
Qed.

Lemma num_max_before a b bound :
  Js.num_lt (num_max (Date_parse a) (Date_parse b)) (Some bound) = true
  <-> DecisionQueue.is_before Date_parse bound a
      /\ DecisionQueue.is_before Date_parse bound b.
Proof.
  rewrite <- !num_lt_before.
  destruct (Date_parse a) as [x|], (Date_parse b) as [y|]; simpl;
    try (split; [done|by intros [? ?]]).
  rewrite !Z.ltb_lt. apply Z.max_lub_lt_iff.
Qed.

(** The rule of [checkWalletHealth]: a contact is at risk exactly when it
    is an active customer and every date it is judged by (the recorded
    dates of last interaction and last purchase, or the date of creation
    when neither is recorded) parses and lies before the cutoff.  A date
    that does not parse clears the contact. *)
Theorem wallet_risk_rule (cutoff : Z) (c : Contact) :
  is_risky Date_parse cutoff c = true
  <-> contact_status c = "ACTIVE"%string
      /\ contact_stage c = "CUSTOMER"%string
      /\ Forall (DecisionQueue.is_before Date_parse cutoff) (judged_dates c).
Proof.
  unfold is_risky, judged_dates, recorded_dates.
  destruct (String.eqb_spec (contact_status c) "ACTIVE") as [Hs|Hs];
    cbn [negb orb]; [|split; [done|by intros (? & _)]].
  destruct (String.eqb_spec (contact_stage c) "CUSTOMER") as [Hg|Hg];
    cbn [negb]; [|split; [done|by intros (_ & ? & _)]].
  assert (forall P : Prop,
            P <-> contact_status c = "ACTIVE"%string
                  /\ contact_stage c = "CUSTOMER"%string /\ P) as Hdrop.
  { intros P. split; [by intros ?|by intros (_ & _ & ?)]. }
  rewrite <- Hdrop. clear Hdrop Hs Hg.
  destruct (contact_lastInteraction c) as [i|],
           (contact_lastPurchaseDate c) as [p|];
    unfold option_list, option_rect;
    cbn [Js.truthy app List.filter from_option];
    try destruct (String.eqb_spec i "") as [Hi|Hi];
    try destruct (String.eqb_spec p "") as [Hp|Hp];
    cbn [negb andb];
    rewrite ?Forall_cons, ?Forall_nil, ?num_max_before, ?num_lt_before;
    tauto.
Qed.

Lemma prefix_app (n b : string) : String.prefix n (n ++ b) = true.
Proof.
  induction n as [|ch n IH]; simpl; [by destruct b|].
  by destruct (Ascii.ascii_dec ch ch).
Qed.

Lemma includes_unfold h n :
  includes h n
  = String.prefix n h
    || match h with
       | EmptyString => false
       | String _ rest => includes rest n
       end.
Proof. by destruct h. Qed.

Lemma includes_app (a n b : string) : includes (a ++ n ++ b) n = true.
Proof.
  induction a as [|ch a IH].
  - change (includes (n ++ b) n = true).
    by rewrite includes_unfold, prefix_app.
  - change (includes (String ch (a ++ n ++ b)) n = true).
    rewrite includes_unfold, IH. apply orb_true_r.
Qed.

Lemma churn_task_open clock companies c k :
  open_task_for c (churn_task clock companies c k) = true.
Proof.
  unfold open_task_for, churn_task. cbn [title description completed negb].
  rewrite String.eqb_refl, andb_true_r. cbn [andb].
  change ("O cliente " ++ contact_name c ++ ?rest)%string
    with ("O cliente " ++ (contact_name c ++ rest))%string.
  apply includes_app.
Qed.

Lemma task_fold clock companies activities cs :
  forall created,
    let result :=
      fold_left (task_step clock companies activities) cs created in
    (forall a, a ∈ created -> a ∈ result)
    /\ (forall c, c ∈ cs ->
          (exists a, List.find (open_task_for c) activities = Some a)
          \/ exists k, churn_task clock companies c k ∈ result)
    /\ (Forall (fun c => existsb (open_task_for c) activities = true) cs ->
        result = created).
Proof.
  induction cs as [|c cs IH]; intros created; cbn [fold_left].
  - split; [done|]. split; [|done]. intros c Hc. inversion Hc.
  - destruct (IH (task_step clock companies activities created c))
      as (IHa & IHb & IHc).
    assert (forall a, a ∈ created ->
              a ∈ task_step clock companies activities created c) as Hkeep.
    { intros a Ha. unfold task_step.
      destruct (List.find _ _); [done|]. apply elem_of_app. by left. }
    split; [by auto|]. split.
    + intros c' Hc'. apply elem_of_cons in Hc' as [->|Hc']; [|by auto].
      destruct (List.find (open_task_for c) activities) as [a|] eqn:E.
      * left. by exists a.
      * right. exists (length created). apply IHa.
        unfold task_step. rewrite E. apply elem_of_app. right. constructor.
    + intros Hall. apply Forall_cons in Hall as [Hc Hall].
      rewrite (IHc Hall). unfold task_step.
      rewrite existsb_find in Hc. by destruct (List.find _ _).
Qed.

Lemma fold_skipping {A B} (step : B -> A -> B) (p q : A -> bool) l :
  forall acc,
    (forall x, x ∈ l -> q x = true -> forall b, step b x = b) ->
    fold_left step (List.filter p l) acc
    = fold_left step
        (List.filter p (List.filter (fun x => negb (q x)) l)) acc.
Proof.
  induction l as [|x l IH]; intros acc Hskip; [done|].
  assert (forall y, y ∈ l -> q y = true -> forall b, step b y = b) as Hl.
  { intros y Hy. apply Hskip. by constructor. }
  cbn [List.filter]. destruct (q x) eqn:Eq; cbn [negb List.filter].
  - destruct (p x); cbn [fold_left]; [|by apply IH].
    rewrite (Hskip x); [by apply IH|constructor|done].
  - destruct (p x); cbn [fold_left]; by apply IH.
Qed.

(** Once the open tasks and the tasks a run added are among the activities,
    a later run over the same contacts, at whatever time, adds tasks only
    on behalf of contacts the first run did not flag: it does what it would
    do without the contacts flagged before.  Run again at the same instant
    it adds nothing and returns 0. *)
Theorem wallet_check_is_idempotent
  clock now contacts companies activities
  clock' now' companies' activities' :
  let first :=
    fst (checkWalletHealth Date_parse LocalTZA clock now contacts companies
           activities) in
  let flagged :=
    is_risky Date_parse (DecisionQueue.days_before LocalTZA 30 now) in
  (forall a, a ∈ activities -> a ∈ activities') ->
  (forall a, a ∈ first -> a ∈ activities') ->
  checkWalletHealth Date_parse LocalTZA clock' now' contacts companies'
    activities'
  = checkWalletHealth Date_parse LocalTZA clock' now'
      (List.filter (fun c => negb (flagged c)) contacts) companies'
      activities'
  /\ checkWalletHealth Date_parse LocalTZA clock' now contacts companies'
       activities'
     = ([], 0).
Proof.
  intros first flagged Hold Hnew.
  destruct (task_fold clock companies activities
              (List.filter flagged contacts) []) as (_ & Hb & _).
  assert (forall c, c ∈ contacts -> flagged c = true ->
            exists y, List.find (open_task_for c) activities' = Some y)
    as Hopen.
  { intros c Hc Hf.
    assert (c ∈ List.filter flagged contacts) as Hin.
    { apply list_elem_of_In, filter_In. split; [|done].
      by apply list_elem_of_In. }
    destruct (Hb c Hin) as [(a & Ha)|(k & Hk)].
    - apply find_some in Ha as [Ha Hp].
      apply (find_some_mono (open_task_for c) activities activities' a);
        [by apply list_elem_of_In|done|done].
    - apply (find_some_mono (open_task_for c) first activities'
               (churn_task clock companies c k));
        [exact Hk|apply churn_task_open|done]. }
  split.
  - unfold checkWalletHealth.
    rewrite (fold_skipping (task_step clock' companies' activities')
               (is_risky Date_parse (DecisionQueue.days_before LocalTZA 30 now'))
               flagged contacts []); [done|].
    intros c Hc Hf b. unfold task_step.
    by destruct (Hopen c Hc Hf) as (y & ->).
  - unfold checkWalletHealth. fold flagged.
    destruct (task_fold clock' companies' activities'
                (List.filter flagged contacts) []) as (_ & _ & Hc).
    rewrite Hc; [done|].
    apply Forall_forall. intros c Hin. rewrite existsb_find.
    apply list_elem_of_In, filter_In in Hin as [Hin Hf].
    by destruct (Hopen c (proj2 (list_elem_of_In _ _) Hin) Hf) as (y & ->).
Qed.

End WalletFacts.

(** Ana has been silent since 5 January, Bob since 1 February.  Checked on
    1 March only Ana is flagged; checked again two days later, with Ana's
    task among the activities, a task is added for Bob and none for Ana. *)
Lemma wallet_check_is_idempotent_witness :
  let clock := fun _ : nat => "2024-03-01T00:00:00.000Z"%string in
  let now := 1709251200000 in
  let later := now + 2 * 86400000 in
  let ana := Crm.sample_contact "c-1" "Ana"
               (Some "2024-01-05T00:00:00.000Z"%string) in
  let bob := Crm.sample_contact "c-2" "Bob"
               (Some "2024-02-01T00:00:00.000Z"%string) in
  let check t :=
    Crm.checkWalletHealth Js.iso_parse (DecisionQueue.fixed_zone 0) clock
      t [ana; bob] [] in
  check now [] = ([Crm.churn_task clock [] ana 0], 1)
  /\ check later (fst (check now [])) = ([Crm.churn_task clock [] bob 0], 1)
  /\ check now (fst (check now [])) = ([], 0).
Proof.
  intros clock now later ana bob check.
  split; [vm_compute; reflexivity|].
  destruct (wallet_check_is_idempotent Js.iso_parse
              (DecisionQueue.fixed_zone 0)
              clock now [ana; bob] [] [] clock later []
              (fst (check now []))) as [Hlater Hsame].
  - intros a Ha. inversion Ha.
  - intros a Ha. exact Ha.
  - split; [|exact Hsame].
    refine (eq_trans Hlater _). vm_compute. reflexivity.
Defined.

(** * Properties of the conversions *)

Section ConversionFacts.
Import Crm.

Ltac conversion_cases :=
  intros; simpl in *;
  repeat match goal with
    | H : ex _ |- _ => destruct H
    | H : _ /\ _ |- _ => destruct H
    | H : _ \/ _ |- _ => destruct H
    | H : False |- _ => destruct H
    | H : true = false |- _ => discriminate H
    | H : @eq Effect _ _ |- _ =>
        first [discriminate H | injection H as H; subst]
    | H : @eq (option _) _ _ |- _ =>
        first [discriminate H | injection H as H; subst]
    end;
  simpl; eauto 12.

(** [convertLead] discards the lead exactly when it hands a deal to
    [addDealState], whether or not that deal is created; it discards no
    other lead; a contact is added only under the company just created; and
    the activity is logged only for a created deal, after the lead was
    discarded. *)
Theorem lead_conversion_calls
  (leads : list Lead) (activeBoard : option Boards.Board)
  (activeBoardId : option string) (now1 now2 leadId : string)
  (r : Created) :
  let effects :=
    convertLead leads activeBoard activeBoardId now1 now2 leadId r in
  let failed :=
    convertLead leads activeBoard activeBoardId now1 now2 leadId
      {| newCompany := newCompany r; newContact := newContact r;
         createdDeal := None |} in
  (In (DiscardLead leadId) effects <-> exists d, In (AddDealState d) effects)
  /\ (In (DiscardLead leadId) effects <-> In (DiscardLead leadId) failed)
  /\ (forall l, In (DiscardLead l) effects -> l = leadId)
  /\ (forall c, In (AddContact c) effects ->
        exists company,
          newCompany r = Some company /\ nc_companyId c = company_id company)
  /\ (forall a, In (AddActivity a) effects ->
        In (DiscardLead leadId) effects
        /\ exists t, createdDeal r = Some (dealId a, t)).
Proof.
  intros effects failed. unfold effects, failed, convertLead.
  destruct (List.find _ leads) as [lead|];
    [|simpl; repeat split; try done; by intros [? []]].
  destruct r as [[company|] [contact|] [[i t]|]];
    destruct activeBoard as [board|];
    try destruct (Boards.stages board) as [|first rest];
    cbn [newCompany newContact createdDeal];
    (split; [split; conversion_cases|]);
    (split; [split; conversion_cases|]);
    (split; [conversion_cases|]);
    (split; [conversion_cases|]);
    conversion_cases.
Qed.

(** [convertContactToDeal] asks for a company exactly when the contact is
    known and its company is not, with or without an active board; a deal
    it adds is for that contact, on the active board, in the first stage of
    that board; and the activity is logged only for a created deal. *)
Theorem contact_conversion_calls
  (contacts : list Contact) (companies : list Company)
  (activeBoard : option Boards.Board) (activeBoardId : option string)
  (now1 now2 contactId : string) (r : Created) :
  let effects :=
    convertContactToDeal contacts companies activeBoard activeBoardId
      now1 now2 contactId r in
  ((exists n, In (AddCompany n) effects)
   <-> exists contact,
         List.find (fun c => String.eqb (contact_id c) contactId) contacts
         = Some contact
         /\ existsb
              (fun c => Js.strict_eq (Some (company_id c))
                          (contact_companyId contact))
              companies = false)
  /\ (forall d, In (AddDealState d) effects ->
        new_contactId d = contactId
        /\ new_boardId d = activeBoardId
        /\ exists board first,
             activeBoard = Some board
             /\ head (Boards.stages board) = Some first
             /\ new_status d = Boards.stage_id first)
  /\ (forall a, In (AddActivity a) effects ->
        (exists d, In (AddDealState d) effects)
        /\ exists t, createdDeal r = Some (dealId a, t))
  /\ (forall l, ~ In (DiscardLead l) effects)
  /\ (forall c, ~ In (AddContact c) effects).
Proof.
  intros effects. unfold effects, convertContactToDeal.
  destruct (List.find (fun c => String.eqb (contact_id c) contactId) contacts)
    as [contact|] eqn:Ec.
  2: { simpl. split; [split|by repeat split; try intros ? []].
       - by intros [? []].
       - by intros (? & ? & _). }
  apply find_some in Ec as [_ Hid]. apply String.eqb_eq in Hid.
  assert (forall P : Prop,
            (exists c, Some contact = Some c
                       /\ existsb
                            (fun co => Js.strict_eq (Some (company_id co))
                                         (contact_companyId c))
                            companies = false)
            <-> existsb
                  (fun co => Js.strict_eq (Some (company_id co))
                               (contact_companyId contact))
                  companies = false) as Hex.
  { intros _. split; [by intros (c & [= <-] & ?)|]. intros ?. by exists contact. }
  rewrite (Hex True). clear Hex.
  rewrite existsb_find.
  destruct (List.find _ companies) as [known|];
    destruct r as [[company|] nc [[i t]|]];
    destruct activeBoard as [board|];
    try destruct (Boards.stages board) as [|first rest] eqn:Es;
    cbn [newCompany newContact createdDeal app];
    (split; [split; conversion_cases|]);
    (split; [solve [conversion_cases
                   |conversion_cases; repeat (split; [done|]);
                    exists board, first; by rewrite Es]|]);
    (split; [conversion_cases|]);
    (split; intros ? ?; conversion_cases).
Qed.

End ConversionFacts.

(** * Properties of the settings controller *)

Section SettingsFacts.
Import Settings.

Variable trim : string -> string.
Variable toLowerCase : string -> string.
Variable collapse_spaces : string -> string.
Variable strip_spaces : string -> string.
Variable capitalise_words : string -> string.

Lemma existsb_false_Forall {A} (p : A -> bool) l :
  existsb p l = false <-> Forall (fun x => p x = false) l.
Proof.
  induction l as [|x l IH]; simpl.
  - split; [constructor|done].
  - rewrite orb_false_iff, IH, Forall_cons. tauto.
Qed.

(** What a save that was not refused has checked. *)
Lemma save_field_checks defs st :
  let cleaned := trim (newFieldLabel st) in
  String.eqb cleaned "" = false ->
  hasDuplicateLabel trim toLowerCase collapse_spaces defs st
    (normalizeFieldLabel trim toLowerCase collapse_spaces cleaned)
  || hasDuplicateKey defs st (buildFieldKey toLowerCase strip_spaces
      capitalise_words cleaned) = false ->
  Forall
    (fun g =>
       is_edited st g = true
       \/ (key g <> buildFieldKey toLowerCase strip_spaces
           capitalise_words cleaned
           /\ normalizeFieldLabel trim toLowerCase
               collapse_spaces (label g)
             <> normalizeFieldLabel trim toLowerCase
               collapse_spaces cleaned))
    defs.
Proof.
  intros cleaned _ Hdup. apply orb_false_iff in Hdup as [Hl Hk].
  unfold hasDuplicateLabel, hasDuplicateKey in *.
  apply existsb_false_Forall in Hl, Hk.
  apply Forall_forall. intros g Hg.
  pose proof (proj1 (Forall_forall _ _) Hl g Hg) as Hlg.
  pose proof (proj1 (Forall_forall _ _) Hk g Hg) as Hkg.
  simpl in Hlg, Hkg.
  destruct (is_edited st g); [by left|right].
  by split; apply String.eqb_neq.
Qed.

Lemma is_edited_spec st g :
  is_edited st g = true <-> editingId st = Some (id g) /\ id g <> ""%string.
Proof.
  unfold is_edited. destruct (editingId st) as [i|]; simpl.
  - rewrite andb_true_iff, negb_true_iff, String.eqb_neq, String.eqb_eq.
    split.
    + intros [Hi Heq]. subst. done.
    + intros [[= ->] Hi]. done.
  - split; [done|by intros [? _]].
Qed.

(** A field is created or updated only with a label and a key that no other
    definition has: on creation no definition at all has the key or the
    normalized label, on update none but the edited one.  A creation
    carries a non-blank label and the key built from it; an update is for
    the field being edited. *)
Theorem saved_field_does_not_clash
  (defs : list CustomFieldDefinition) (st : State) :
  let effects := fst (handleSaveField trim toLowerCase collapse_spaces strip_spaces
          capitalise_words defs st) in
  (forall f, In (AddCustomField f) effects ->
     new_label f <> ""%string
     /\ new_key f = buildFieldKey toLowerCase strip_spaces
         capitalise_words (new_label f)
     /\ Forall (fun g => key g <> new_key f
                         /\ normalizeFieldLabel trim toLowerCase
                             collapse_spaces (label g)
                           <> normalizeFieldLabel trim toLowerCase
                             collapse_spaces (new_label f))
          defs)
  /\ (forall i u, In (UpdateCustomField i u) effects ->
        editingId st = Some i
        /\ i <> ""%string
        /\ upd_label u <> ""%string
        /\ Forall (fun g => id g = i
                            \/ (key g <> buildFieldKey toLowerCase strip_spaces
                                capitalise_words (upd_label u)
                                /\ normalizeFieldLabel trim toLowerCase
                                    collapse_spaces (label g)
                                  
                                     <> normalizeFieldLabel trim toLowerCase
                                       collapse_spaces (upd_label u)))
             defs).
Proof.
  intros effects. unfold effects, handleSaveField.
  destruct (String.eqb_spec (trim (newFieldLabel st)) "") as [Hb|Hb];
    [by split; intros; simpl in *|].
  destruct (_ || _) eqn:Hdup.
  { split; intros; simpl in *; intuition discriminate. }
  pose proof (save_field_checks defs st
                (proj2 (String.eqb_neq _ _) Hb) Hdup) as Hchk.
  simpl in Hchk.
  destruct (editingId st) as [i|] eqn:Ei;
    [destruct (String.eqb_spec i "") as [Hi|Hi]|];
    cbn [fst]; split.
  - intros f [[= <-]|[?|[]]]; [|done]. cbn [new_label new_key].
    repeat split; try done. eapply Forall_impl; [exact Hchk|].
    intros g [He|?]; [|done].
    apply is_edited_spec in He as [He Hne]. rewrite Ei in He.
    injection He as ->. done.
  - intros j u [?|[?|[]]]; done.
  - intros f [?|[?|[]]]; done.
  - intros j u [Hu|[?|[]]]; [|done]. injection Hu as <- <-.
    cbn [upd_label]. repeat split; try done.
    eapply Forall_impl; [exact Hchk|].
    intros g [He|?]; [left|by right].
    apply is_edited_spec in He as [He _]. rewrite Ei in He.
    by injection He as ->.
  - intros f [[= <-]|[?|[]]]; [|done]. cbn [new_label new_key].
    repeat split; try done. eapply Forall_impl; [exact Hchk|].
    intros g [He|?]; [|done].
    apply is_edited_spec in He as [He _]. by rewrite Ei in He.
  - intros j u [?|[?|[]]]; done.
Qed.

Lemma NoDup_snoc_fresh {A B} (h : A -> B) (l : list A) (x : A) :
  NoDup (List.map h l) -> Forall (fun g => h g <> h x) l ->
  NoDup (List.map h (l ++ [x])).
Proof.
  intros Hnd Hfresh. rewrite List.map_app. apply NoDup_app.
  split; [done|]. split; [|repeat constructor; by intros H; inversion H].
  intros y Hy Hx. apply list_elem_of_singleton in Hx as ->.
  apply list_elem_of_In, in_map_iff in Hy as (g & Hg & Hin).
  apply (proj1 (Forall_forall _ _) Hfresh g); [by apply list_elem_of_In|done].
Qed.

(** Creating fields keeps the list of definitions free of clashes: when no
    two definitions share a key or a normalized label, the same holds after
    the field that [handleSaveField] hands to [addCustomField] is stored,
    under whatever id. *)
Theorem created_field_keeps_definitions_distinct
  (defs : list CustomFieldDefinition) (st : State) (f : NewField)
  (i : string) :
  NoDup (List.map key defs) ->
  NoDup (List.map (fun g => normalizeFieldLabel trim toLowerCase
      collapse_spaces (label g)) defs) ->
  In (AddCustomField f) (fst (handleSaveField trim toLowerCase collapse_spaces strip_spaces
          capitalise_words defs st)) ->
  NoDup (List.map key (defs ++ [stored i f]))
  /\ NoDup (List.map (fun g => normalizeFieldLabel trim toLowerCase
      collapse_spaces (label g)) (defs ++ [stored i f])).
Proof.
  intros Hk Hl Hin. unfold handleSaveField in Hin.
  destruct (String.eqb_spec (trim (newFieldLabel st)) "") as [Hb|Hb];
    [done|].
  destruct (_ || _) eqn:Hdup; [simpl in Hin; intuition discriminate|].
  pose proof (save_field_checks defs st
                (proj2 (String.eqb_neq _ _) Hb) Hdup) as Hchk.
  simpl in Hchk.
  assert (f = {| new_key := buildFieldKey toLowerCase strip_spaces
      capitalise_words (trim (newFieldLabel st));
                 new_label := trim (newFieldLabel st);
                 new_type := newFieldType st;
                 new_options := optionsArray trim st |}
          /\ Js.truthy (editingId st) = false) as [-> Hcreate].
  { destruct (editingId st) as [j|];
      [destruct (String.eqb_spec j "") as [Hj|Hj]|];
      simpl in Hin; destruct Hin as [Hin|[Hin|[]]]; try discriminate;
      injection Hin as <-; split; try done.
    simpl. by apply negb_false_iff, String.eqb_eq. }
  assert (Forall
            (fun g => key g <> buildFieldKey toLowerCase strip_spaces
                capitalise_words (trim (newFieldLabel st))
                      /\ normalizeFieldLabel trim toLowerCase
                          collapse_spaces (label g)
                        
                           <> normalizeFieldLabel trim toLowerCase
                             collapse_spaces (trim (newFieldLabel st)))
            defs) as Hfresh.
  { eapply Forall_impl; [exact Hchk|]. intros g [He|?]; [|done].
    unfold is_edited in He. by rewrite Hcreate in He. }
  split.
  - apply (NoDup_snoc_fresh key); [done|].
    eapply Forall_impl; [exact Hfresh|]. by intros g [? _].
  - apply (NoDup_snoc_fresh (fun g => normalizeFieldLabel trim toLowerCase
      collapse_spaces (label g))); [done|].
    eapply Forall_impl; [exact Hfresh|]. by intros g [_ ?].
Qed.

End SettingsFacts.

(** A second field next to an existing one. *)
Lemma created_field_keeps_definitions_distinct_witness :
  let defs :=
    [{| Settings.id := "f-1"; Settings.key := "budget";
        Settings.label := "budget"; Settings.type := "number";
        Settings.options := None |}] in
  let st :=
    {| Settings.newFieldLabel := "region";
       Settings.newFieldType := "select";
       Settings.newFieldOptions := "north,south";
       Settings.editingId := None;
       Settings.newTagName := "" |} in
  let f :=
    {| Settings.new_key := "region"; Settings.new_label := "region";
       Settings.new_type := "select";
       Settings.new_options := Some ["north"; "south"]%string |} in
  let save :=
    Settings.handleSaveField Settings.plain Settings.plain Settings.plain
      Settings.plain Settings.plain in
  fst (save defs st)
  = [Settings.AddCustomField f;
     Settings.Toast "Campo personalizado criado com sucesso!" "success"]
  /\ NoDup (List.map Settings.key (defs ++ [Settings.stored "f-2" f])).
Proof.
  intros defs st f save.
  split; [vm_compute; reflexivity|].
  apply (created_field_keeps_definitions_distinct Settings.plain
           Settings.plain Settings.plain Settings.plain Settings.plain
           defs st f "f-2").
  - repeat constructor. intros H. inversion H.
  - repeat constructor. intros H. inversion H.
  - left. vm_compute. reflexivity.
Defined.
